(** * Simple Poll API (backend/main.py): vote admission and consistency

    A shallow embedding of the FastAPI handlers of [backend/main.py] and of
    the store, hashing and notification primitives they call, followed by the
    properties of the vote-admission pipeline.

    Conventions.
    - A Python [str] is a [string] whose characters are the code points
      0..255: HTTP header values reach the handlers decoded as Latin-1, and
      every identifier the service mints is ASCII.
    - A [datetime] is a [Z], the number of microseconds since the epoch. The
      ledger and the attempt log hold theirs as BSON does, to the
      millisecond, and the store compares them so. The two timestamps of a
      poll document, which the service only stores and returns, stand for
      the instant read from the clock, in the stored document and in its
      JSON alike: neither their millisecond in the store nor their
      [isoformat()] text is modelled.
    - [created_at - timedelta(seconds=RATE_LIMIT_WINDOW_SECONDS)] is the
      difference in [Z]; where Python's [datetime] cannot hold it the
      handler raises OverflowError instead, and the properties that range
      over the settings assume [window_start_defined].
    - Python [int] counters are [Z].
    - [secrets.token_urlsafe], [uuid.uuid4] and [now_utc] read the outside
      world: the value each call returns is an argument of the handler. *)

From Stdlib Require Import ZArith Lia List String Ascii.
From stdpp Require Import base option list gmap strings fin_maps.

Open Scope string_scope.
Open Scope list_scope.
Open Scope Z_scope.

(** ** Python strings *)

Module PyStr.

(** [bool(s)] of a [str]. *)
Definition truthy (s : string) : bool :=
  match s with
  | EmptyString => false
  | String _ _ => true
  end.

(** [str.isspace] on one code point below 256: TAB..CR, FS..US, SPACE,
    NEL and NBSP. *)
Definition isspace (c : ascii) : bool :=
  let n := Z.of_N (N_of_ascii c) in
  ((9 <=? n) && (n <=? 13)) || ((28 <=? n) && (n <=? 32))
  || (n =? 133) || (n =? 160).

Fixpoint lstrip (s : string) : string :=
  match s with
  | EmptyString => EmptyString
  | String c s' => if isspace c then lstrip s' else s
  end.

Fixpoint rstrip (s : string) : string :=
  match s with
  | EmptyString => EmptyString
  | String c s' =>
      match rstrip s' with
      | EmptyString => if isspace c then EmptyString else String c EmptyString
      | r => String c r
      end
  end.

(** [s.strip()] *)
Definition strip (s : string) : string := rstrip (lstrip s).

(** [s.split(sep)] for a one-character separator: never the empty list. *)
Fixpoint split (sep : ascii) (s : string) : list string :=
  match s with
  | EmptyString => [EmptyString]
  | String c s' =>
      if Ascii.eqb c sep then EmptyString :: split sep s'
      else match split sep s' with
           | h :: t => String c h :: t
           | [] => [String c EmptyString]
           end
  end.

(** [l[0]] on the result of [split]. *)
Definition item0 (l : list string) : string := List.hd EmptyString l.

Fixpoint all_space (s : string) : Prop :=
  match s with
  | EmptyString => True
  | String c s' => isspace c = true /\ all_space s'
  end.

Fixpoint no_char (sep : ascii) (s : string) : Prop :=
  match s with
  | EmptyString => True
  | String c s' => c <> sep /\ no_char sep s'
  end.

Definition head_char (s : string) : option ascii :=
  match s with
  | EmptyString => None
  | String c _ => Some c
  end.

Fixpoint last_char (s : string) : option ascii :=
  match s with
  | EmptyString => None
  | String c EmptyString => Some c
  | String _ s' => last_char s'
  end.

(** Neither the first nor the last character is white space. *)
Definition no_space_at_ends (s : string) : Prop :=
  (forall c, head_char s = Some c -> isspace c = false) /\
  (forall c, last_char s = Some c -> isspace c = false).

(** [s.encode("utf-8")] for code points below 256, as byte values. *)
Fixpoint encode_utf8 (s : string) : list Z :=
  match s with
  | EmptyString => []
  | String c s' =>
      let n := Z.of_N (N_of_ascii c) in
      if n <? 128 then n :: encode_utf8 s'
      else Z.lor 192 (Z.shiftr n 6) :: Z.lor 128 (Z.land n 63) :: encode_utf8 s'
  end.

End PyStr.

(** ** hashlib.sha256 (FIPS 180-4), on 32-bit words held in [Z] *)

Module SHA256.

Definition mask32 : Z := 4294967295.

Definition add32 (a b : Z) : Z := (a + b) mod 4294967296.

Definition rotr (n x : Z) : Z :=
  Z.lor (Z.shiftr x n) (Z.land (Z.shiftl x (32 - n)) mask32).

Definition Ch (x y z : Z) : Z :=
  Z.lxor (Z.land x y) (Z.land (Z.lxor x mask32) z).

Definition Maj (x y z : Z) : Z :=
  Z.lxor (Z.lxor (Z.land x y) (Z.land x z)) (Z.land y z).

Definition Sigma0 (x : Z) : Z := Z.lxor (Z.lxor (rotr 2 x) (rotr 13 x)) (rotr 22 x).
Definition Sigma1 (x : Z) : Z := Z.lxor (Z.lxor (rotr 6 x) (rotr 11 x)) (rotr 25 x).
Definition sigma0 (x : Z) : Z := Z.lxor (Z.lxor (rotr 7 x) (rotr 18 x)) (Z.shiftr x 3).
Definition sigma1 (x : Z) : Z := Z.lxor (Z.lxor (rotr 17 x) (rotr 19 x)) (Z.shiftr x 10).

Definition K : list Z :=
  [ 1116352408; 1899447441; 3049323471; 3921009573; 961987163; 1508970993;
    2453635748; 2870763221; 3624381080; 310598401; 607225278; 1426881987;
    1925078388; 2162078206; 2614888103; 3248222580; 3835390401; 4022224774;
    264347078; 604807628; 770255983; 1249150122; 1555081692; 1996064986;
    2554220882; 2821834349; 2952996808; 3210313671; 3336571891; 3584528711;
    113926993; 338241895; 666307205; 773529912; 1294757372; 1396182291;
    1695183700; 1986661051; 2177026350; 2456956037; 2730485921; 2820302411;
    3259730800; 3345764771; 3516065817; 3600352804; 4094571909; 275423344;
    430227734; 506948616; 659060556; 883997877; 958139571; 1322822218;
    1537002063; 1747873779; 1955562222; 2024104815; 2227730452; 2361852424;
    2428436474; 2756734187; 3204031479; 3329325298 ].

Definition H0 : list Z :=
  [ 1779033703; 3144134277; 1013904242; 2773480762;
    1359893119; 2600822924; 528734635; 1541459225 ].

(** Big-endian bytes of [x], [n] of them. *)
Fixpoint be_bytes (n : nat) (x : Z) : list Z :=
  match n with
  | O => []
  | S n' => Z.land (Z.shiftr x (8 * Z.of_nat n')) 255 :: be_bytes n' x
  end.

(** The message, the bit 1, zeros up to 56 modulo 64, the bit length. *)
Definition pad (msg : list Z) : list Z :=
  let len := Z.of_nat (List.length msg) in
  let zeros := Z.to_nat ((55 - len) mod 64) in
  msg ++ [128] ++ List.repeat 0 zeros ++ be_bytes 8 (8 * len).

Fixpoint words (n : nat) (bs : list Z) : list Z :=
  match n with
  | O => []
  | S n' =>
      match bs with
      | b0 :: b1 :: b2 :: b3 :: rest =>
          (b0 * 16777216 + b1 * 65536 + b2 * 256 + b3) :: words n' rest
      | _ => []
      end
  end.

Definition nthw (l : list Z) (i : nat) : Z := List.nth i l 0.

(** Message schedule: [w] holds W[0..t-1] in reverse, newest first. *)
Fixpoint schedule (n : nat) (w : list Z) : list Z :=
  match n with
  | O => w
  | S n' =>
      let x := add32 (add32 (sigma1 (nthw w 1)) (nthw w 6))
                     (add32 (sigma0 (nthw w 14)) (nthw w 15)) in
      schedule n' (x :: w)
  end.

Definition round (st : list Z) (kw : Z * Z) : list Z :=
  match st with
  | [a; b; c; d; e; f; g; h] =>
      let t1 := add32 (add32 (add32 h (Sigma1 e)) (add32 (Ch e f g) (fst kw))) (snd kw) in
      let t2 := add32 (Sigma0 a) (Maj a b c) in
      [add32 t1 t2; a; b; c; add32 d t1; e; f; g]
  | _ => st
  end.

Definition compress (h : list Z) (block : list Z) : list Z :=
  let w := List.rev (schedule 48 (List.rev (words 16 block))) in
  let st := List.fold_left round (List.combine K w) h in
  List.map (fun p => add32 (fst p) (snd p)) (List.combine h st).

Fixpoint blocks (n : nat) (h : list Z) (bs : list Z) : list Z :=
  match n with
  | O => h
  | S n' => blocks n' (compress h (List.firstn 64 bs)) (List.skipn 64 bs)
  end.

Definition digest_words (msg : list Z) : list Z :=
  let p := pad msg in
  blocks (Nat.div (List.length p) 64) H0 p.

Definition hex_digit (n : Z) : ascii :=
  ascii_of_N (Z.to_N (if n <? 10 then 48 + n else 87 + n)).

Fixpoint hex_word (n : nat) (x : Z) : string :=
  match n with
  | O => EmptyString
  | S n' =>
      String (hex_digit (Z.land (Z.shiftr x (4 * Z.of_nat n')) 15)) (hex_word n' x)
  end.

(** [hashlib.sha256(msg).hexdigest()] *)
Definition hexdigest (msg : list Z) : string :=
  List.fold_right (fun w acc => hex_word 8 w +:+ acc) EmptyString (digest_words msg).

End SHA256.

(** ** Configuration read from the environment at import *)

Record Settings := {
  IP_HASH_SALT : string;
  RATE_LIMIT_WINDOW_SECONDS : Z;
  RATE_LIMIT_MAX_ATTEMPTS : Z
}.

(** The values [os.getenv] falls back to. *)
Definition default_settings : Settings :=
  {| IP_HASH_SALT := "change-me-in-production";
     RATE_LIMIT_WINDOW_SECONDS := 60;
     RATE_LIMIT_MAX_ATTEMPTS := 15 |}.

(** [timedelta(seconds=n)] in microseconds, for the [n] Python can hold as
    a [timedelta]. *)
Definition timedelta_seconds (n : Z) : Z := n * 1000000.

(** ** The request as the handlers read it *)

Record Address := { host : string; port : Z }.

Record Request := {
  headers : list (string * string);   (* names lower-cased by the server *)
  client : option Address
}.

(** [request.headers.get(key, default)]: the first header of that name. *)
Fixpoint headers_get (hs : list (string * string)) (key default : string) : string :=
  match hs with
  | [] => default
  | (k, v) :: rest => if String.eqb k key then v else headers_get rest key default
  end.

(** The last three lines of [get_client_ip]. *)
Definition client_host_or_unknown (request : Request) : string :=
  match client request with
  | Some a => if PyStr.truthy (host a) then host a else "unknown"
  | None => "unknown"
  end.

Definition get_client_ip (request : Request) : string :=
  let forwarded_for := headers_get (headers request) "x-forwarded-for" "" in
  if PyStr.truthy forwarded_for then
    let first := PyStr.strip (PyStr.item0 (PyStr.split "," forwarded_for)) in
    if PyStr.truthy first then first else client_host_or_unknown request
  else client_host_or_unknown request.

Definition hash_ip (cfg : Settings) (ip : string) : string :=
  SHA256.hexdigest (PyStr.encode_utf8 (IP_HASH_SALT cfg +:+ ":" +:+ ip)).

(** ** Documents and collections *)

Record PollOption := { id : string; text : string; votes : Z }.

(** A document of [db.polls]; its [_id] is the key it is stored under. *)
Record Poll := {
  question : string;
  created_at : Z;
  updated_at : Z;
  version : Z;
  total_votes : Z;
  options : list PollOption
}.

(** A document of [db.votes]. *)
Record Vote := {
  v_poll_id : string;
  v_option_id : string;
  v_voter_id : string;
  v_ip_hash : string;
  v_created_at : Z
}.

(** A document of [db.vote_attempts]. *)
Record VoteAttempt := {
  a_poll_id : string;
  a_ip_hash : string;
  attempted_at : Z
}.

Record DB := {
  db_polls : gmap string Poll;
  db_votes : list Vote;
  db_vote_attempts : list VoteAttempt
}.

Definition empty_db : DB := {| db_polls := ∅; db_votes := []; db_vote_attempts := [] |}.

Definition set_polls (d : DB) (ps : gmap string Poll) : DB :=
  {| db_polls := ps; db_votes := db_votes d; db_vote_attempts := db_vote_attempts d |}.

Definition set_votes (d : DB) (vs : list Vote) : DB :=
  {| db_polls := db_polls d; db_votes := vs; db_vote_attempts := db_vote_attempts d |}.

Definition set_vote_attempts (d : DB) (l : list VoteAttempt) : DB :=
  {| db_polls := db_polls d; db_votes := db_votes d; db_vote_attempts := l |}.

Module Mongo.

(** A datetime as BSON holds it, int64 milliseconds since the epoch
    (pymongo drops what is below the millisecond), and the datetime a
    document read back carries. *)
Definition millis (t : Z) : Z := t / 1000.

Definition bson_datetime (t : Z) : Z := millis t * 1000.

(** The filter ["options.id": option_id] on one poll document. *)
Definition has_option (option_id : string) (p : Poll) : bool :=
  existsb (fun o => String.eqb (id o) option_id) (options p).

(** [db.polls.find_one({"_id": poll_id})] *)
Definition find_poll (d : DB) (poll_id : string) : option Poll :=
  db_polls d !! poll_id.

(** [db.polls.find_one({"_id": poll_id, "options.id": option_id})] *)
Definition find_poll_option (d : DB) (poll_id option_id : string) : option Poll :=
  match db_polls d !! poll_id with
  | Some p => if has_option option_id p then Some p else None
  | None => None
  end.

(** [db.polls.insert_one(doc)]: [None] is DuplicateKeyError on [_id]. *)
Definition insert_poll (d : DB) (poll_id : string) (doc : Poll) : option DB :=
  match db_polls d !! poll_id with
  | Some _ => None
  | None => Some (set_polls d (<[poll_id := doc]> (db_polls d)))
  end.

(** The unique index of [db.votes] on (poll_id, voter_id). *)
Definition same_key (v w : Vote) : bool :=
  String.eqb (v_poll_id v) (v_poll_id w) && String.eqb (v_voter_id v) (v_voter_id w).

(** [db.votes.insert_one(v)]: [None] is DuplicateKeyError. *)
Definition insert_vote (d : DB) (v : Vote) : option DB :=
  if existsb (same_key v) (db_votes d) then None
  else Some (set_votes d
               (db_votes d
                ++ [{| v_poll_id := v_poll_id v; v_option_id := v_option_id v;
                       v_voter_id := v_voter_id v; v_ip_hash := v_ip_hash v;
                       v_created_at := bson_datetime (v_created_at v) |}])).

(** [db.vote_attempts.insert_one(a)] *)
Definition insert_attempt (d : DB) (a : VoteAttempt) : DB :=
  set_vote_attempts d
    (db_vote_attempts d
     ++ [{| a_poll_id := a_poll_id a; a_ip_hash := a_ip_hash a;
            attempted_at := bson_datetime (attempted_at a) |}]).

(** The filter of the count: [$gte] compares the two datetimes as BSON
    holds them. *)
Definition in_window (poll_id ip_hash : string) (window_start : Z) (a : VoteAttempt) : bool :=
  String.eqb (a_poll_id a) poll_id && String.eqb (a_ip_hash a) ip_hash
  && (millis window_start <=? millis (attempted_at a)).

(** [db.vote_attempts.count_documents({"poll_id": .., "ip_hash": ..,
    "attempted_at": {"$gte": window_start}})] *)
Definition count_attempts (d : DB) (poll_id ip_hash : string) (window_start : Z) : Z :=
  Z.of_nat (List.length (List.filter (in_window poll_id ip_hash window_start) (db_vote_attempts d))).

(** ["$inc": {"options.$.votes": 1}]: the positional operator is the first
    array element the filter matched. *)
Fixpoint inc_matched (option_id : string) (opts : list PollOption) : list PollOption :=
  match opts with
  | [] => []
  | o :: rest =>
      if String.eqb (id o) option_id
      then {| id := id o; text := text o; votes := votes o + 1 |} :: rest
      else o :: inc_matched option_id rest
  end.

(** The update document of [vote_poll] applied to one poll. *)
Definition apply_vote (option_id : string) (now : Z) (p : Poll) : Poll :=
  {| question := question p;
     created_at := created_at p;
     updated_at := now;
     version := version p + 1;
     total_votes := total_votes p + 1;
     options := inc_matched option_id (options p) |}.

(** [db.polls.update_one({"_id": poll_id, "options.id": option_id}, ..)]:
    the store after it and [matched_count]. *)
Definition update_vote (d : DB) (poll_id option_id : string) (now : Z) : DB * Z :=
  match find_poll_option d poll_id option_id with
  | Some p => (set_polls d (<[poll_id := apply_vote option_id now p]> (db_polls d)), 1)
  | None => (d, 0)
  end.

End Mongo.

(** ** asyncio.Event and the streams that wait on it *)

(** [_waiters] holds the streams suspended in [wait()]. *)
Record Event := { _value : bool; _waiters : list nat }.

(** Where the generator of [poll_events_stream] stands: about to call
    [event.wait()] (at the top of the loop, or parked at [yield], which
    resumes there), or suspended inside [wait()] on a future that the event
    has or has not resolved yet. *)
Inductive StreamPC := AtWait | Suspended (fut_done : bool).

Record Stream := {
  stream_poll : string;
  stream_pc : StreamPC;
  emitted : list Z          (* the instants of the [data:] lines sent *)
}.

(** ** The process: the store and the in-process notifier state *)

Record App := {
  db : DB;
  poll_events : gmap string Event;
  streams : list Stream
}.

Definition init_app : App := {| db := empty_db; poll_events := ∅; streams := [] |}.

Definition set_db (a : App) (d : DB) : App :=
  {| db := d; poll_events := poll_events a; streams := streams a |}.

Definition set_pc (s : Stream) (pc : StreamPC) : Stream :=
  {| stream_poll := stream_poll s; stream_pc := pc; emitted := emitted s |}.

(** [fut.set_result(True)] unless [fut.done()], for the future of stream [sid]. *)
Definition resolve (ss : list Stream) (sid : nat) : list Stream :=
  match ss !! sid with
  | Some s =>
      match stream_pc s with
      | Suspended false => <[sid := set_pc s (Suspended true)]> ss
      | _ => ss
      end
  | None => ss
  end.

Definition upsert_poll_event (poll_id : string) (a : App) : App * Event :=
  match poll_events a !! poll_id with
  | Some ev => (a, ev)
  | None =>
      let ev := {| _value := false; _waiters := [] |} in
      ({| db := db a; poll_events := <[poll_id := ev]> (poll_events a);
          streams := streams a |}, ev)
  end.

(** [Event.set()]: raise the flag and resolve the futures of the waiters;
    nothing when the flag is already up. *)
Definition event_set (poll_id : string) (ev : Event) (a : App) : App :=
  if _value ev then a
  else {| db := db a;
          poll_events := <[poll_id := {| _value := true; _waiters := _waiters ev |}]> (poll_events a);
          streams := List.fold_left resolve (_waiters ev) (streams a) |}.

Definition notify_poll_change (poll_id : string) (a : App) : App :=
  let '(a1, ev) := upsert_poll_event poll_id a in
  event_set poll_id ev a1.

(** ** Handlers *)

Inductive Exn :=
| HTTPException (status_code : Z) (detail : string)
| DuplicateKeyError.

Inductive Result (A : Type) :=
| Return (a : A)
| Raise (e : Exn).
Arguments Return {A} a.
Arguments Raise {A} e.

(** The JSON of a poll: its id and the fields of the document, each of the
    two timestamps standing for its [isoformat()] text. *)
Definition PollJSON : Type := string * Poll.

Definition serialize_poll (poll_doc : option PollJSON) : Result PollJSON :=
  match poll_doc with
  | None => Raise (HTTPException 404 "Poll not found")
  | Some doc => Return doc
  end.

Definition get_poll_or_404 (d : DB) (poll_id : string) : Result PollJSON :=
  match Mongo.find_poll d poll_id with
  | None => Raise (HTTPException 404 "Poll not found")
  | Some p => Return (poll_id, p)
  end.

(** The validated body of POST /polls. *)
Record CreatePollRequest := { payload_question : string; payload_options : list string }.

Record CreatePollResponse := { created : PollJSON; share_path : string }.

(** POST /polls. [poll_token] is what [secrets.token_urlsafe(6)] returns and
    [option_token i] what the call for the i-th option returns. *)
Definition create_poll (payload : CreatePollRequest) (poll_token : string)
    (option_token : nat -> string) (now : Z) (a : App) : App * Result CreatePollResponse :=
  let poll_id := poll_token in
  let options :=
    imap (fun i text => {| id := option_token i; text := text; votes := 0 |})
         (payload_options payload) in
  let poll_doc :=
    {| question := payload_question payload;
       created_at := now; updated_at := now;
       version := 1; total_votes := 0; options := options |} in
  match Mongo.insert_poll (db a) poll_id poll_doc with
  | None => (a, Raise DuplicateKeyError)
  | Some d =>
      match serialize_poll (Some (poll_id, poll_doc)) with
      | Raise e => (set_db a d, Raise e)
      | Return data =>
          (notify_poll_change poll_id (set_db a d),
           Return {| created := data; share_path := "/?poll=" +:+ poll_id |})
      end
  end.

(** GET /polls/{poll_id} *)
Definition get_poll (poll_id : string) (a : App) : Result PollJSON :=
  match get_poll_or_404 (db a) poll_id with
  | Raise e => Raise e
  | Return doc => serialize_poll (Some doc)
  end.

Record VoteResponse := { body : PollJSON; set_cookie_voter_id : string }.

(** [voter_id or str(uuid.uuid4())] *)
Definition resolve_voter_id (voter_id : option string) (uuid4 : string) : string :=
  match voter_id with
  | Some v => if PyStr.truthy v then v else uuid4
  | None => uuid4
  end.

(** POST /polls/{poll_id}/vote, statement by statement. The handler makes up
    to six calls to the store; [others k] is what the other clients of the
    store do to it between this handler's k-th call and the next one. *)
Definition vote_poll_among (others : nat -> DB -> DB) (cfg : Settings)
    (poll_id option_id : string) (request : Request) (voter_id : option string)
    (uuid4 : string) (now : Z) (a : App) : App * Result VoteResponse :=
  let current_voter_id := resolve_voter_id voter_id uuid4 in
  let ip_digest := hash_ip cfg (get_client_ip request) in
  let created_at := now in
  let window_start := created_at - timedelta_seconds (RATE_LIMIT_WINDOW_SECONDS cfg) in
  let d0 := db a in
  match Mongo.find_poll_option d0 poll_id option_id with
  | None =>
      let d1 := others 1%nat d0 in
      match Mongo.find_poll d1 poll_id with
      | None => (set_db a d1, Raise (HTTPException 404 "Poll not found"))
      | Some _ => (set_db a d1, Raise (HTTPException 400 "Option not found for this poll"))
      end
  | Some _ =>
      let d1 := others 1%nat d0 in
      let d2 := Mongo.insert_attempt d1
                  {| a_poll_id := poll_id; a_ip_hash := ip_digest; attempted_at := created_at |} in
      let d3 := others 2%nat d2 in
      let attempts := Mongo.count_attempts d3 poll_id ip_digest window_start in
      if attempts >? RATE_LIMIT_MAX_ATTEMPTS cfg
      then (set_db a d3, Raise (HTTPException 429 "Too many vote attempts. Try again later."))
      else
        let d4 := others 3%nat d3 in
        match Mongo.insert_vote d4
                {| v_poll_id := poll_id; v_option_id := option_id;
                   v_voter_id := current_voter_id; v_ip_hash := ip_digest;
                   v_created_at := created_at |} with
        | None => (set_db a d4, Raise (HTTPException 409 "You already voted on this poll"))
        | Some d5 =>
            let d6 := others 4%nat d5 in
            let '(d7, matched_count) := Mongo.update_vote d6 poll_id option_id created_at in
            if matched_count =? 0
            then (set_db a d7, Raise (HTTPException 400 "Option not found for this poll"))
            else
              let d8 := others 5%nat d7 in
              match get_poll_or_404 d8 poll_id with
              | Raise e => (set_db a d8, Raise e)
              | Return updated_poll =>
                  let a' := notify_poll_change poll_id (set_db a d8) in
                  match serialize_poll (Some updated_poll) with
                  | Raise e => (a', Raise e)
                  | Return data =>
                      (a', Return {| body := data; set_cookie_voter_id := current_voter_id |})
                  end
              end
        end
  end.

(** No other client touches the store while the handler runs. *)
Definition alone : nat -> DB -> DB := fun _ d => d.

Definition vote_poll : Settings -> string -> string -> Request -> option string ->
    string -> Z -> App -> App * Result VoteResponse :=
  vote_poll_among alone.

(** GET /polls/{poll_id}/events: the event is looked up (or made) and a
    generator over it is started; the reply is the index of the new stream. *)
Definition poll_events_stream (poll_id : string) (a : App) : App * nat :=
  let '(a1, _) := upsert_poll_event poll_id a in
  ({| db := db a1; poll_events := poll_events a1;
      streams := streams a1 ++ [{| stream_poll := poll_id; stream_pc := AtWait; emitted := [] |}] |},
   List.length (streams a1)).

Definition set_event (a : App) (poll_id : string) (ev : Event) (ss : list Stream) : App :=
  {| db := db a; poll_events := <[poll_id := ev]> (poll_events a); streams := ss |}.

(** [event.clear()] and [yield f"data: {now_iso()}\n\n"] *)
Definition clear_and_yield (s : Stream) (now : Z) : Stream :=
  {| stream_poll := stream_poll s; stream_pc := AtWait; emitted := emitted s ++ [now] |}.

(** The event loop runs the generator of stream [sid] up to its next
    suspension; the result tells whether a [data:] line was sent. A stream
    whose future is unresolved is not runnable. *)
Definition event_generator (sid : nat) (now : Z) (a : App) : App * bool :=
  match streams a !! sid with
  | None => (a, false)
  | Some s =>
      match poll_events a !! stream_poll s with
      | None => (a, false)
      | Some ev =>
          match stream_pc s with
          | AtWait =>
              if _value ev
              then (set_event a (stream_poll s)
                      {| _value := false; _waiters := _waiters ev |}
                      (<[sid := clear_and_yield s now]> (streams a)), true)
              else (set_event a (stream_poll s)
                      {| _value := false; _waiters := _waiters ev ++ [sid] |}
                      (<[sid := set_pc s (Suspended false)]> (streams a)), false)
          | Suspended true =>
              (set_event a (stream_poll s)
                 {| _value := false;
                    _waiters := List.filter (fun w => negb (Nat.eqb w sid)) (_waiters ev) |}
                 (<[sid := clear_and_yield s now]> (streams a)), true)
          | Suspended false => (a, false)
          end
      end
  end.

(** ** Runs of the service *)

Inductive Call :=
| CreatePoll (payload : CreatePollRequest) (poll_token : string)
    (option_token : nat -> string) (now : Z)
| GetPoll (poll_id : string)
| VotePoll (poll_id option_id : string) (request : Request)
    (voter_id : option string) (uuid4 : string) (now : Z)
| OpenStream (poll_id : string)
| RunStream (sid : nat) (now : Z).

Inductive Reply :=
| PollCreated (r : Result CreatePollResponse)
| PollRead (r : Result PollJSON)
| Voted (r : Result VoteResponse)
| StreamOpened (sid : nat)
| StreamRan (sent : bool).

Definition handle (cfg : Settings) (a : App) (c : Call) : App * Reply :=
  match c with
  | CreatePoll payload poll_token option_token now =>
      let '(a', r) := create_poll payload poll_token option_token now a in (a', PollCreated r)
  | GetPoll poll_id => (a, PollRead (get_poll poll_id a))
  | VotePoll poll_id option_id request voter_id uuid4 now =>
      let '(a', r) := vote_poll cfg poll_id option_id request voter_id uuid4 now a in (a', Voted r)
  | OpenStream poll_id =>
      let '(a', sid) := poll_events_stream poll_id a in (a', StreamOpened sid)
  | RunStream sid now =>
      let '(a', sent) := event_generator sid now a in (a', StreamRan sent)
  end.

(** The state after the calls and the replies, oldest first. *)
Fixpoint run (cfg : Settings) (a : App) (cs : list Call) : App * list Reply :=
  match cs with
  | [] => (a, [])
  | c :: rest =>
      let '(a1, r) := handle cfg a c in
      let '(a2, rs) := run cfg a1 rest in
      (a2, r :: rs)
  end.

Definition reachable (cfg : Settings) (a : App) : Prop :=
  exists cs, fst (run cfg init_app cs) = a.

Arguments hash_ip : simpl never.
Arguments get_client_ip : simpl never.

(** ** Vocabulary of the properties *)

(** The attempt and the ledger entry a vote request leaves in the store. *)
Definition attempt_of (cfg : Settings) (poll_id : string) (request : Request) (now : Z) : VoteAttempt :=
  {| a_poll_id := poll_id; a_ip_hash := hash_ip cfg (get_client_ip request);
     attempted_at := Mongo.bson_datetime now |}.

Definition vote_of (cfg : Settings) (poll_id option_id : string) (request : Request)
    (voter_id : option string) (uuid4 : string) (now : Z) : Vote :=
  {| v_poll_id := poll_id; v_option_id := option_id;
     v_voter_id := resolve_voter_id voter_id uuid4;
     v_ip_hash := hash_ip cfg (get_client_ip request);
     v_created_at := Mongo.bson_datetime now |}.

(** [created_at - timedelta(seconds=RATE_LIMIT_WINDOW_SECONDS)] *)
Definition window_start (cfg : Settings) (now : Z) : Z :=
  now - timedelta_seconds (RATE_LIMIT_WINDOW_SECONDS cfg).

(** [datetime.min] and [datetime.max], and what Python can hold as a
    [datetime]. *)
Definition datetime_min : Z := -62135596800000000.
Definition datetime_max : Z := 253402300799999999.

Definition is_datetime (t : Z) : bool := (datetime_min <=? t) && (t <=? datetime_max).

(** The window start of a request at [now] is a datetime: the subtraction
    in [vote_poll] does not raise OverflowError. (The bounds of [timedelta]
    are wider than the distance between two datetimes.) *)
Definition window_start_defined (cfg : Settings) (now : Z) : bool :=
  is_datetime now && is_datetime (window_start cfg now).

(** One character read back from the front of UTF-8 bytes, the inverse of
    [PyStr.encode_utf8] on it. *)
Definition decode_utf8_char (bytes : list Z) : option (ascii * list Z) :=
  match bytes with
  | [] => None
  | b :: rest =>
      if b <? 128 then Some (ascii_of_N (Z.to_N b), rest)
      else match rest with
           | [] => None
           | b2 :: rest' =>
               Some (ascii_of_N (Z.to_N ((b - 192) * 64 + (b2 - 128))), rest')
           end
  end.

(** The four errors [vote_poll] raises. *)
Definition NotFound : Exn := HTTPException 404 "Poll not found".
Definition InvalidOption : Exn := HTTPException 400 "Option not found for this poll".
Definition RateLimited : Exn := HTTPException 429 "Too many vote attempts. Try again later.".
Definition DuplicateVote : Exn := HTTPException 409 "You already voted on this poll".

(** The ledger holds a vote of [voter] on [poll_id]. *)
Definition has_voted (d : DB) (poll_id voter : string) : bool :=
  existsb (fun v => String.eqb (v_poll_id v) poll_id && String.eqb (v_voter_id v) voter)
          (db_votes d).

(** What the rate gate compares with the limit: the attempts in the window
    once the current one is in the log. *)
Definition attempts_seen (cfg : Settings) (d : DB) (poll_id : string)
    (request : Request) (now : Z) : Z :=
  Mongo.count_attempts
    (Mongo.insert_attempt d
       {| a_poll_id := poll_id; a_ip_hash := hash_ip cfg (get_client_ip request);
          attempted_at := now |})
    poll_id (hash_ip cfg (get_client_ip request)) (window_start cfg now).

(** [sum(option.votes for option in options)] *)
Fixpoint sum_votes (opts : list PollOption) : Z :=
  match opts with
  | [] => 0
  | o :: rest => votes o + sum_votes rest
  end.

(** The option with its counter replaced. *)
Definition with_votes (o : PollOption) (n : Z) : PollOption :=
  {| id := id o; text := text o; votes := n |}.

(** The document [create_poll] stores. *)
Definition new_poll (payload : CreatePollRequest) (option_token : nat -> string) (now : Z) : Poll :=
  {| question := payload_question payload;
     created_at := now; updated_at := now; version := 1; total_votes := 0;
     options := imap (fun i text => {| id := option_token i; text := text; votes := 0 |})
                     (payload_options payload) |}.

(** The call is a vote on [poll_id] and the reply is its updated snapshot. *)
Definition accepted_on (poll_id : string) (c : Call) (r : Reply) : bool :=
  match c, r with
  | VotePoll pid _ _ _ _ _, Voted (Return _) => String.eqb pid poll_id
  | _, _ => false
  end.

(** The number of accepted votes on [poll_id] in a run. *)
Fixpoint accepted_votes (poll_id : string) (cs : list Call) (rs : list Reply) : Z :=
  match cs, rs with
  | c :: cs', r :: rs' =>
      (if accepted_on poll_id c r then 1 else 0) + accepted_votes poll_id cs' rs'
  | _, _ => 0
  end.

(** The instant a call reads from the clock. *)
Definition call_time (c : Call) : Z :=
  match c with
  | CreatePoll _ _ _ now => now
  | VotePoll _ _ _ _ _ now => now
  | RunStream _ now => now
  | GetPoll _ | OpenStream _ => 0
  end.

(** The call is a vote request on [poll_id] whose caller has the fingerprint
    [fp] and whose option is one of the poll's in the store [d]. *)
Definition vote_from (cfg : Settings) (poll_id fp : string) (d : DB) (c : Call) : bool :=
  match c with
  | VotePoll pid oid request _ _ _ =>
      String.eqb pid poll_id && String.eqb (hash_ip cfg (get_client_ip request)) fp
      && match Mongo.find_poll_option d poll_id oid with Some _ => true | None => false end
  | _ => false
  end.

(** The call is a vote request on [poll_id] whose caller has the
    fingerprint [fp], whatever option it names; and those of the calls that
    are. *)
Definition request_from (cfg : Settings) (poll_id fp : string) (c : Call) : bool :=
  match c with
  | VotePoll pid _ request _ _ _ =>
      String.eqb pid poll_id && String.eqb (hash_ip cfg (get_client_ip request)) fp
  | _ => false
  end.

Definition requests_from (cfg : Settings) (poll_id fp : string) (cs : list Call) : list Call :=
  List.filter (request_from cfg poll_id fp) cs.

(** Any two of the calls are at most the window apart. *)
Definition inside_window (cfg : Settings) (cs : list Call) : bool :=
  forallb (fun c => forallb (fun c' => window_start cfg (call_time c') <=? call_time c) cs) cs.

(** No attempt already in the log falls in the window of one of the calls. *)
Definition no_earlier_attempts (cfg : Settings) (poll_id fp : string) (d : DB)
    (cs : list Call) : bool :=
  forallb (fun c => Mongo.count_attempts d poll_id fp (window_start cfg (call_time c)) =? 0) cs.

(** The reply of a vote request that got past the rate gate. *)
Definition passed_rate_gate (r : Reply) : Prop :=
  r = Voted (Raise DuplicateVote) \/ exists resp, r = Voted (Return resp).

(** An attempt of the fingerprint on the poll whose millisecond is not
    before the millisecond of [since]. *)
Definition in_window_of (poll_id fp : string) (since : Z) (x : VoteAttempt) : Prop :=
  a_poll_id x = poll_id /\ a_ip_hash x = fp /\
  Mongo.millis since <= Mongo.millis (attempted_at x).

#[global] Instance in_window_of_dec poll_id fp since x :
  Decision (in_window_of poll_id fp since x).
Proof. unfold in_window_of. apply _. Defined.

(** [entry] is the first entry of a comma-separated header value: what
    stands before the first comma, without the white space around it. *)
Definition first_entry (header entry : string) : Prop :=
  exists pre rest lead trail,
    (header = pre \/ header = pre +:+ "," +:+ rest) /\ PyStr.no_char "," pre /\
    pre = lead +:+ entry +:+ trail /\
    PyStr.all_space lead /\ PyStr.all_space trail /\ PyStr.no_space_at_ends entry.

(** The flag and the waiters of a poll's event; an event not made yet has
    neither. *)
Definition flag (a : App) (poll_id : string) : bool :=
  match poll_events a !! poll_id with
  | Some ev => _value ev
  | None => false
  end.

Definition waiters (a : App) (poll_id : string) : list nat :=
  match poll_events a !! poll_id with
  | Some ev => _waiters ev
  | None => []
  end.

(** A resolved future makes its stream runnable again. *)
Definition wake (s : Stream) : Stream :=
  match stream_pc s with
  | Suspended false => set_pc s (Suspended true)
  | _ => s
  end.


(** The waiters of an event are streams of its poll, and a stream whose
    future is unresolved is among the waiters of its poll's event, whose flag
    is down. *)
Definition notifier_inv (a : App) : Prop :=
  (forall pid sid, sid ∈ waiters a pid ->
     exists s, streams a !! sid = Some s /\ stream_poll s = pid) /\
  (forall sid s, streams a !! sid = Some s -> stream_pc s = Suspended false ->
     flag a (stream_poll s) = false /\ sid ∈ waiters a (stream_poll s)).

(** Other clients of the store act once, right after this handler's k-th
    call to it. *)
Definition racing (k : nat) (f : DB -> DB) : nat -> DB -> DB :=
  fun j d => if Nat.eqb j k then f d else d.

(** The store as the ledger insert of a vote request leaves it when no
    other client has acted: the attempt and the vote are in, the polls are
    untouched. *)
Definition after_ledger_insert (cfg : Settings) (d : DB) (poll_id option_id : string)
    (request : Request) (voter_id : option string) (uuid4 : string) (now : Z) : DB :=
  {| db_polls := db_polls d;
     db_votes := db_votes d ++ [vote_of cfg poll_id option_id request voter_id uuid4 now];
     db_vote_attempts := db_vote_attempts d ++ [attempt_of cfg poll_id request now] |}.

(** Every poll's total is the sum of its counters. *)
Definition consistent (a : App) : Prop :=
  forall pid p, db_polls (db a) !! pid = Some p -> total_votes p = sum_votes (options p).

(** What one call of a run does to the polls collection. *)
Inductive PollsStep (a a' : App) (c : Call) (r : Reply) : Prop :=
| step_vote pid oid req vid uuid now resp p :
    c = VotePoll pid oid req vid uuid now -> r = Voted (Return resp) ->
    db_polls (db a) !! pid = Some p -> Mongo.has_option oid p = true ->
    db_polls (db a') = <[pid := Mongo.apply_vote oid now p]> (db_polls (db a)) ->
    PollsStep a a' c r
| step_create payload tok otok now resp :
    c = CreatePoll payload tok otok now -> r = PollCreated (Return resp) ->
    db_polls (db a) !! tok = None ->
    db_polls (db a') = <[tok := new_poll payload otok now]> (db_polls (db a)) ->
    PollsStep a a' c r
| step_same :
    db_polls (db a') = db_polls (db a) -> (forall pid, accepted_on pid c r = false) ->
    PollsStep a a' c r.

(** What one run of a stream's generator does. *)
Inductive GeneratorStep (sid : nat) (now : Z) (a a' : App) (sent : bool) : Prop :=
| gen_idle :
    a' = a -> sent = false ->
    (forall s, streams a !! sid = Some s -> is_Some (poll_events a !! stream_poll s) ->
       stream_pc s = Suspended false) ->
    GeneratorStep sid now a a' sent
| gen_run s ev ev' s' :
    streams a !! sid = Some s -> poll_events a !! stream_poll s = Some ev ->
    db a' = db a ->
    poll_events a' = <[stream_poll s := ev']> (poll_events a) ->
    streams a' = <[sid := s']> (streams a) ->
    stream_poll s' = stream_poll s -> _value ev' = false ->
    (stream_pc s = AtWait /\ _value ev = true /\ sent = true /\
     _waiters ev' = _waiters ev /\ s' = clear_and_yield s now
     \/ stream_pc s = AtWait /\ _value ev = false /\ sent = false /\
        _waiters ev' = _waiters ev ++ [sid] /\ s' = set_pc s (Suspended false)
     \/ stream_pc s = Suspended true /\ sent = true /\
        _waiters ev' = List.filter (fun w => negb (Nat.eqb w sid)) (_waiters ev) /\
        s' = clear_and_yield s now) ->
    GeneratorStep sid now a a' sent.


(** ** Concrete runs *)

Module Scenario.

Definition pizza : CreatePollRequest :=
  {| payload_question := "Pizza or Pasta?"; payload_options := ["Pizza"; "Pasta"] |}.

Definition option_token (i : nat) : string :=
  match i with
  | O => "opt-pizza"
  | _ => "opt-pasta"
  end.

Definition browser : Request :=
  {| headers := [("x-forwarded-for", "203.0.113.7, 10.0.0.1")];
     client := Some {| host := "10.0.0.1"; port := 443 |} |}.

Definition create : Call := CreatePoll pizza "poll-1" option_token 0.

(** A vote for Pizza by the browser holding the cookie [voter], at second [t]. *)
Definition vote (voter : string) (t : Z) : Call :=
  VotePoll "poll-1" "opt-pizza" browser (Some voter) "fresh-uuid" (t * 1000000).

(** The poll exists. *)
Definition created : App := fst (run default_settings init_app [create]).

(** voter-1 has voted once. *)
Definition voted : App := fst (run default_settings init_app [create; vote "voter-1" 1]).

(** Another client of the store takes the Pizza option off the poll. *)
Definition drop_pizza (d : DB) : DB :=
  set_polls d
    (alter (fun p => {| question := question p; created_at := created_at p;
                        updated_at := updated_at p; version := version p;
                        total_votes := total_votes p;
                        options := List.filter (fun o => negb (String.eqb (id o) "opt-pizza"))
                                               (options p) |})
           "poll-1" (db_polls d)).

(** voter-1 has voted and retried fourteen times, one request a second. *)
Definition retried : App :=
  fst (run default_settings init_app
         (create :: List.map (fun n => vote "voter-1" (Z.of_nat n)) (seq 1 15))).

(** The poll document once one vote for Pizza has been accepted at second 1. *)
Definition pizza_leads : Poll :=
  {| question := "Pizza or Pasta?"; created_at := 0; updated_at := 1000000;
     version := 2; total_votes := 1;
     options := [{| id := "opt-pizza"; text := "Pizza"; votes := 1 |};
                 {| id := "opt-pasta"; text := "Pasta"; votes := 0 |}] |}.

(** The fingerprint of [browser] under the default salt. *)
Definition fingerprint : string := hash_ip default_settings (get_client_ip browser).

(** Sixteen browsers behind one address vote within sixteen seconds. *)
Definition voter_name (n : nat) : string :=
  "voter-" +:+ String (ascii_of_nat (97 + n)) EmptyString.

Definition burst : list Call :=
  List.map (fun n => vote (voter_name n) (Z.of_nat n)) (seq 1 16).

(** A vote for an option the poll does not have. *)
Definition vote_sushi (voter : string) (t : Z) : Call :=
  VotePoll "poll-1" "opt-sushi" browser (Some voter) "fresh-uuid" (t * 1000000).

(** voter-1's request for Pizza lost the race against [drop_pizza]. *)
Definition lost_race : App * Result VoteResponse :=
  vote_poll_among (racing 4 drop_pizza) default_settings
    "poll-1" "opt-pizza" browser (Some "voter-1") "fresh-uuid" 1000000 created.

(** A vote for Pasta by the browser holding the cookie [voter], at second [t]. *)
Definition vote_pasta (voter : string) (t : Z) : Call :=
  VotePoll "poll-1" "opt-pasta" browser (Some voter) "fresh-uuid" (t * 1000000).

(** A stream on the poll has sent the line for the poll's creation and is
    suspended in its second wait. *)
Definition watching : App :=
  fst (run default_settings init_app
         [create; OpenStream "poll-1"; RunStream 0 1000000; RunStream 0 1000001]).

(** A client that reaches the service without a proxy. *)
Definition direct : Request :=
  {| headers := []; client := Some {| host := "198.51.100.9"; port := 50000 |} |}.

(** The sixteen requests of [burst] among other calls: after each of them
    a client at another address votes for Pasta and the poll is read. *)
Definition crowd : list Call :=
  List.concat
    (List.map (fun n => [vote (voter_name n) (Z.of_nat n);
                         VotePoll "poll-1" "opt-pasta" direct None (voter_name n)
                                  (Z.of_nat n * 1000000 + 500);
                         GetPoll "poll-1"])
              (seq 1 16)).

(** voter-1 has sent fifteen requests at the instant the poll was made. *)
Definition aged : App :=
  fst (run default_settings init_app (create :: List.repeat (vote "voter-1" 0) 15)).

(** A request for Pasta 60.0005 seconds later. *)
Definition late : App * Result VoteResponse :=
  vote_poll default_settings "poll-1" "opt-pasta" browser (Some "voter-2") "fresh-uuid"
            60000500 aged.

End Scenario.

(** ** Vocabulary of the further properties *)

(** The ledger entries of a poll, and those for one option id of it. *)
Definition ledger_of (d : DB) (poll_id : string) : list Vote :=
  List.filter (fun v => String.eqb (v_poll_id v) poll_id) (db_votes d).

Definition ledger_of_option (d : DB) (poll_id option_id : string) : list Vote :=
  List.filter (fun v => String.eqb (v_poll_id v) poll_id && String.eqb (v_option_id v) option_id)
              (db_votes d).

(** The options of a poll that carry the id. *)
Definition options_with (option_id : string) (p : Poll) : list PollOption :=
  List.filter (fun o => String.eqb (id o) option_id) (options p).

(** What the unique index of [db.votes] is on. *)
Definition ledger_key (v : Vote) : string * string := (v_poll_id v, v_voter_id v).

(** What one call of a run does to the store. *)
Inductive StoreStep (cfg : Settings) (a a' : App) (c : Call) (r : Reply) : Prop :=
| store_vote pid oid req vid uuid now resp p :
    c = VotePoll pid oid req vid uuid now -> r = Voted (Return resp) ->
    db_polls (db a) !! pid = Some p -> Mongo.has_option oid p = true ->
    has_voted (db a) pid (resolve_voter_id vid uuid) = false ->
    db_polls (db a') = <[pid := Mongo.apply_vote oid now p]> (db_polls (db a)) ->
    db_votes (db a') = db_votes (db a) ++ [vote_of cfg pid oid req vid uuid now] ->
    db_vote_attempts (db a') = db_vote_attempts (db a) ++ [attempt_of cfg pid req now] ->
    StoreStep cfg a a' c r
| store_create payload tok otok now resp :
    c = CreatePoll payload tok otok now -> r = PollCreated (Return resp) ->
    db_polls (db a) !! tok = None ->
    db_polls (db a') = <[tok := new_poll payload otok now]> (db_polls (db a)) ->
    db_votes (db a') = db_votes (db a) ->
    db_vote_attempts (db a') = db_vote_attempts (db a) ->
    StoreStep cfg a a' c r
| store_attempt pid oid req vid uuid now e :
    c = VotePoll pid oid req vid uuid now -> r = Voted (Raise e) ->
    db_polls (db a') = db_polls (db a) ->
    db_votes (db a') = db_votes (db a) ->
    db_vote_attempts (db a') = db_vote_attempts (db a) ++ [attempt_of cfg pid req now] ->
    StoreStep cfg a a' c r
| store_same :
    db a' = db a -> (forall pid, accepted_on pid c r = false) ->
    StoreStep cfg a a' c r.

(** The ledger and the polls tell the same story. *)
Definition ledger_agrees (a : App) : Prop :=
  (forall v, v ∈ db_votes (db a) ->
     exists p, db_polls (db a) !! v_poll_id v = Some p /\
               Mongo.has_option (v_option_id v) p = true) /\
  (forall pid p, db_polls (db a) !! pid = Some p ->
     total_votes p = Z.of_nat (List.length (ledger_of (db a) pid)) /\
     forall oid, sum_votes (options_with oid p)
                 = Z.of_nat (List.length (ledger_of_option (db a) pid oid))).

(** An option, and a poll, after more votes: the same but for counters that
    have not gone down. *)
Definition option_grown (o o' : PollOption) : Prop :=
  id o' = id o /\ text o' = text o /\ votes o <= votes o'.

Definition poll_grown (p p' : Poll) : Prop :=
  question p' = question p /\ created_at p' = created_at p /\
  Forall2 option_grown (options p) (options p') /\
  total_votes p <= total_votes p' /\ version p <= version p'.

(** The attempt is one of the fingerprint on the poll. *)
Definition own_attempt (poll_id fp : string) (x : VoteAttempt) : bool :=
  String.eqb (a_poll_id x) poll_id && String.eqb (a_ip_hash x) fp.

(** ** Request bodies and settings read as text

    The texts of a request body follow the convention of the header values:
    characters are code points below 256. *)

(** The errors pydantic reports for these fields, by their type. *)
Inductive ValidationError :=
| string_too_short
| string_too_long
| value_error (msg : string).

Inductive Validated (A : Type) :=
| Valid (a : A)
| Invalid (e : ValidationError).
Arguments Valid {A} a.
Arguments Invalid {A} e.

(** [CreatePollRequest.validate_question] *)
Definition validate_question (value : string) : Validated string :=
  let text := PyStr.strip value in
  if PyStr.truthy text then Valid text
  else Invalid (value_error "question cannot be empty").

(** The field [question: str = Field(min_length=1, max_length=500)]: the
    length bounds, then the validator on the value as sent. *)
Definition question_field (value : string) : Validated string :=
  if (String.length value <? 1)%nat then Invalid string_too_short
  else if (500 <? String.length value)%nat then Invalid string_too_long
  else validate_question value.

(** [CreatePollRequest.validate_options] *)
Definition validate_options (value : list string) : Validated (list string) :=
  let cleaned :=
    List.map PyStr.strip (List.filter (fun item => PyStr.truthy (PyStr.strip item)) value) in
  if (List.length cleaned <? 2)%nat
  then Invalid (value_error "at least 2 non-empty options are required")
  else if (20 <? List.length cleaned)%nat
  then Invalid (value_error "maximum 20 options allowed")
  else Valid cleaned.

(** [CreatePollRequest(question=.., options=..)]: both fields are validated
    and the errors of both are reported. *)
Definition CreatePollRequest_new (question : string) (options : list string)
    : CreatePollRequest + list ValidationError :=
  match question_field question, validate_options options with
  | Valid q, Valid os => inl {| payload_question := q; payload_options := os |}
  | Invalid e, Valid _ => inr [e]
  | Valid _, Invalid e => inr [e]
  | Invalid e1, Invalid e2 => inr [e1; e2]
  end.

(** [allow_origins], from the text of CORS_ORIGINS. *)
Definition allow_origins (origins : string) : list string :=
  List.map PyStr.strip
    (List.filter (fun item => PyStr.truthy (PyStr.strip item)) (PyStr.split "," origins)).

(** [sep.join(l)] *)
Fixpoint join (sep : ascii) (l : list string) : string :=
  match l with
  | [] => EmptyString
  | [x] => x
  | x :: rest => x +:+ String sep (join sep rest)
  end.

(** A text with something in it and no white space around it. *)
Definition trimmed (t : string) : Prop := t <> "" /\ PyStr.no_space_at_ends t.

(** The body of the call, when it creates a poll, went through
    [CreatePollRequest]. *)
Definition validated (c : Call) : Prop :=
  match c with
  | CreatePoll payload _ _ _ =>
      exists question options, CreatePollRequest_new question options = inl payload
  | _ => True
  end.

(** What validation leaves of a poll's definition. *)
Definition well_formed_poll (p : Poll) : Prop :=
  trimmed (question p) /\ (String.length (question p) <= 500)%nat /\
  (2 <= List.length (options p) <= 20)%nat /\
  Forall (fun o => trimmed (text o) /\ 0 <= votes o) (options p).

(** One of 0-9 a-f. *)
Definition is_hex_digit (c : ascii) : bool :=
  let n := Z.of_N (N_of_ascii c) in
  ((48 <=? n) && (n <=? 57)) || ((97 <=? n) && (n <=? 102)).

(** ** Further concrete runs *)

Module Sample.

(** A browser without a cookie votes for Pizza and is given uuid-1; another
    one votes for Pasta; the first comes back with its cookie and asks for
    Pasta. *)
Definition first_vote : Call :=
  VotePoll "poll-1" "opt-pizza" Scenario.browser None "uuid-1" 1000000.

Definition second_vote : Call :=
  VotePoll "poll-1" "opt-pasta" Scenario.browser None "uuid-2" 2000000.

Definition comes_back : Call :=
  VotePoll "poll-1" "opt-pasta" Scenario.browser (Some "uuid-1") "uuid-3" 3000000.

Definition evening : list Call := [Scenario.create; first_vote; second_vote; comes_back].

Definition closed : App := fst (run default_settings init_app evening).

(** The answer to [first_vote]. *)
Definition first_answer : VoteResponse :=
  {| body := ("poll-1", Scenario.pizza_leads); set_cookie_voter_id := "uuid-1" |}.

(** The ledger entry of [first_vote]. *)
Definition pizza_vote : Vote :=
  {| v_poll_id := "poll-1"; v_option_id := "opt-pizza"; v_voter_id := "uuid-1";
     v_ip_hash := Scenario.fingerprint; v_created_at := 1000000 |}.

(** The poll document at the end of [evening]. *)
Definition tally : Poll :=
  {| question := "Pizza or Pasta?"; created_at := 0; updated_at := 2000000;
     version := 3; total_votes := 2;
     options := [{| id := "opt-pizza"; text := "Pizza"; votes := 1 |};
                 {| id := "opt-pasta"; text := "Pasta"; votes := 1 |}] |}.

(** A client that connects directly. *)
Definition elsewhere : Request :=
  {| headers := []; client := Some {| host := "198.51.100.9"; port := 443 |} |}.

(** The store of [closed] with attempts of another address and on another
    poll in the log. *)
Definition noisy : App :=
  set_db closed
    (set_vote_attempts (db closed)
       (attempt_of default_settings "poll-1" elsewhere 2500000
          :: db_vote_attempts (db closed)
          ++ [attempt_of default_settings "poll-2" Scenario.browser 2600000])).

(** RATE_LIMIT_MAX_ATTEMPTS=0, and RATE_LIMIT_WINDOW_SECONDS=-60. *)
Definition no_attempts : Settings :=
  {| IP_HASH_SALT := "change-me-in-production";
     RATE_LIMIT_WINDOW_SECONDS := 60;
     RATE_LIMIT_MAX_ATTEMPTS := 0 |}.

Definition window_ahead : Settings :=
  {| IP_HASH_SALT := "change-me-in-production";
     RATE_LIMIT_WINDOW_SECONDS := -60;
     RATE_LIMIT_MAX_ATTEMPTS := 0 |}.

(** Two streams on the poll, opened after its creation, neither run yet. *)
Definition two_streams : App :=
  fst (run default_settings init_app [Scenario.create; OpenStream "poll-1"; OpenStream "poll-1"]).

Definition at_wait : Stream :=
  {| stream_poll := "poll-1"; stream_pc := AtWait; emitted := [] |}.

Definition raised : Event := {| _value := true; _waiters := [] |}.

(** The stream of [Scenario.watching]. *)
Definition waiting : Stream :=
  {| stream_poll := "poll-1"; stream_pc := Suspended false; emitted := [1000000] |}.

(** A body of POST /polls as a client may send it. *)
Definition raw_question : string := "  Pizza or Pasta? ".
Definition raw_options : list string := [" Pizza"; "   "; "Pasta  "; ""].

(** The default of CORS_ORIGINS. *)
Definition CORS_ORIGINS : string :=
  "http://localhost:3000,http://127.0.0.1:3000,https://applyo-skite-internship-task.vercel.app".

End Sample.

(** * Properties *)

Lemma set_db_id a : set_db a (db a) = a.
Proof. by destruct a. Qed.

(** ** Datetimes in the store *)

Lemma millis_bson_datetime t : Mongo.millis (Mongo.bson_datetime t) = Mongo.millis t.
Proof. unfold Mongo.bson_datetime, Mongo.millis. by rewrite Z.div_mul. Qed.

Lemma bson_datetime_idem t : Mongo.bson_datetime (Mongo.bson_datetime t) = Mongo.bson_datetime t.
Proof. unfold Mongo.bson_datetime at 1. by rewrite millis_bson_datetime. Qed.

Lemma bson_datetime_le t : Mongo.bson_datetime t <= t < Mongo.bson_datetime t + 1000.
Proof.
  unfold Mongo.bson_datetime, Mongo.millis.
  pose proof (Z.div_mod t 1000 ltac:(lia)). pose proof (Z.mod_pos_bound t 1000 ltac:(lia)). lia.
Qed.

Lemma millis_mono t u : t <= u -> Mongo.millis t <= Mongo.millis u.
Proof. intros H. unfold Mongo.millis. apply Z.div_le_mono; lia. Qed.

Lemma millis_sub_seconds t n : Mongo.millis (t - n * 1000000) = Mongo.millis t - n * 1000.
Proof.
  unfold Mongo.millis. replace (t - n * 1000000) with (t + (- n * 1000) * 1000) by lia.
  rewrite Z.div_add by lia. lia.
Qed.

(** With a window of a day at most, either way, the window start of every
    request made between the years 2 and 9998 is a datetime. *)
Lemma window_start_defined_day cfg now :
  -86400 <= RATE_LIMIT_WINDOW_SECONDS cfg <= 86400 ->
  datetime_min + 86400000000 <= now <= datetime_max - 86400000000 ->
  window_start_defined cfg now = true.
Proof.
  intros HW Hnow.
  unfold window_start_defined, is_datetime, window_start, timedelta_seconds,
    datetime_min, datetime_max in *.
  rewrite !andb_true_iff, !Z.leb_le. lia.
Qed.

Lemma insert_attempt_eq cfg d pid req now :
  Mongo.insert_attempt d {| a_poll_id := pid; a_ip_hash := hash_ip cfg (get_client_ip req);
                            attempted_at := now |}
  = set_vote_attempts d (db_vote_attempts d ++ [attempt_of cfg pid req now]).
Proof. reflexivity. Qed.

Lemma vote_poll_eq cfg pid oid req vid uuid now a :
  vote_poll cfg pid oid req vid uuid now a =
  match Mongo.find_poll_option (db a) pid oid with
  | None =>
      match Mongo.find_poll (db a) pid with
      | None => (a, Raise NotFound)
      | Some _ => (a, Raise InvalidOption)
      end
  | Some p =>
      let att := attempt_of cfg pid req now in
      let v := vote_of cfg pid oid req vid uuid now in
      let d2 := set_vote_attempts (db a) (db_vote_attempts (db a) ++ [att]) in
      if attempts_seen cfg (db a) pid req now >? RATE_LIMIT_MAX_ATTEMPTS cfg
      then (set_db a d2, Raise RateLimited)
      else if existsb (Mongo.same_key v) (db_votes (db a))
      then (set_db a d2, Raise DuplicateVote)
      else
        let p' := Mongo.apply_vote oid now p in
        (notify_poll_change pid
           (set_db a {| db_polls := <[pid := p']> (db_polls (db a));
                        db_votes := db_votes (db a) ++ [v];
                        db_vote_attempts := db_vote_attempts (db a) ++ [att] |}),
         Return {| body := (pid, p'); set_cookie_voter_id := resolve_voter_id vid uuid |})
  end.
Proof.
  unfold vote_poll, vote_poll_among, alone.
  destruct (Mongo.find_poll_option (db a) pid oid) as [p|] eqn:Hf.
  - cbn zeta.
    change (Mongo.count_attempts _ _ _ _) with (attempts_seen cfg (db a) pid req now).
    change (Mongo.insert_attempt (db a) _)
      with (set_vote_attempts (db a) (db_vote_attempts (db a) ++ [attempt_of cfg pid req now])).
    destruct (_ >? _); [done|].
    unfold Mongo.insert_vote. cbn [db_votes set_vote_attempts].
    change (existsb (Mongo.same_key _) (db_votes (db a)))
      with (existsb (Mongo.same_key (vote_of cfg pid oid req vid uuid now)) (db_votes (db a))).
    destruct (existsb _ _); [done|].
    unfold Mongo.update_vote, Mongo.find_poll_option in *.
    cbn [db_polls set_votes Mongo.insert_attempt set_vote_attempts].
    destruct (db_polls (db a) !! pid) as [q|] eqn:Hq; [|done].
    destruct (Mongo.has_option oid q); [|done]. simplify_eq.
    cbn. unfold get_poll_or_404, Mongo.find_poll. cbn. rewrite lookup_insert_eq. done.
  - rewrite set_db_id. unfold NotFound, InvalidOption. by destruct (Mongo.find_poll _ _).
Qed.

(** ** The sequential handler, gate by gate *)

Lemma has_voted_same_key cfg pid oid req vid uuid now d :
  existsb (Mongo.same_key (vote_of cfg pid oid req vid uuid now)) (db_votes d)
  = has_voted d pid (resolve_voter_id vid uuid).
Proof.
  unfold has_voted. induction (db_votes d) as [|w l IH]; [done|].
  cbn [existsb]. rewrite IH. f_equal.
  unfold Mongo.same_key. cbn [v_poll_id v_voter_id vote_of].
  by rewrite (String.eqb_sym pid), (String.eqb_sym (resolve_voter_id vid uuid)).
Qed.

Lemma find_poll_option_None d pid oid :
  Mongo.find_poll_option d pid oid = None <->
  Mongo.find_poll d pid = None \/
  exists p, Mongo.find_poll d pid = Some p /\ Mongo.has_option oid p = false.
Proof.
  unfold Mongo.find_poll_option, Mongo.find_poll.
  destruct (db_polls d !! pid) as [p|]; [|by split; [left|]].
  destruct (Mongo.has_option oid p) eqn:E; split.
  - done.
  - intros [?|(q & [= <-] & ?)]; congruence.
  - intros _. right. by exists p.
  - done.
Qed.

Lemma find_poll_option_Some d pid oid p :
  Mongo.find_poll_option d pid oid = Some p <->
  db_polls d !! pid = Some p /\ Mongo.has_option oid p = true.
Proof.
  unfold Mongo.find_poll_option.
  destruct (db_polls d !! pid) as [q|]; [|by split; [|intros []]].
  destruct (Mongo.has_option oid q) eqn:E; split.
  - by intros [= <-].
  - by intros [[= <-] _].
  - done.
  - intros [[= <-] ?]. congruence.
Qed.

Lemma has_option_elem oid p :
  Mongo.has_option oid p = true <-> oid ∈ List.map id (options p).
Proof.
  unfold Mongo.has_option. rewrite existsb_exists, list_elem_of_In, in_map_iff.
  split; intros (o & H1 & H2).
  - apply String.eqb_eq in H2. eauto.
  - exists o. split; [done|]. by apply String.eqb_eq.
Qed.

(** A voter the ledger already holds is never admitted again: the request
    stops at the first gate it fails, the ledger gate at the latest. *)
Lemma recorded_voter_outcome cfg pid oid req vid uuid now a a' r :
  has_voted (db a) pid (resolve_voter_id vid uuid) = true ->
  vote_poll cfg pid oid req vid uuid now a = (a', r) ->
  db_polls (db a') = db_polls (db a) /\
  db_votes (db a') = db_votes (db a) /\
  poll_events a' = poll_events a /\
  (Mongo.find_poll (db a) pid = None -> r = Raise NotFound) /\
  (Mongo.find_poll (db a) pid <> None ->
   Mongo.find_poll_option (db a) pid oid = None -> r = Raise InvalidOption) /\
  (Mongo.find_poll_option (db a) pid oid <> None ->
   attempts_seen cfg (db a) pid req now > RATE_LIMIT_MAX_ATTEMPTS cfg ->
   r = Raise RateLimited) /\
  (Mongo.find_poll_option (db a) pid oid <> None ->
   attempts_seen cfg (db a) pid req now <= RATE_LIMIT_MAX_ATTEMPTS cfg ->
   r = Raise DuplicateVote).
Proof.
  intros Hv. rewrite vote_poll_eq.
  destruct (Mongo.find_poll_option (db a) pid oid) as [p|] eqn:Hf.
  - cbn zeta. rewrite has_voted_same_key, Hv.
    apply find_poll_option_Some in Hf as [Hp _].
    unfold Mongo.find_poll. rewrite Hp.
    destruct (Z.gtb_spec (attempts_seen cfg (db a) pid req now) (RATE_LIMIT_MAX_ATTEMPTS cfg)).
    all: intros [= <- <-]; repeat split; try done; intros; try done; lia.
  - destruct (Mongo.find_poll (db a) pid) eqn:Hp; intros [= <- <-];
      repeat split; try done; intros; congruence.
Qed.

(** ** The positional increment *)

Lemma inc_matched_spec oid opts :
  existsb (fun o => String.eqb (id o) oid) opts = true ->
  exists i o, opts !! i = Some o /\ id o = oid /\
    (forall j o', (j < i)%nat -> opts !! j = Some o' -> id o' <> oid) /\
    Mongo.inc_matched oid opts = <[i := with_votes o (votes o + 1)]> opts.
Proof.
  induction opts as [|x rest IH]; [done|].
  cbn [existsb Mongo.inc_matched]. destruct (String.eqb_spec (id x) oid) as [E|E].
  - intros _. exists 0%nat, x. split_and!; [done|done|intros; lia|done].
  - cbn [orb]. intros H. destruct (IH H) as (i & o & Hi & Ho & Hlt & Heq).
    exists (S i), o. split_and!; [done|done| |by cbn; rewrite Heq].
    intros [|j] o' Hj; cbn; [by intros [= <-]|]. intros. eapply Hlt; [|done]. lia.
Qed.

Lemma inc_matched_ids oid opts :
  List.map id (Mongo.inc_matched oid opts) = List.map id opts.
Proof.
  induction opts as [|x rest IH]; [done|]. cbn.
  destruct (String.eqb (id x) oid); cbn; [done|by rewrite IH].
Qed.

Lemma inc_matched_texts oid opts :
  List.map text (Mongo.inc_matched oid opts) = List.map text opts.
Proof.
  induction opts as [|x rest IH]; [done|]. cbn.
  destruct (String.eqb (id x) oid); cbn; [done|by rewrite IH].
Qed.

Lemma inc_matched_other oid opts i o o' :
  opts !! i = Some o -> Mongo.inc_matched oid opts !! i = Some o' ->
  id o <> oid -> votes o' = votes o.
Proof.
  revert i. induction opts as [|x rest IH]; [done|]. intros i. cbn [Mongo.inc_matched].
  destruct (String.eqb_spec (id x) oid) as [E|E].
  - destruct i as [|i]; cbn; [|congruence]. intros [= <-] _. congruence.
  - destruct i as [|i]; cbn; [congruence|]. apply IH.
Qed.

Lemma inc_matched_sum oid opts :
  existsb (fun o => String.eqb (id o) oid) opts = true ->
  sum_votes (Mongo.inc_matched oid opts) = sum_votes opts + 1.
Proof.
  induction opts as [|x rest IH]; [done|]. cbn [existsb Mongo.inc_matched].
  destruct (String.eqb (id x) oid); cbn; [lia|]. intros H. rewrite (IH H). lia.
Qed.

(** What an accepted vote did, read off the handler's equation. *)
Lemma accepted_vote_inv cfg pid oid req vid uuid now a a' resp :
  vote_poll cfg pid oid req vid uuid now a = (a', Return resp) ->
  exists p,
    db_polls (db a) !! pid = Some p /\ Mongo.has_option oid p = true /\
    attempts_seen cfg (db a) pid req now <= RATE_LIMIT_MAX_ATTEMPTS cfg /\
    has_voted (db a) pid (resolve_voter_id vid uuid) = false /\
    db_polls (db a') = <[pid := Mongo.apply_vote oid now p]> (db_polls (db a)) /\
    db_votes (db a') = db_votes (db a) ++ [vote_of cfg pid oid req vid uuid now] /\
    db_vote_attempts (db a') = db_vote_attempts (db a) ++ [attempt_of cfg pid req now] /\
    a' = notify_poll_change pid (set_db a (db a')) /\
    resp = {| body := (pid, Mongo.apply_vote oid now p);
              set_cookie_voter_id := resolve_voter_id vid uuid |}.
Proof.
  rewrite vote_poll_eq.
  destruct (Mongo.find_poll_option (db a) pid oid) as [p|] eqn:Hf;
    [|by destruct (Mongo.find_poll (db a) pid)].
  cbn zeta. rewrite has_voted_same_key.
  destruct (Z.gtb_spec (attempts_seen cfg (db a) pid req now) (RATE_LIMIT_MAX_ATTEMPTS cfg));
    [done|].
  destruct (has_voted (db a) pid (resolve_voter_id vid uuid)) eqn:Hv; [done|].
  intros [= <- <-]. apply find_poll_option_Some in Hf as [Hp Ho].
  exists p. repeat split; try done; try lia.
  all: unfold notify_poll_change, upsert_poll_event, event_set; cbn.
  all: destruct (poll_events a !! pid) as [ev|]; cbn; [destruct (_value ev)|]; try done.
Qed.

(** A rejected request leaves the polls and the ledger as they were. *)
Lemma rejected_vote_inv cfg pid oid req vid uuid now a a' e :
  vote_poll cfg pid oid req vid uuid now a = (a', Raise e) ->
  db_polls (db a') = db_polls (db a) /\ db_votes (db a') = db_votes (db a) /\
  poll_events a' = poll_events a /\ streams a' = streams a /\
  ((Mongo.find_poll_option (db a) pid oid = None /\ a' = a /\
    (e = NotFound \/ e = InvalidOption))
   \/ (Mongo.find_poll_option (db a) pid oid <> None /\
       db_vote_attempts (db a') = db_vote_attempts (db a) ++ [attempt_of cfg pid req now] /\
       (e = RateLimited \/ e = DuplicateVote))).
Proof.
  rewrite vote_poll_eq.
  destruct (Mongo.find_poll_option (db a) pid oid) as [p|] eqn:Hf.
  - cbn zeta. destruct (_ >? _); [|destruct (existsb _ _)]; intros [= <- <-];
      repeat split; try done; right; repeat split; auto.
  - destruct (Mongo.find_poll (db a) pid); intros [= <- <-];
      repeat split; try done; left; auto.
Qed.

(** ** Poll creation *)

Lemma sum_votes_imap_zero (f : nat -> string -> PollOption) (l : list string) :
  (forall i x, votes (f i x) = 0) -> sum_votes (imap f l) = 0.
Proof.
  revert f. induction l as [|x l IH]; intros f Hf; [done|].
  cbn. rewrite Hf, IH; [done|]. intros. apply Hf.
Qed.

Lemma Forall_imap_zero (f : nat -> string -> PollOption) (l : list string) :
  (forall i x, votes (f i x) = 0) -> Forall (fun o => votes o = 0) (imap f l).
Proof.
  revert f. induction l as [|x l IH]; intros f Hf; [constructor|].
  cbn. constructor; [apply Hf|]. apply IH. intros. apply Hf.
Qed.

Lemma new_poll_zero payload otok now :
  version (new_poll payload otok now) = 1 /\
  total_votes (new_poll payload otok now) = 0 /\
  Forall (fun o => votes o = 0) (options (new_poll payload otok now)) /\
  sum_votes (options (new_poll payload otok now)) = 0.
Proof.
  split_and!; [done|done| |]; cbn.
  - by apply Forall_imap_zero.
  - by apply sum_votes_imap_zero.
Qed.

Lemma create_poll_eq payload tok otok now a :
  create_poll payload tok otok now a =
  match db_polls (db a) !! tok with
  | Some _ => (a, Raise DuplicateKeyError)
  | None =>
      (notify_poll_change tok
         (set_db a (set_polls (db a) (<[tok := new_poll payload otok now]> (db_polls (db a))))),
       Return {| created := (tok, new_poll payload otok now);
                 share_path := "/?poll=" +:+ tok |})
  end.
Proof.
  unfold create_poll, Mongo.insert_poll. fold (new_poll payload otok now).
  by destruct (db_polls (db a) !! tok).
Qed.

Lemma notify_poll_change_db pid a : db (notify_poll_change pid a) = db a.
Proof.
  unfold notify_poll_change, upsert_poll_event, event_set.
  destruct (poll_events a !! pid) as [ev|]; cbn; [by destruct (_value ev)|done].
Qed.

Lemma created_poll_inv payload tok otok now a a' resp :
  create_poll payload tok otok now a = (a', Return resp) ->
  db_polls (db a) !! tok = None /\
  db_polls (db a') = <[tok := new_poll payload otok now]> (db_polls (db a)) /\
  db_votes (db a') = db_votes (db a) /\
  db_vote_attempts (db a') = db_vote_attempts (db a) /\
  created resp = (tok, new_poll payload otok now).
Proof.
  rewrite create_poll_eq. destruct (db_polls (db a) !! tok) eqn:E; [done|].
  intros [= <- <-]. rewrite notify_poll_change_db. by destruct a.
Qed.

Lemma failed_create_inv payload tok otok now a a' e :
  create_poll payload tok otok now a = (a', Raise e) -> a' = a.
Proof.
  rewrite create_poll_eq. destruct (db_polls (db a) !! tok); [|done]. by intros [= <- <-].
Qed.

(** ** One call of a run, seen from the polls collection *)

Lemma event_generator_db sid now a : db (fst (event_generator sid now a)) = db a.
Proof.
  unfold event_generator. destruct (streams a !! sid) as [s|]; [|done].
  destruct (poll_events a !! stream_poll s) as [ev|]; [|done].
  destruct (stream_pc s) as [|[]]; [destruct (_value ev)| |]; done.
Qed.

Lemma poll_events_stream_db pid a : db (fst (poll_events_stream pid a)) = db a.
Proof.
  unfold poll_events_stream, upsert_poll_event.
  by destruct (poll_events a !! pid).
Qed.

Lemma handle_polls cfg a c a' r : handle cfg a c = (a', r) -> PollsStep a a' c r.
Proof.
  destruct c as [payload tok otok now|pid|pid oid req vid uuid now|pid|sid now]; cbn.
  - destruct (create_poll payload tok otok now a) as [a1 [resp|e]] eqn:E; intros [= <- <-].
    + apply created_poll_inv in E as (? & ? & _). by eapply step_create.
    + apply failed_create_inv in E as ->. by apply step_same.
  - intros [= <- <-]. by apply step_same.
  - destruct (vote_poll cfg pid oid req vid uuid now a) as [a1 [resp|e]] eqn:E; intros [= <- <-].
    + apply accepted_vote_inv in E as (p & ? & ? & _ & _ & ? & _). by eapply step_vote.
    + apply rejected_vote_inv in E as (? & _). by apply step_same.
  - pose proof (poll_events_stream_db pid a) as H.
    destruct (poll_events_stream pid a) as [a1 n]. intros [= <- <-].
    apply step_same; [by cbn in H; rewrite H|done].
  - pose proof (event_generator_db sid now a) as H.
    destruct (event_generator sid now a) as [a1 b]. intros [= <- <-].
    apply step_same; [by cbn in H; rewrite H|done].
Qed.

Lemma run_cons cfg a c cs :
  run cfg a (c :: cs) =
  (fst (run cfg (fst (handle cfg a c)) cs),
   snd (handle cfg a c) :: snd (run cfg (fst (handle cfg a c)) cs)).
Proof.
  cbn [run]. destruct (handle cfg a c) as [a1 r]. cbn.
  by destruct (run cfg a1 cs).
Qed.

Lemma run_app cfg a cs1 cs2 :
  run cfg a (cs1 ++ cs2) =
  (fst (run cfg (fst (run cfg a cs1)) cs2),
   snd (run cfg a cs1) ++ snd (run cfg (fst (run cfg a cs1)) cs2)).
Proof.
  revert a. induction cs1 as [|c cs1 IH]; intros a.
  - cbn. by destruct (run cfg a cs2).
  - rewrite <- app_comm_cons, !run_cons, IH. done.
Qed.

(** ** total_votes is the sum of the counters *)

Lemma handle_consistent cfg a c :
  consistent a -> consistent (fst (handle cfg a c)).
Proof.
  intros Ha. destruct (handle cfg a c) as [a' r] eqn:E. cbn.
  destruct (handle_polls _ _ _ _ _ E) as
    [pid oid req vid uuid now resp p _ _ Hp Ho Hd|payload tok otok now resp _ _ Hn Hd|Hd _];
    intros q pq; rewrite Hd.
  - destruct (decide (pid = q)) as [->|Hne].
    + rewrite lookup_insert_eq. intros [= <-]. cbn.
      rewrite inc_matched_sum by done. by rewrite (Ha _ _ Hp).
    + rewrite lookup_insert_ne by done. apply Ha.
  - destruct (decide (tok = q)) as [->|Hne].
    + rewrite lookup_insert_eq. intros [= <-].
      destruct (new_poll_zero payload otok now) as (_ & -> & _ & ->). done.
    + rewrite lookup_insert_ne by done. apply Ha.
  - apply Ha.
Qed.

Lemma run_consistent cfg cs a : consistent a -> consistent (fst (run cfg a cs)).
Proof.
  revert a. induction cs as [|c cs IH]; intros a Ha; [done|].
  rewrite run_cons. cbn. apply IH. by apply handle_consistent.
Qed.

Lemma reachable_consistent cfg a : reachable cfg a -> consistent a.
Proof.
  intros [cs <-]. apply run_consistent. intros pid p.
  change (db_polls (db init_app)) with (∅ : gmap string Poll). by rewrite lookup_empty.
Qed.

(** ** The version counts the accepted votes *)

Lemma run_version_from cfg cs : forall a pid p,
  db_polls (db a) !! pid = Some p ->
  exists p', db_polls (db (fst (run cfg a cs))) !! pid = Some p' /\
    version p' = version p + accepted_votes pid cs (snd (run cfg a cs)).
Proof.
  induction cs as [|c cs IH]; intros a pid p Hp.
  - exists p. split; [done|]. cbn. lia.
  - rewrite run_cons. cbn [fst snd accepted_votes].
    destruct (handle cfg a c) as [a1 r] eqn:E. cbn [fst snd].
    destruct (handle_polls _ _ _ _ _ E) as
      [pid' oid req vid uuid now resp p0 -> -> Hp0 Ho Hd|payload tok otok now resp -> -> Hn Hd|Hd Hacc].
    + cbn [accepted_on]. destruct (String.eqb_spec pid' pid) as [->|Hne].
      * assert (p0 = p) as -> by congruence.
        destruct (IH a1 pid (Mongo.apply_vote oid now p)) as (p' & Hp' & Hv).
        { by rewrite Hd, lookup_insert_eq. }
        exists p'. split; [done|]. rewrite Hv. cbn. lia.
      * destruct (IH a1 pid p) as (p' & Hp' & Hv).
        { by rewrite Hd, lookup_insert_ne. }
        exists p'. split; [done|]. rewrite Hv. lia.
    + cbn [accepted_on].
      destruct (IH a1 pid p) as (p' & Hp' & Hv).
      { rewrite Hd, lookup_insert_ne; [done|]. congruence. }
      exists p'. split; [done|]. rewrite Hv. lia.
    + rewrite Hacc. destruct (IH a1 pid p) as (p' & Hp' & Hv); [by rewrite Hd|].
      exists p'. split; [done|]. rewrite Hv. lia.
Qed.

Lemma accepted_votes_nonneg pid cs rs : 0 <= accepted_votes pid cs rs.
Proof.
  revert rs. induction cs as [|c cs IH]; intros [|r rs]; cbn; try lia.
  specialize (IH rs). destruct (accepted_on pid c r); lia.
Qed.

Lemma run_version_new cfg cs : forall a pid p',
  db_polls (db a) !! pid = None ->
  db_polls (db (fst (run cfg a cs))) !! pid = Some p' ->
  version p' = 1 + accepted_votes pid cs (snd (run cfg a cs)).
Proof.
  induction cs as [|c cs IH]; intros a pid p' Hn Hp'.
  - cbn in Hp'. congruence.
  - revert Hp'. rewrite run_cons. cbn [fst snd accepted_votes].
    destruct (handle cfg a c) as [a1 r] eqn:E. cbn [fst snd].
    destruct (handle_polls _ _ _ _ _ E) as
      [pid' oid req vid uuid now resp p0 -> -> Hp0 Ho Hd|payload tok otok now resp -> -> Hn' Hd|Hd Hacc];
      intros Hp'.
    + cbn [accepted_on]. destruct (String.eqb_spec pid' pid) as [->|Hne]; [congruence|].
      rewrite (IH a1 pid p'); [lia| |done]. by rewrite Hd, lookup_insert_ne.
    + cbn [accepted_on]. destruct (decide (tok = pid)) as [->|Hne].
      * destruct (run_version_from cfg cs a1 pid (new_poll payload otok now)) as (q & Hq & Hv).
        { by rewrite Hd, lookup_insert_eq. }
        assert (q = p') as -> by congruence. rewrite Hv. cbn. lia.
      * rewrite (IH a1 pid p'); [lia| |done]. by rewrite Hd, lookup_insert_ne.
    + rewrite Hacc. rewrite (IH a1 pid p'); [lia| |done]. by rewrite Hd.
Qed.

Lemma accepted_votes_app pid cs1 cs2 rs1 rs2 :
  List.length cs1 = List.length rs1 ->
  accepted_votes pid (cs1 ++ cs2) (rs1 ++ rs2)
  = accepted_votes pid cs1 rs1 + accepted_votes pid cs2 rs2.
Proof.
  revert rs1. induction cs1 as [|c cs1 IH]; intros [|r rs1] Hlen; try done.
  cbn. rewrite IH by (cbn in Hlen; lia). lia.
Qed.

Lemma run_replies_length cfg cs : forall a, List.length cs = List.length (snd (run cfg a cs)).
Proof.
  induction cs as [|c cs IH]; intros a; [done|].
  rewrite run_cons. cbn. by rewrite <- IH.
Qed.

Lemma run_reply_at cfg cs : forall a k c r,
  cs !! k = Some c -> snd (run cfg a cs) !! k = Some r ->
  r = snd (handle cfg (fst (run cfg a (take k cs))) c).
Proof.
  induction cs as [|c0 cs IH]; intros a k c r Hc; [done|].
  rewrite run_cons. destruct k as [|k]; cbn in *.
  - intros [= <-]. congruence.
  - intros Hr. destruct (handle cfg a c0) as [a1 r0]. cbn in *.
    rewrite (IH a1 k c r Hc Hr). by destruct (run cfg a1 (take k cs)).
Qed.

(** The accepted votes among the first [k] calls of a run. *)
Lemma accepted_prefix_grows cfg pid cs a i j c :
  (i < j)%nat -> cs !! i = Some c ->
  accepted_on pid c (snd (handle cfg (fst (run cfg a (take i cs))) c)) = true ->
  accepted_votes pid (take i cs) (snd (run cfg a (take i cs))) + 1
  <= accepted_votes pid (take j cs) (snd (run cfg a (take j cs))).
Proof.
  intros Hij Hc Hacc.
  assert (Hsplit : take j cs = take i cs ++ c :: drop (S i) (take j cs)).
  { rewrite <- (take_drop_middle (take j cs) i c) at 1.
    - by rewrite take_take, Nat.min_l by lia.
    - by rewrite lookup_take_lt. }
  rewrite Hsplit at 1 2. rewrite run_app. cbn [fst snd].
  rewrite accepted_votes_app by apply run_replies_length.
  rewrite run_cons. cbn [snd accepted_votes]. rewrite Hacc.
  pose proof (accepted_votes_nonneg pid (drop (S i) (take j cs))
    (snd (run cfg (fst (handle cfg (fst (run cfg a (take i cs))) c))
            (drop (S i) (take j cs))))).
  lia.
Qed.

(** The version in the snapshot an accepted vote returns. *)
Lemma accepted_snapshot_version cfg cs k pid oid req vid uuid now resp :
  cs !! k = Some (VotePoll pid oid req vid uuid now) ->
  snd (run cfg init_app cs) !! k = Some (Voted (Return resp)) ->
  fst (body resp) = pid /\
  version (snd (body resp))
  = 2 + accepted_votes pid (take k cs) (snd (run cfg init_app (take k cs))).
Proof.
  intros Hc Hr. pose proof (run_reply_at _ _ _ _ _ _ Hc Hr) as E. cbn [handle] in E.
  destruct (vote_poll cfg pid oid req vid uuid now (fst (run cfg init_app (take k cs))))
    as [a' r] eqn:Ev. cbn in E. injection E as <-.
  apply accepted_vote_inv in Ev as (p & Hp & _ & _ & _ & _ & _ & _ & _ & ->).
  split; [done|]. cbn [body snd Mongo.apply_vote version].
  rewrite (run_version_new cfg (take k cs) init_app pid p); [lia| |done].
  change (db_polls (db init_app)) with (∅ : gmap string Poll). apply lookup_empty.
Qed.

(** ** The attempt log and the rate gate *)

(** The millisecond the store keeps is the one the count compares. *)
Lemma in_window_stored pid fp ws x :
  Mongo.in_window pid fp ws
    {| a_poll_id := a_poll_id x; a_ip_hash := a_ip_hash x;
       attempted_at := Mongo.bson_datetime (attempted_at x) |}
  = Mongo.in_window pid fp ws x.
Proof.
  unfold Mongo.in_window. cbn [a_poll_id a_ip_hash attempted_at].
  by rewrite millis_bson_datetime.
Qed.

Lemma count_attempts_snoc d att pid fp ws :
  Mongo.count_attempts (set_vote_attempts d (db_vote_attempts d ++ [att])) pid fp ws
  = Mongo.count_attempts d pid fp ws + (if Mongo.in_window pid fp ws att then 1 else 0).
Proof.
  unfold Mongo.count_attempts. cbn [db_vote_attempts set_vote_attempts].
  rewrite List.filter_app, List.length_app. cbn [List.filter].
  destruct (Mongo.in_window pid fp ws att); cbn [List.length]; lia.
Qed.

Lemma count_attempts_insert d att pid fp ws :
  Mongo.count_attempts (Mongo.insert_attempt d att) pid fp ws
  = Mongo.count_attempts d pid fp ws + (if Mongo.in_window pid fp ws att then 1 else 0).
Proof.
  unfold Mongo.insert_attempt. by rewrite count_attempts_snoc, in_window_stored.
Qed.

Lemma count_attempts_log d d' pid fp ws :
  db_vote_attempts d' = db_vote_attempts d ->
  Mongo.count_attempts d' pid fp ws = Mongo.count_attempts d pid fp ws.
Proof. unfold Mongo.count_attempts. by intros ->. Qed.

Lemma count_attempts_append d d' att pid fp ws :
  db_vote_attempts d' = db_vote_attempts d ++ [att] ->
  Mongo.count_attempts d' pid fp ws
  = Mongo.count_attempts d pid fp ws + (if Mongo.in_window pid fp ws att then 1 else 0).
Proof.
  intros H. rewrite <- count_attempts_snoc. by apply count_attempts_log.
Qed.

Lemma in_window_attempt cfg pid req now ws :
  Mongo.in_window pid (hash_ip cfg (get_client_ip req)) ws (attempt_of cfg pid req now)
  = (Mongo.millis ws <=? Mongo.millis now).
Proof.
  unfold Mongo.in_window. cbn [attempt_of a_poll_id a_ip_hash attempted_at].
  by rewrite !String.eqb_refl, millis_bson_datetime.
Qed.

Lemma attempts_seen_eq cfg d pid req now :
  attempts_seen cfg d pid req now
  = Mongo.count_attempts d pid (hash_ip cfg (get_client_ip req)) (window_start cfg now)
    + (if 0 <=? RATE_LIMIT_WINDOW_SECONDS cfg then 1 else 0).
Proof.
  unfold attempts_seen. rewrite insert_attempt_eq, count_attempts_snoc, in_window_attempt.
  f_equal. unfold window_start, timedelta_seconds. rewrite millis_sub_seconds.
  destruct (Z.leb_spec 0 (RATE_LIMIT_WINDOW_SECONDS cfg)),
    (Z.leb_spec (Mongo.millis now - RATE_LIMIT_WINDOW_SECONDS cfg * 1000) (Mongo.millis now)); lia.
Qed.

(** The outcome and the log of a request that reached the rate gate. *)
Lemma validated_vote_inv cfg pid oid req vid uuid now a a' r :
  vote_poll cfg pid oid req vid uuid now a = (a', r) ->
  Mongo.find_poll_option (db a) pid oid <> None ->
  db_vote_attempts (db a') = db_vote_attempts (db a) ++ [attempt_of cfg pid req now] /\
  (r = Raise RateLimited <->
   attempts_seen cfg (db a) pid req now > RATE_LIMIT_MAX_ATTEMPTS cfg) /\
  (r = Raise RateLimited \/ r = Raise DuplicateVote \/ exists resp, r = Return resp) /\
  ((forall resp, r <> Return resp) ->
     db_votes (db a') = db_votes (db a) /\ db_polls (db a') = db_polls (db a)).
Proof.
  rewrite vote_poll_eq.
  destruct (Mongo.find_poll_option (db a) pid oid) as [p|] eqn:Hf; [|done]. intros E _.
  cbn zeta in E.
  destruct (Z.gtb_spec (attempts_seen cfg (db a) pid req now) (RATE_LIMIT_MAX_ATTEMPTS cfg)).
  - injection E as <- <-. split_and!; auto. split; [lia|done].
  - destruct (existsb _ _); injection E as <- <-.
    + split_and!; auto. split; [done|lia].
    + rewrite notify_poll_change_db. split_and!; eauto.
      * split; [done|lia].
      * intros Hr. by destruct (Hr _ eq_refl).
Qed.

Lemma unvalidated_vote_inv cfg pid oid req vid uuid now a a' r :
  vote_poll cfg pid oid req vid uuid now a = (a', r) ->
  Mongo.find_poll_option (db a) pid oid = None ->
  a' = a /\ (r = Raise NotFound \/ r = Raise InvalidOption).
Proof.
  rewrite vote_poll_eq. intros E Hf. rewrite Hf in E.
  destruct (Mongo.find_poll (db a) pid); injection E as <- <-; auto.
Qed.

(** The options a poll has are the same after any call. *)
Lemma apply_vote_has_option oid' oid now p :
  Mongo.has_option oid' (Mongo.apply_vote oid now p) = Mongo.has_option oid' p.
Proof.
  unfold Mongo.has_option. cbn [options Mongo.apply_vote].
  induction (options p) as [|x rest IH]; [done|]. cbn [Mongo.inc_matched].
  destruct (String.eqb (id x) oid); cbn; [done|]. by rewrite IH.
Qed.

Lemma handle_keeps_option cfg a c pid oid :
  Mongo.find_poll_option (db a) pid oid <> None ->
  Mongo.find_poll_option (db (fst (handle cfg a c))) pid oid <> None.
Proof.
  destruct (Mongo.find_poll_option (db a) pid oid) as [p|] eqn:Hf; [|done]. intros _.
  apply find_poll_option_Some in Hf as [Hp Ho].
  destruct (handle cfg a c) as [a' r] eqn:E. cbn [fst].
  unfold Mongo.find_poll_option.
  destruct (handle_polls _ _ _ _ _ E) as
    [pid' oid' req vid uuid now resp p0 _ _ Hp0 Ho' Hd|payload tok otok now resp _ _ Hn Hd|Hd _];
    rewrite Hd.
  - destruct (decide (pid' = pid)) as [->|Hne].
    + rewrite lookup_insert_eq, apply_vote_has_option.
      assert (p0 = p) as -> by congruence. by rewrite Ho.
    + rewrite lookup_insert_ne by done. by rewrite Hp, Ho.
  - rewrite lookup_insert_ne by congruence. by rewrite Hp, Ho.
  - by rewrite Hp, Ho.
Qed.

Lemma vote_from_inv cfg pid fp d c :
  vote_from cfg pid fp d c = true ->
  exists oid req vid uuid now,
    c = VotePoll pid oid req vid uuid now /\ hash_ip cfg (get_client_ip req) = fp /\
    Mongo.find_poll_option d pid oid <> None.
Proof.
  destruct c as [| |pid' oid req vid uuid now| |]; try done. cbn.
  intros H. apply andb_prop in H as [H H3]. apply andb_prop in H as [H1 H2].
  apply String.eqb_eq in H1 as ->. apply String.eqb_eq in H2.
  exists oid, req, vid, uuid, now. split_and!; [done|done|].
  by destruct (Mongo.find_poll_option d pid oid).
Qed.

Lemma vote_from_step cfg pid fp a c0 c :
  vote_from cfg pid fp (db a) c = true ->
  vote_from cfg pid fp (db (fst (handle cfg a c0))) c = true.
Proof.
  intros H. destruct (vote_from_inv _ _ _ _ _ H) as (oid & req & vid & uuid & now & -> & Hfp & Hf).
  cbn [vote_from] in *. apply (handle_keeps_option cfg a c0) in Hf.
  rewrite Hfp, !String.eqb_refl.
  by destruct (Mongo.find_poll_option (db (fst (handle cfg a c0))) pid oid).
Qed.

(** Each validated request of the fingerprint adds one entry, and it falls
    in every window that starts no later than the request. *)
Lemma handle_vote_from_count cfg pid fp a c t :
  vote_from cfg pid fp (db a) c = true -> t <= call_time c ->
  Mongo.count_attempts (db (fst (handle cfg a c))) pid fp t
  = Mongo.count_attempts (db a) pid fp t + 1.
Proof.
  intros H Ht. destruct (vote_from_inv _ _ _ _ _ H) as (oid & req & vid & uuid & now & -> & Hfp & Hf).
  cbn [handle call_time] in *.
  destruct (vote_poll cfg pid oid req vid uuid now a) as [a' r] eqn:E. cbn [fst].
  destruct (validated_vote_inv _ _ _ _ _ _ _ _ _ _ E Hf) as (Hlog & _).
  rewrite (count_attempts_append _ _ _ _ _ _ Hlog). subst fp.
  rewrite in_window_attempt. pose proof (millis_mono t now Ht).
  destruct (Z.leb_spec (Mongo.millis t) (Mongo.millis now)); lia.
Qed.

Lemma run_vote_from_count cfg pid fp t cs : forall a,
  forallb (vote_from cfg pid fp (db a)) cs = true ->
  forallb (fun c => t <=? call_time c) cs = true ->
  Mongo.count_attempts (db (fst (run cfg a cs))) pid fp t
  = Mongo.count_attempts (db a) pid fp t + Z.of_nat (List.length cs).
Proof.
  induction cs as [|c cs IH]; intros a Hv Ht; [cbn; lia|].
  cbn [forallb] in Hv, Ht. apply andb_prop in Hv as [Hc Hv]. apply andb_prop in Ht as [Htc Ht].
  rewrite run_cons. cbn [fst]. rewrite IH; [| |done].
  - rewrite (handle_vote_from_count cfg pid fp a c t Hc) by lia. cbn [List.length]. lia.
  - rewrite forallb_forall in *. intros x Hx. apply vote_from_step. by apply Hv.
Qed.

Lemma run_keeps_vote_from cfg pid fp cs : forall a c,
  vote_from cfg pid fp (db a) c = true ->
  vote_from cfg pid fp (db (fst (run cfg a cs))) c = true.
Proof.
  induction cs as [|c0 cs IH]; intros a c H; [done|].
  rewrite run_cons. cbn [fst]. apply IH. by apply vote_from_step.
Qed.

Lemma In_take {A} (x : A) n l : In x (take n l) -> In x l.
Proof. rewrite <- !list_elem_of_In. apply subseteq_take. Qed.

(** The requests of the fingerprint on the poll, among whatever other calls
    the service handles. *)
Lemma request_from_inv cfg pid fp c :
  request_from cfg pid fp c = true ->
  exists oid req vid uuid now,
    c = VotePoll pid oid req vid uuid now /\ hash_ip cfg (get_client_ip req) = fp.
Proof.
  destruct c as [| |pid' oid req vid uuid now| |]; try done. cbn.
  intros H. apply andb_prop in H as [H1 H2].
  apply String.eqb_eq in H1 as ->. apply String.eqb_eq in H2.
  by exists oid, req, vid, uuid, now.
Qed.

Lemma vote_from_request_from cfg pid fp d c :
  vote_from cfg pid fp d c = true -> request_from cfg pid fp c = true.
Proof.
  destruct c as [| |pid' oid req vid uuid now| |]; try done. cbn.
  intros H. by apply andb_prop in H as [H _].
Qed.

Lemma in_window_other cfg pid fp t pid' req now :
  Mongo.in_window pid fp t (attempt_of cfg pid' req now)
  = request_from cfg pid fp (VotePoll pid' "" req None "" now)
    && (Mongo.millis t <=? Mongo.millis now).
Proof.
  unfold Mongo.in_window. cbn [attempt_of a_poll_id a_ip_hash attempted_at request_from].
  by rewrite millis_bson_datetime.
Qed.

(** What one call adds to the count of the fingerprint on the poll. *)
Lemma handle_request_count cfg pid fp a c t :
  (request_from cfg pid fp c = true -> vote_from cfg pid fp (db a) c = true) ->
  Mongo.count_attempts (db (fst (handle cfg a c))) pid fp t
  = Mongo.count_attempts (db a) pid fp t
    + (if request_from cfg pid fp c && (Mongo.millis t <=? Mongo.millis (call_time c))
       then 1 else 0).
Proof.
  intros Hv.
  destruct c as [payload tok otok now|q|pid' oid req vid uuid now|q|sid now];
    cbn [handle request_from call_time andb].
  - destruct (create_poll payload tok otok now a) as [a1 [resp|e]] eqn:E; cbn [fst].
    + apply created_poll_inv in E as (_ & _ & _ & Hl & _).
      rewrite (count_attempts_log _ _ _ _ _ Hl). lia.
    + apply failed_create_inv in E as ->. lia.
  - cbn [fst]. lia.
  - destruct (vote_poll cfg pid' oid req vid uuid now a) as [a' r] eqn:E. cbn [fst].
    destruct (Mongo.find_poll_option (db a) pid' oid) as [p|] eqn:Hf.
    + assert (Hf' : Mongo.find_poll_option (db a) pid' oid <> None) by by rewrite Hf.
      destruct (validated_vote_inv _ _ _ _ _ _ _ _ _ _ E Hf') as (Hlog & _).
      rewrite (count_attempts_append _ _ _ _ _ _ Hlog), in_window_other. done.
    + destruct (unvalidated_vote_inv _ _ _ _ _ _ _ _ _ _ E Hf) as [-> _].
      destruct (String.eqb pid' pid && String.eqb (hash_ip cfg (get_client_ip req)) fp)
        eqn:Hr; cbn [andb]; [|lia].
      specialize (Hv Hr). cbn [vote_from] in Hv.
      apply andb_prop in Hv as [Hv Ho]. apply andb_prop in Hv as [Hp _].
      apply String.eqb_eq in Hp as ->. by rewrite Hf in Ho.
  - pose proof (poll_events_stream_db q a) as H.
    destruct (poll_events_stream q a) as [a1 n]. cbn [fst] in *. rewrite H. lia.
  - pose proof (event_generator_db sid now a) as H.
    destruct (event_generator sid now a) as [a1 b]. cbn [fst] in *. rewrite H. lia.
Qed.

Lemma run_request_count cfg pid fp t cs : forall a,
  forallb (vote_from cfg pid fp (db a)) (requests_from cfg pid fp cs) = true ->
  Mongo.count_attempts (db (fst (run cfg a cs))) pid fp t
  = Mongo.count_attempts (db a) pid fp t
    + Z.of_nat (List.length
        (List.filter (fun c => request_from cfg pid fp c
                               && (Mongo.millis t <=? Mongo.millis (call_time c))) cs)).
Proof.
  induction cs as [|c cs IH]; intros a Hv; [cbn; lia|].
  rewrite run_cons. cbn [fst]. unfold requests_from in *. cbn [List.filter] in *.
  rewrite IH.
  - rewrite (handle_request_count cfg pid fp a c t).
    + destruct (request_from cfg pid fp c && _); cbn [List.length]; lia.
    + intros Hc. rewrite Hc in Hv. cbn [forallb] in Hv. by apply andb_prop in Hv as [Hv _].
  - assert (Hrest : forallb (vote_from cfg pid fp (db a))
                      (List.filter (request_from cfg pid fp) cs) = true).
    { destruct (request_from cfg pid fp c); [|done].
      cbn [forallb] in Hv. by apply andb_prop in Hv as [_ Hv]. }
    rewrite forallb_forall in *. intros x Hx. apply vote_from_step. by apply Hrest.
Qed.

Lemma requests_from_take cfg pid fp i cs x :
  In x (requests_from cfg pid fp (take i cs)) -> In x (requests_from cfg pid fp cs).
Proof.
  unfold requests_from. rewrite !filter_In. intros [H1 H2]. split; [|done]. by eapply In_take.
Qed.

(** In a run of any calls, the requests of one fingerprint for options of
    one poll, all inside one window and with nothing earlier in the log: the
    one that has n of them before it sees n+1 attempts. *)
Lemma burst_reply_among cfg pid fp a cs i c :
  forallb (vote_from cfg pid fp (db a)) (requests_from cfg pid fp cs) = true ->
  inside_window cfg (requests_from cfg pid fp cs) = true ->
  no_earlier_attempts cfg pid fp (db a) (requests_from cfg pid fp cs) = true ->
  cs !! i = Some c -> request_from cfg pid fp c = true ->
  exists r, snd (run cfg a cs) !! i = Some r /\
    (r = Voted (Raise RateLimited) <->
     RATE_LIMIT_MAX_ATTEMPTS cfg
     < Z.of_nat (List.length (requests_from cfg pid fp (take i cs))) + 1) /\
    (r <> Voted (Raise RateLimited) -> passed_rate_gate r).
Proof.
  intros Hv Hw Hn Hc Hreq.
  assert (is_Some (snd (run cfg a cs) !! i)) as [r Hr].
  { apply lookup_lt_is_Some. rewrite <- run_replies_length. by eapply lookup_lt_Some. }
  exists r. split; [done|].
  rewrite (run_reply_at _ _ _ _ _ _ Hc Hr). clear Hr r.
  unfold inside_window, no_earlier_attempts in *. rewrite forallb_forall in Hv, Hw, Hn.
  assert (Hin : In c (requests_from cfg pid fp cs)).
  { apply filter_In. split; [|done]. apply list_elem_of_In. by eapply list_elem_of_lookup_2. }
  pose proof (Hv c Hin) as Hvc. pose proof (Hn c Hin) as Hnc.
  pose proof (Hw c Hin) as Hwc. rewrite forallb_forall in Hwc.
  set (a1 := fst (run cfg a (take i cs))).
  assert (Hcount : Mongo.count_attempts (db a1) pid fp (window_start cfg (call_time c))
                   = Z.of_nat (List.length (requests_from cfg pid fp (take i cs)))).
  { unfold a1. rewrite run_request_count.
    - apply Z.eqb_eq in Hnc. rewrite Hnc, Z.add_0_l. do 2 f_equal. unfold requests_from.
      apply List.filter_ext_in. intros x Hx.
      destruct (request_from cfg pid fp x) eqn:Hrx; [|done]. cbn [andb].
      assert (Hx' : In x (requests_from cfg pid fp cs)).
      { apply filter_In. split; [by eapply In_take|done]. }
      pose proof (Hw x Hx') as Hwx. rewrite forallb_forall in Hwx.
      specialize (Hwx c Hin). apply Z.leb_le in Hwx. apply Z.leb_le. by apply millis_mono.
    - rewrite forallb_forall. intros x Hx. apply Hv. by eapply requests_from_take. }
  assert (H0 : 0 <= RATE_LIMIT_WINDOW_SECONDS cfg).
  { specialize (Hwc c Hin). apply Z.leb_le in Hwc.
    unfold window_start, timedelta_seconds in Hwc. lia. }
  pose proof (run_keeps_vote_from cfg pid fp (take i cs) a c Hvc) as Hv1. fold a1 in Hv1.
  destruct (vote_from_inv _ _ _ _ _ Hv1) as (oid & req & vid & uuid & now & -> & Hfp & Hf).
  cbn [handle call_time] in *.
  destruct (vote_poll cfg pid oid req vid uuid now a1) as [a' r] eqn:E. cbn [snd].
  destruct (validated_vote_inv _ _ _ _ _ _ _ _ _ _ E Hf) as (_ & Hlim & Hcases & _).
  rewrite attempts_seen_eq, Hfp, Hcount in Hlim.
  destruct (Z.leb_spec 0 (RATE_LIMIT_WINDOW_SECONDS cfg)); [|lia].
  split.
  - rewrite <- Z.gt_lt_iff, <- Hlim. split; [by intros [= ->]|by intros ->].
  - intros Hne. destruct Hcases as [->|[->|[resp ->]]]; [done|by left|right; eauto].
Qed.

(** What the count takes an attempt of the fingerprint on the poll to be
    in the window: all that are stamped at or after its start, and none
    stamped a millisecond or more before it. *)
Lemma in_window_of_bounds pid fp since x :
  a_poll_id x = pid -> a_ip_hash x = fp ->
  (since <= attempted_at x -> in_window_of pid fp since x) /\
  (in_window_of pid fp since x -> since - 1000 < attempted_at x).
Proof.
  intros Hp Hf. unfold in_window_of. split.
  - intros H. split_and!; [done|done|]. by apply millis_mono.
  - intros (_ & _ & H).
    pose proof (bson_datetime_le since). pose proof (bson_datetime_le (attempted_at x)).
    unfold Mongo.bson_datetime in *. lia.
Qed.

Lemma in_window_reflect pid fp since x :
  Mongo.in_window pid fp since x = bool_decide (in_window_of pid fp since x).
Proof.
  unfold Mongo.in_window, in_window_of.
  destruct (String.eqb_spec (a_poll_id x) pid), (String.eqb_spec (a_ip_hash x) fp),
    (Z.leb_spec (Mongo.millis since) (Mongo.millis (attempted_at x))); cbn; symmetry;
    (apply bool_decide_eq_true_2 || apply bool_decide_eq_false_2); try done;
    intros (? & ? & ?); try done; lia.
Qed.

Lemma count_attempts_filter d pid fp since :
  Mongo.count_attempts d pid fp since
  = Z.of_nat (List.length (filter (in_window_of pid fp since) (db_vote_attempts d))).
Proof.
  unfold Mongo.count_attempts. f_equal.
  induction (db_vote_attempts d) as [|x l IH]; [done|].
  cbn [List.filter]. rewrite filter_cons, in_window_reflect.
  destruct (decide (in_window_of pid fp since x)) as [H|H].
  - rewrite bool_decide_eq_true_2 by done. cbn. by rewrite IH.
  - rewrite bool_decide_eq_false_2 by done. done.
Qed.

Lemma count_attempts_nonneg d pid fp since : 0 <= Mongo.count_attempts d pid fp since.
Proof. unfold Mongo.count_attempts. lia. Qed.

(** ** Splitting and stripping *)

Section Strings.
Import PyStr.

Lemma app_cons c s t : String c s +:+ t = String c (s +:+ t).
Proof. reflexivity. Qed.

Lemma app_nil t : EmptyString +:+ t = t.
Proof. reflexivity. Qed.

Lemma split_item0_spec sep s :
  exists pre, item0 (split sep s) = pre /\ no_char sep pre /\
    (s = pre \/ exists rest, s = pre +:+ String sep rest).
Proof.
  induction s as [|c s (pre & Hpre & Hno & Hs)].
  - exists EmptyString. cbn. auto.
  - cbn [split]. destruct (Ascii.eqb_spec c sep) as [->|Hne].
    + exists EmptyString. cbn. split_and!; [done|done|]. right. by exists s.
    + exists (String c pre). split_and!.
      * destruct (split sep s) as [|h t]; cbn in *; [by subst|by subst].
      * done.
      * destruct Hs as [-> | [rest ->]]; [by left|right; by exists rest].
Qed.

Lemma split_item0_unique sep s pre rest :
  no_char sep pre -> s = pre \/ s = pre +:+ String sep rest ->
  item0 (split sep s) = pre.
Proof.
  revert s. induction pre as [|c pre IH]; intros s Hno Hs.
  - destruct Hs as [-> | ->]; [done|]. change (item0 (split sep (String sep rest)) = EmptyString).
    cbn [split]. by rewrite Ascii.eqb_refl.
  - destruct Hno as [Hc Hno].
    assert (exists s', s = String c s' /\ (s' = pre \/ s' = pre +:+ String sep rest))
      as (s' & -> & Hs') by (destruct Hs as [-> | ->]; eauto).
    cbn [split]. destruct (Ascii.eqb_spec c sep); [done|].
    specialize (IH s' Hno Hs'). destruct (split sep s'); cbn in *; by subst.
Qed.

Lemma lstrip_spec s :
  exists lead, s = lead +:+ lstrip s /\ all_space lead /\
    (forall c, head_char (lstrip s) = Some c -> isspace c = false).
Proof.
  induction s as [|c s (lead & Hs & Hl & Hh)].
  - exists EmptyString. done.
  - cbn [lstrip]. destruct (isspace c) eqn:E.
    + exists (String c lead). rewrite app_cons, <- Hs. by split_and!.
    + exists EmptyString. split_and!; [done|done|]. cbn. by intros ? [= <-].
Qed.

Lemma lstrip_lead lead s : all_space lead -> lstrip (lead +:+ s) = lstrip s.
Proof.
  induction lead as [|c lead IH]; [done|]. intros [Hc Hl].
  rewrite app_cons. cbn [lstrip]. rewrite Hc. by apply IH.
Qed.

Lemma lstrip_all_space s : all_space s -> lstrip s = EmptyString.
Proof.
  induction s as [|c s IH]; [done|]. intros [Hc Hs]. cbn [lstrip]. rewrite Hc. by apply IH.
Qed.

Lemma lstrip_fixed s :
  (forall c, head_char s = Some c -> isspace c = false) -> lstrip s = s.
Proof. destruct s as [|c s]; [done|]. intros H. cbn. by rewrite (H c eq_refl). Qed.

Lemma rstrip_all_space s : all_space s -> rstrip s = EmptyString.
Proof.
  induction s as [|c s IH]; [done|]. intros [Hc Hs]. cbn. by rewrite IH, Hc.
Qed.

Lemma rstrip_trail s trail : all_space trail -> rstrip (s +:+ trail) = rstrip s.
Proof.
  intros Ht. induction s as [|c s IH]; [by apply rstrip_all_space|].
  rewrite app_cons. cbn [rstrip]. by rewrite IH.
Qed.

Lemma last_char_some c s : exists d, last_char (String c s) = Some d.
Proof.
  revert c. induction s as [|d s IH]; intros c; [by exists c|].
  change (last_char (String c (String d s))) with (last_char (String d s)). apply IH.
Qed.

Lemma last_char_cons c s :
  last_char (String c s) = match last_char s with Some d => Some d | None => Some c end.
Proof.
  destruct s as [|d s]; [done|].
  change (last_char (String c (String d s))) with (last_char (String d s)).
  destruct (last_char_some d s) as [x ->]. done.
Qed.

Lemma last_char_None s : last_char s = None -> s = EmptyString.
Proof. destruct s as [|c s]; [done|]. by destruct (last_char_some c s) as [d ->]. Qed.

Lemma rstrip_fixed s :
  (forall c, last_char s = Some c -> isspace c = false) -> rstrip s = s.
Proof.
  induction s as [|c s IH]; [done|]. rewrite last_char_cons. intros H. cbn [rstrip].
  destruct (last_char s) as [d|] eqn:E.
  - rewrite IH by done. destruct s; [done|done].
  - apply last_char_None in E as ->. cbn. by rewrite (H c eq_refl).
Qed.

Lemma rstrip_spec s :
  exists trail, s = rstrip s +:+ trail /\ all_space trail /\
    (forall c, last_char (rstrip s) = Some c -> isspace c = false) /\
    (forall c, head_char (rstrip s) = Some c -> head_char s = Some c).
Proof.
  induction s as [|c s (trail & Hs & Ht & Hl & Hh)].
  - exists EmptyString. done.
  - cbn [rstrip]. destruct (rstrip s) as [|d r] eqn:E.
    + destruct (isspace c) eqn:Ec.
      * exists (String c s). rewrite app_nil. split_and!; try done.
        rewrite app_nil in Hs. by rewrite Hs.
      * exists s. rewrite app_nil in Hs. rewrite app_cons, app_nil.
        split_and!; try done.
        -- by rewrite Hs.
        -- cbn. by intros ? [= <-].
    + exists trail. split_and!; try done.
      by rewrite app_cons, <- Hs.
Qed.

Lemma strip_spec s :
  exists lead trail, s = lead +:+ strip s +:+ trail /\
    all_space lead /\ all_space trail /\ no_space_at_ends (strip s).
Proof.
  unfold strip. destruct (lstrip_spec s) as (lead & Hs & Hl & Hh).
  destruct (rstrip_spec (lstrip s)) as (trail & Hr & Ht & Hlast & Hhead).
  exists lead, trail. split_and!; try done.
  - by rewrite <- Hr.
  - split; [|done]. intros c Hc. apply Hh. by apply Hhead.
Qed.

Lemma strip_unique s lead entry trail :
  s = lead +:+ entry +:+ trail -> all_space lead -> all_space trail ->
  no_space_at_ends entry -> strip s = entry.
Proof.
  intros -> Hl Ht [Hh Hlast]. unfold strip. rewrite lstrip_lead by done.
  destruct entry as [|c e].
  - rewrite app_nil. by rewrite (lstrip_all_space trail Ht).
  - rewrite lstrip_fixed.
    + rewrite rstrip_trail by done. by apply rstrip_fixed.
    + cbn. intros ? [= <-]. by apply Hh.
Qed.

End Strings.

Lemma first_entry_exists header :
  first_entry header (PyStr.strip (PyStr.item0 (PyStr.split "," header))).
Proof.
  destruct (split_item0_spec "," header) as (pre & Hpre & Hno & Hs). rewrite Hpre.
  destruct (strip_spec pre) as (lead & trail & Hp & Hl & Ht & He).
  destruct Hs as [-> | [rest ->]].
  - exists pre, EmptyString, lead, trail. split_and!; auto.
  - exists pre, rest, lead, trail. split_and!; auto.
Qed.

Lemma first_entry_unique header entry :
  first_entry header entry ->
  entry = PyStr.strip (PyStr.item0 (PyStr.split "," header)).
Proof.
  intros (pre & rest & lead & trail & Hs & Hno & Hp & Hl & Ht & He).
  rewrite (split_item0_unique "," header pre rest Hno Hs).
  symmetry. by eapply strip_unique.
Qed.

(** ** The notifier *)

Lemma wake_poll s : stream_poll (wake s) = stream_poll s.
Proof. unfold wake. by destruct (stream_pc s) as [|[]]. Qed.

Lemma wake_idem s : wake (wake s) = wake s.
Proof. unfold wake. destruct s as [p [|[]] e]; done. Qed.

Lemma resolve_lookup ss w sid :
  resolve ss w !! sid = if decide (w = sid) then wake <$> ss !! sid else ss !! sid.
Proof.
  unfold resolve. destruct (ss !! w) as [s|] eqn:Hw.
  - destruct (stream_pc s) as [|[]] eqn:Hpc.
    + destruct (decide (w = sid)) as [<-|]; [|done].
      rewrite Hw. cbn. unfold wake. by rewrite Hpc.
    + destruct (decide (w = sid)) as [<-|]; [|done].
      rewrite Hw. cbn. unfold wake. by rewrite Hpc.
    + destruct (decide (w = sid)) as [<-|Hne].
      * rewrite list_lookup_insert_eq by (by eapply lookup_lt_Some).
        rewrite Hw. cbn. unfold wake. by rewrite Hpc.
      * by rewrite list_lookup_insert_ne.
  - destruct (decide (w = sid)) as [<-|]; [|done]. by rewrite Hw.
Qed.

Lemma resolve_all_lookup ws : forall ss sid,
  fold_left resolve ws ss !! sid
  = if decide (sid ∈ ws) then wake <$> ss !! sid else ss !! sid.
Proof.
  induction ws as [|w ws IH]; intros ss sid.
  - cbn. destruct (decide (sid ∈ [])) as [H|]; [|done]. by apply not_elem_of_nil in H.
  - cbn [fold_left]. rewrite IH, resolve_lookup.
    destruct (decide (w = sid)) as [->|Hne].
    + rewrite (decide_True (P := sid ∈ sid :: ws)) by apply list_elem_of_here.
      destruct (decide (sid ∈ ws)); [|done].
      destruct (ss !! sid); cbn; [|done]. by rewrite wake_idem.
    + destruct (decide (sid ∈ ws)) as [Hin|Hnin].
      * rewrite decide_True; [done|]. by apply list_elem_of_further.
      * rewrite decide_False; [done|]. intros Hc.
        apply elem_of_cons in Hc as [E|E]; [by symmetry in E|done].
Qed.

(** What [notify_poll_change] does to the process. *)
Lemma notify_poll_change_spec pid a :
  let a' := notify_poll_change pid a in
  db a' = db a /\ flag a' pid = true /\ waiters a' pid = waiters a pid /\
  (forall q, q <> pid -> poll_events a' !! q = poll_events a !! q) /\
  (forall sid, streams a' !! sid =
     if flag a pid then streams a !! sid
     else if decide (sid ∈ waiters a pid) then wake <$> streams a !! sid
     else streams a !! sid).
Proof.
  unfold notify_poll_change, upsert_poll_event, event_set, flag, waiters.
  destruct (poll_events a !! pid) as [ev|] eqn:Hev; cbn.
  - destruct (_value ev) eqn:Hval; cbn.
    + rewrite Hev, Hval. split_and!; done.
    + rewrite lookup_insert_eq. split_and!; try done.
      * intros q Hq. by rewrite lookup_insert_ne.
      * intros sid. apply resolve_all_lookup.
  - rewrite insert_insert_eq, lookup_insert_eq.
    split_and!; try done; try (intros q Hq; by rewrite lookup_insert_ne).
    all: intros sid; destruct (decide (sid ∈ [])) as [H|]; [|done].
    all: by apply not_elem_of_nil in H.
Qed.

Lemma notifier_inv_notify pid a :
  notifier_inv a -> notifier_inv (notify_poll_change pid a).
Proof.
  intros [I1 I2].
  destruct (notify_poll_change_spec pid a) as (_ & Hflag & Hw & Hother & Hss).
  set (a' := notify_poll_change pid a) in *.
  assert (Hwq : forall q, waiters a' q = waiters a q).
  { intros q. destruct (decide (q = pid)) as [->|Hne]; [done|].
    unfold waiters. by rewrite Hother. }
  assert (Hfq : forall q, q <> pid -> flag a' q = flag a q).
  { intros q Hne. unfold flag. by rewrite Hother. }
  assert (Hs : forall sid s', streams a' !! sid = Some s' ->
            exists s, streams a !! sid = Some s /\ (s' = s \/ s' = wake s)).
  { intros sid s'. rewrite Hss.
    destruct (flag a pid); [eauto|]. destruct (decide (sid ∈ waiters a pid)); [|eauto].
    destruct (streams a !! sid) as [s|]; [|done]. cbn. intros [= <-]. eauto. }
  split.
  - intros q sid. rewrite Hwq. intros Hin. destruct (I1 q sid Hin) as (s & Hs0 & Hp).
    rewrite Hss. destruct (flag a pid); [eauto|].
    destruct (decide (sid ∈ waiters a pid)); [|eauto].
    rewrite Hs0. cbn. exists (wake s). by rewrite wake_poll.
  - intros sid s' Hs' Hpc. rewrite Hwq. revert Hs'. rewrite Hss.
    destruct (flag a pid) eqn:Hf.
    + intros Hs0. destruct (I2 sid s' Hs0 Hpc) as [Hfl Hin]. split; [|done].
      destruct (decide (stream_poll s' = pid)) as [E|Hne]; [congruence|].
      by rewrite Hfq.
    + destruct (decide (sid ∈ waiters a pid)) as [Hin|Hnin].
      * destruct (streams a !! sid) as [s|]; [|done]. cbn. intros [= <-].
        unfold wake in Hpc. destruct s as [p [|[]] e]; done.
      * intros Hs0. destruct (I2 sid s' Hs0 Hpc) as [Hfl Hin]. split; [|done].
        destruct (decide (stream_poll s' = pid)) as [E|Hne]; [congruence|].
        by rewrite Hfq.
Qed.

Lemma event_generator_step sid now a :
  GeneratorStep sid now a (fst (event_generator sid now a)) (snd (event_generator sid now a)).
Proof.
  unfold event_generator.
  destruct (streams a !! sid) as [s|] eqn:Hs; [|apply gen_idle; [done|done|congruence]].
  destruct (poll_events a !! stream_poll s) as [ev|] eqn:Hev.
  2:{ apply gen_idle; [done|done|]. intros s0 Hs0 [x Hx].
      assert (s0 = s) as -> by congruence. congruence. }
  destruct (stream_pc s) as [|[]] eqn:Hpc.
  - destruct (_value ev) eqn:Hv; cbn [fst snd].
    + eapply gen_run; try done. left. done.
    + eapply gen_run; try done. right. left. done.
  - cbn [fst snd]. eapply gen_run; try done. right. right. done.
  - apply gen_idle; [done|done|]. intros s0 Hs0 _. by assert (s0 = s) as -> by congruence.
Qed.

Lemma elem_of_filter_neq (l : list nat) (sid w : nat) :
  w ∈ List.filter (fun x => negb (Nat.eqb x sid)) l <-> w ∈ l /\ w <> sid.
Proof.
  rewrite !list_elem_of_In, filter_In, negb_true_iff, Nat.eqb_neq. done.
Qed.

Lemma notifier_inv_generator sid now a :
  notifier_inv a -> notifier_inv (fst (event_generator sid now a)).
Proof.
  intros [I1 I2].
  destruct (event_generator_step sid now a) as [-> _ _|s ev ev' s' Hs Hev _ Hpe Hss Hpoll Hval Hcase];
    [done|].
  set (a' := fst (event_generator sid now a)) in *.
  set (p := stream_poll s) in *.
  assert (Hlen : (sid < List.length (streams a))%nat) by (by eapply lookup_lt_Some).
  assert (Hfp : flag a' p = false) by (unfold flag; by rewrite Hpe, lookup_insert_eq).
  assert (Hwp : waiters a' p = _waiters ev') by (unfold waiters; by rewrite Hpe, lookup_insert_eq).
  assert (Hwp0 : waiters a p = _waiters ev) by (unfold waiters; by rewrite Hev).
  assert (Hfp0 : flag a p = _value ev) by (unfold flag; by rewrite Hev).
  assert (Hq : forall q, q <> p -> flag a' q = flag a q /\ waiters a' q = waiters a q).
  { intros q Hne. unfold flag, waiters. by rewrite Hpe, lookup_insert_ne. }
  assert (Hsub : forall w, w ∈ _waiters ev' -> w ∈ _waiters ev \/ w = sid).
  { intros w Hw. destruct Hcase as [(_ & _ & _ & E & _)|[(_ & _ & _ & E & _)|(_ & _ & E & _)]];
      rewrite E in Hw.
    - by left.
    - apply elem_of_app in Hw as [?|Hw]; [by left|]. apply list_elem_of_singleton in Hw. by right.
    - apply elem_of_filter_neq in Hw as [? _]. by left. }
  split.
  - intros q w Hw. rewrite Hss.
    destruct (decide (w = sid)) as [->|Hne].
    + rewrite list_lookup_insert_eq by done. exists s'. split; [done|].
      destruct (decide (q = p)) as [->|Hqp]; [done|].
      destruct (Hq q Hqp) as [_ E]. rewrite E in Hw.
      destruct (I1 q sid Hw) as (s0 & Hs0 & <-). subst p. congruence.
    + rewrite list_lookup_insert_ne by done.
      destruct (decide (q = p)) as [->|Hqp].
      * rewrite Hwp in Hw. destruct (Hsub w Hw) as [Hin|?]; [|done].
        apply I1. by rewrite Hwp0.
      * destruct (Hq q Hqp) as [_ E]. rewrite E in Hw. by apply I1.
  - intros w sw. rewrite Hss.
    destruct (decide (w = sid)) as [->|Hne].
    + rewrite list_lookup_insert_eq by done. intros [= <-] Hpc.
      rewrite Hpoll. fold p. split; [done|]. rewrite Hwp.
      destruct Hcase as [(_ & _ & _ & _ & ->)|[(_ & _ & _ & E & _)|(_ & _ & _ & ->)]]; [done| |done].
      rewrite E. apply elem_of_app. right. by apply list_elem_of_singleton.
    + rewrite list_lookup_insert_ne by done. intros Hsw Hpc.
      destruct (I2 w sw Hsw Hpc) as [Hfl Hin].
      destruct (decide (stream_poll sw = p)) as [E|Hqp].
      * rewrite E in *. split; [done|]. rewrite Hwp. rewrite Hwp0 in Hin.
        destruct Hcase as [(_ & Hv & _)|[(_ & _ & _ & -> & _)|(_ & _ & -> & _)]].
        -- congruence.
        -- apply elem_of_app. by left.
        -- by apply elem_of_filter_neq.
      * destruct (Hq _ Hqp) as [-> ->]. done.
Qed.

Lemma poll_events_stream_spec pid a :
  let a' := fst (poll_events_stream pid a) in
  db a' = db a /\
  streams a' = streams a ++ [{| stream_poll := pid; stream_pc := AtWait; emitted := [] |}] /\
  snd (poll_events_stream pid a) = List.length (streams a) /\
  (forall q, flag a' q = flag a q /\ waiters a' q = waiters a q) /\
  is_Some (poll_events a' !! pid).
Proof.
  unfold poll_events_stream, upsert_poll_event, flag, waiters.
  destruct (poll_events a !! pid) as [ev|] eqn:Hev; cbn.
  - rewrite Hev. split_and!; eauto.
  - rewrite lookup_insert_eq. split_and!; eauto.
    intros q. destruct (decide (q = pid)) as [->|Hne].
    + by rewrite lookup_insert_eq, Hev.
    + by rewrite lookup_insert_ne.
Qed.

Lemma notifier_inv_open pid a :
  notifier_inv a -> notifier_inv (fst (poll_events_stream pid a)).
Proof.
  intros [I1 I2]. destruct (poll_events_stream_spec pid a) as (_ & Hss & _ & Hq & _).
  set (a' := fst (poll_events_stream pid a)) in *. split.
  - intros q w. destruct (Hq q) as [_ ->]. intros Hw.
    destruct (I1 q w Hw) as (s & Hs & Hp). exists s. split; [|done].
    rewrite Hss. by apply lookup_app_l_Some.
  - intros w s. rewrite Hss. intros Hs Hpc.
    destruct (Hq (stream_poll s)) as [-> ->].
    apply lookup_app_Some in Hs as [Hs|[_ Hs]]; [by apply I2|].
    apply list_lookup_singleton_Some in Hs as [_ <-]. done.
Qed.

Lemma notifier_inv_set_db a d : notifier_inv a -> notifier_inv (set_db a d).
Proof. done. Qed.

Lemma vote_poll_notifier cfg pid oid req vid uuid now a :
  let a' := fst (vote_poll cfg pid oid req vid uuid now a) in
  match snd (vote_poll cfg pid oid req vid uuid now a) with
  | Return _ => a' = notify_poll_change pid (set_db a (db a'))
  | Raise _ => poll_events a' = poll_events a /\ streams a' = streams a
  end.
Proof.
  destruct (vote_poll cfg pid oid req vid uuid now a) as [a' [resp|e]] eqn:E; cbn.
  - by apply accepted_vote_inv in E as (p & _ & _ & _ & _ & _ & _ & _ & ? & _).
  - by apply rejected_vote_inv in E as (_ & _ & ? & ? & _).
Qed.

Lemma create_poll_notifier payload tok otok now a :
  let a' := fst (create_poll payload tok otok now a) in
  match snd (create_poll payload tok otok now a) with
  | Return _ => a' = notify_poll_change tok (set_db a (db a'))
  | Raise _ => a' = a
  end.
Proof.
  rewrite create_poll_eq. destruct (db_polls (db a) !! tok); cbn; [done|].
  rewrite notify_poll_change_db. by destruct a.
Qed.

Lemma notifier_inv_handle cfg a c :
  notifier_inv a -> notifier_inv (fst (handle cfg a c)).
Proof.
  intros Ha. destruct c as [payload tok otok now|pid|pid oid req vid uuid now|pid|sid now]; cbn.
  - pose proof (create_poll_notifier payload tok otok now a) as H.
    destruct (create_poll payload tok otok now a) as [a' [resp|e]]; cbn in *.
    + rewrite H. by apply notifier_inv_notify.
    + by subst.
  - done.
  - pose proof (vote_poll_notifier cfg pid oid req vid uuid now a) as H.
    destruct (vote_poll cfg pid oid req vid uuid now a) as [a' [resp|e]]; cbn in *.
    + rewrite H. by apply notifier_inv_notify.
    + destruct H as [H1 H2]. destruct Ha as [I1 I2]. unfold notifier_inv, flag, waiters in *.
      rewrite H1, H2. done.
  - pose proof (notifier_inv_open pid a Ha). by destruct (poll_events_stream pid a).
  - pose proof (notifier_inv_generator sid now a Ha). by destruct (event_generator sid now a).
Qed.

Lemma notifier_inv_reachable cfg a : reachable cfg a -> notifier_inv a.
Proof.
  intros [cs <-]. assert (H : notifier_inv init_app).
  { split.
    - intros pid sid Hin. unfold waiters in Hin. cbn in Hin.
      rewrite lookup_empty in Hin. by apply not_elem_of_nil in Hin.
    - intros sid s Hs. done. }
  revert H. generalize init_app. induction cs as [|c cs IH]; intros a Ha; [done|].
  rewrite run_cons. cbn [fst]. apply IH. by apply notifier_inv_handle.
Qed.

(** ** The fingerprint *)

Lemma string_length_app s t : String.length (s +:+ t) = (String.length s + String.length t)%nat.
Proof. induction s as [|c s IH]; [done|]. rewrite app_cons. cbn. by rewrite IH. Qed.

Lemma round_length st kw : List.length st = 8%nat -> List.length (SHA256.round st kw) = 8%nat.
Proof.
  intros H. do 9 (destruct st as [|? st]; try done).
Qed.

Lemma rounds_length l : forall st,
  List.length st = 8%nat -> List.length (fold_left SHA256.round l st) = 8%nat.
Proof.
  induction l as [|kw l IH]; intros st H; [done|]. cbn [fold_left].
  apply IH. by apply round_length.
Qed.

Lemma compress_length h block :
  List.length h = 8%nat -> List.length (SHA256.compress h block) = 8%nat.
Proof.
  intros H. unfold SHA256.compress. cbn zeta.
  rewrite List.length_map, List.length_combine, rounds_length by done. lia.
Qed.

Lemma blocks_length n : forall h bs,
  List.length h = 8%nat -> List.length (SHA256.blocks n h bs) = 8%nat.
Proof.
  induction n as [|n IH]; intros h bs H; [done|]. cbn [SHA256.blocks].
  apply IH. by apply compress_length.
Qed.

Lemma hex_digits_all :
  forallb (fun n => is_hex_digit (SHA256.hex_digit (Z.of_nat n))) (seq 0 16) = true.
Proof. vm_compute. reflexivity. Qed.

Lemma hex_digit_is_hex x : is_hex_digit (SHA256.hex_digit (Z.land x 15)) = true.
Proof.
  change 15 with (Z.ones 4). rewrite Z.land_ones by lia.
  pose proof (Z.mod_pos_bound x (2 ^ 4) ltac:(lia)) as Hb.
  pose proof hex_digits_all as H. rewrite forallb_forall in H.
  specialize (H (Z.to_nat (x mod 2 ^ 4))). rewrite Z2Nat.id in H by lia.
  apply H. apply in_seq. lia.
Qed.

Lemma hex_word_shape n x :
  String.length (SHA256.hex_word n x) = n /\
  Forall (fun c => is_hex_digit c = true) (list_ascii_of_string (SHA256.hex_word n x)).
Proof.
  induction n as [|n [IH1 IH2]]; [by split; [|constructor]|].
  cbn [SHA256.hex_word String.length list_ascii_of_string]. split; [by rewrite IH1|].
  constructor; [apply hex_digit_is_hex|done].
Qed.

Lemma list_ascii_app s t :
  list_ascii_of_string (s +:+ t) = list_ascii_of_string s ++ list_ascii_of_string t.
Proof. induction s as [|c s IH]; [done|]. rewrite app_cons. cbn. by rewrite IH. Qed.

Lemma hexdigest_shape msg :
  String.length (SHA256.hexdigest msg) = 64%nat /\
  Forall (fun c => is_hex_digit c = true) (list_ascii_of_string (SHA256.hexdigest msg)).
Proof.
  unfold SHA256.hexdigest.
  assert (Hl : List.length (SHA256.digest_words msg) = 8%nat).
  { unfold SHA256.digest_words. cbn zeta. by apply blocks_length. }
  assert (H : forall l,
    String.length (fold_right (fun w acc => SHA256.hex_word 8 w +:+ acc) EmptyString l)
    = (8 * List.length l)%nat /\
    Forall (fun c => is_hex_digit c = true)
      (list_ascii_of_string
         (fold_right (fun w acc => SHA256.hex_word 8 w +:+ acc) EmptyString l))).
  { induction l as [|w l [IH1 IH2]]; [by split; [|constructor]|].
    cbn [fold_right]. destruct (hex_word_shape 8 w) as [H1 H2]. split.
    - rewrite string_length_app, H1, IH1. cbn [List.length]. lia.
    - rewrite list_ascii_app. by apply Forall_app. }
  destruct (H (SHA256.digest_words msg)) as [H1 H2]. by rewrite Hl in H1.
Qed.

(** [encode_utf8] loses nothing: the bytes give the text back. *)
Lemma decode_encode_utf8 c s :
  decode_utf8_char (PyStr.encode_utf8 (String c s)) = Some (c, PyStr.encode_utf8 s).
Proof. destruct c as [[] [] [] [] [] [] [] []]; reflexivity. Qed.

Lemma encode_utf8_inj s1 : forall s2,
  PyStr.encode_utf8 s1 = PyStr.encode_utf8 s2 -> s1 = s2.
Proof.
  induction s1 as [|c1 s1 IH]; intros [|c2 s2] H.
  - done.
  - apply (f_equal decode_utf8_char) in H. by rewrite decode_encode_utf8 in H.
  - apply (f_equal decode_utf8_char) in H. by rewrite decode_encode_utf8 in H.
  - apply (f_equal decode_utf8_char) in H. rewrite !decode_encode_utf8 in H.
    injection H as -> H. by rewrite (IH s2 H).
Qed.

Lemma string_app_inv_head s : forall t u, s +:+ t = s +:+ u -> t = u.
Proof.
  induction s as [|c s IH]; intros t u H.
  - by rewrite !app_nil in H.
  - rewrite !app_cons in H. injection H as H. by apply IH.
Qed.

(** Two addresses have the same fingerprint under a salt only if they are
    the same or SHA-256 takes equal values on two different byte strings. *)
Lemma hash_ip_collision cfg ip1 ip2 :
  hash_ip cfg ip1 = hash_ip cfg ip2 ->
  ip1 = ip2 \/ exists m1 m2, m1 <> m2 /\ SHA256.hexdigest m1 = SHA256.hexdigest m2.
Proof.
  intros H. destruct (decide (ip1 = ip2)) as [Heq|Hne]; [by left|right].
  exists (PyStr.encode_utf8 (IP_HASH_SALT cfg +:+ ":" +:+ ip1)),
         (PyStr.encode_utf8 (IP_HASH_SALT cfg +:+ ":" +:+ ip2)).
  split; [|exact H]. intros Hm. apply encode_utf8_inj in Hm.
  apply string_app_inv_head in Hm. apply (string_app_inv_head ":") in Hm. done.
Qed.

(** * The claims *)

(** C1 (as amended). When the ledger already holds a vote of the voter on
    the poll, a further vote request of that voter on that poll is never
    admitted and leaves the polls collection exactly as it was (no counter,
    total_votes, version or updated_at changes). Its outcome is
    DuplicateVote (409) exactly when the request names an option of the poll
    and is within the rate limit; otherwise an earlier gate answers:
    NotFound, InvalidOption or RateLimited. *)
Theorem recorded_voter_never_mutates_aggregate cfg pid oid req vid uuid now a a' r :
  has_voted (db a) pid (resolve_voter_id vid uuid) = true ->
  vote_poll cfg pid oid req vid uuid now a = (a', r) ->
  db_polls (db a') = db_polls (db a) /\
  (r = Raise DuplicateVote <->
   Mongo.find_poll_option (db a) pid oid <> None /\
   attempts_seen cfg (db a) pid req now <= RATE_LIMIT_MAX_ATTEMPTS cfg) /\
  (r = Raise DuplicateVote \/ r = Raise NotFound \/ r = Raise InvalidOption \/
   r = Raise RateLimited).
Proof.
  intros Hv E.
  destruct (recorded_voter_outcome _ _ _ _ _ _ _ _ _ _ Hv E)
    as (Hp & _ & _ & H404 & H400 & H429 & H409).
  split; [done|].
  destruct (Mongo.find_poll_option (db a) pid oid) as [p|] eqn:Hf.
  - destruct (Z_le_gt_dec (attempts_seen cfg (db a) pid req now) (RATE_LIMIT_MAX_ATTEMPTS cfg))
      as [Hle|Hgt].
    + rewrite H409 by done. split; [|by left]. done.
    + rewrite H429 by done. split; [|by do 3 right].
      split; [done|]. intros [_ ?]. lia.
  - destruct (Mongo.find_poll (db a) pid) as [p|] eqn:Hq.
    + rewrite H400 by done. split; [|by right; right; left].
      split; [done|]. by intros [? _].
    + rewrite H404 by done. split; [|by right; left].
      split; [done|]. by intros [? _].
Qed.

(** C2. Creation stores a poll whose total_votes and option counters are
    all zero; an accepted vote replaces, in the one update, the first option
    carrying the chosen id by the same option with one more vote and adds one
    to total_votes; and in every state the service can reach, and in every
    snapshot it returns, total_votes is the sum of the options' votes. *)
Theorem total_votes_is_sum_of_option_votes cfg :
  (forall payload tok otok now a a' resp,
     create_poll payload tok otok now a = (a', Return resp) ->
     exists p, db_polls (db a') !! tok = Some p /\ created resp = (tok, p) /\
       total_votes p = 0 /\ Forall (fun o => votes o = 0) (options p) /\
       sum_votes (options p) = 0) /\
  (forall pid oid req vid uuid now a a' resp,
     vote_poll cfg pid oid req vid uuid now a = (a', Return resp) ->
     exists p p' i o,
       db_polls (db a) !! pid = Some p /\ db_polls (db a') !! pid = Some p' /\
       body resp = (pid, p') /\
       options p !! i = Some o /\ id o = oid /\
       options p' = <[i := with_votes o (votes o + 1)]> (options p) /\
       total_votes p' = total_votes p + 1 /\
       sum_votes (options p') = sum_votes (options p) + 1) /\
  (forall a, reachable cfg a ->
     (forall pid p, db_polls (db a) !! pid = Some p ->
        total_votes p = sum_votes (options p)) /\
     (forall pid doc, get_poll pid a = Return doc ->
        total_votes (snd doc) = sum_votes (options (snd doc)))).
Proof.
  split_and!.
  - intros * E. apply created_poll_inv in E as (_ & Hd & _ & _ & Hc).
    exists (new_poll payload otok now).
    destruct (new_poll_zero payload otok now) as (_ & ? & ? & ?).
    split_and!; try done. by rewrite Hd, lookup_insert_eq.
  - intros * E. apply accepted_vote_inv in E as (p & Hp & Ho & _ & _ & Hd & _ & _ & _ & ->).
    destruct (inc_matched_spec oid (options p) Ho) as (i & o & Hi & Hid & _ & Heq).
    exists p, (Mongo.apply_vote oid now p), i, o.
    split_and!; try done.
    + by rewrite Hd, lookup_insert_eq.
    + cbn. by apply inc_matched_sum.
  - intros a Ha. pose proof (reachable_consistent _ _ Ha) as Hc. split; [exact Hc|].
    intros pid [pid' p]. unfold get_poll, get_poll_or_404, Mongo.find_poll.
    destruct (db_polls (db a) !! pid) as [q|] eqn:Hq; [|done].
    cbn. intros [= <- <-]. by apply (Hc pid).
Qed.

(** C3 (as amended). A vote request that names an option of its poll, at a
    time whose window start is a datetime, first appends its own attempt to
    the log, stamped to the millisecond; it is then answered RateLimited
    (429) exactly when more than RATE_LIMIT_MAX_ATTEMPTS entries of the log,
    the new one included, are attempts of its fingerprint on its poll whose
    millisecond is not before the millisecond of now minus the window: these
    are all the attempts stamped at or after now minus the window, and may
    include attempts up to a millisecond older. A RateLimited request adds
    no vote and changes no poll. Hence, in a run of any calls, when the
    requests of one fingerprint on one poll all name options of the poll,
    are all inside one window and find no earlier attempt of theirs in it,
    the request with n of them before it passes the gate while n+1 is at
    most the limit and is RateLimited afterwards: with the limit at 15, the
    first 15 pass and the 16th is RateLimited. Unless the environment says
    otherwise the window is 60 seconds and the limit 15. *)
Theorem rate_gate_counts_attempts_in_window cfg :
  (RATE_LIMIT_WINDOW_SECONDS default_settings = 60 /\
   RATE_LIMIT_MAX_ATTEMPTS default_settings = 15) /\
  (forall pid oid req vid uuid now a a' r,
     window_start_defined cfg now = true ->
     vote_poll cfg pid oid req vid uuid now a = (a', r) ->
     Mongo.find_poll_option (db a) pid oid <> None ->
     let fp := hash_ip cfg (get_client_ip req) in
     let since := now - RATE_LIMIT_WINDOW_SECONDS cfg * 1000000 in
     db_vote_attempts (db a')
     = db_vote_attempts (db a)
       ++ [{| a_poll_id := pid; a_ip_hash := fp; attempted_at := Mongo.bson_datetime now |}] /\
     (r = Raise RateLimited <->
      Z.of_nat (List.length (filter (in_window_of pid fp since) (db_vote_attempts (db a'))))
      > RATE_LIMIT_MAX_ATTEMPTS cfg) /\
     (r = Raise RateLimited ->
      db_votes (db a') = db_votes (db a) /\ db_polls (db a') = db_polls (db a))) /\
  (forall pid fp since x, a_poll_id x = pid -> a_ip_hash x = fp ->
     (since <= attempted_at x -> in_window_of pid fp since x) /\
     (in_window_of pid fp since x -> since - 1000 < attempted_at x)) /\
  (forall pid fp a cs i c,
     forallb (fun c => window_start_defined cfg (call_time c)) cs = true ->
     forallb (vote_from cfg pid fp (db a)) (requests_from cfg pid fp cs) = true ->
     inside_window cfg (requests_from cfg pid fp cs) = true ->
     no_earlier_attempts cfg pid fp (db a) (requests_from cfg pid fp cs) = true ->
     cs !! i = Some c -> request_from cfg pid fp c = true ->
     let n := Z.of_nat (List.length (requests_from cfg pid fp (take i cs))) in
     (n + 1 <= RATE_LIMIT_MAX_ATTEMPTS cfg ->
      exists r, snd (run cfg a cs) !! i = Some r /\ passed_rate_gate r) /\
     (RATE_LIMIT_MAX_ATTEMPTS cfg < n + 1 ->
      snd (run cfg a cs) !! i = Some (Voted (Raise RateLimited)))) /\
  (forall pid fp a cs i c,
     RATE_LIMIT_MAX_ATTEMPTS cfg = 15 ->
     forallb (fun c => window_start_defined cfg (call_time c)) cs = true ->
     forallb (vote_from cfg pid fp (db a)) (requests_from cfg pid fp cs) = true ->
     inside_window cfg (requests_from cfg pid fp cs) = true ->
     no_earlier_attempts cfg pid fp (db a) (requests_from cfg pid fp cs) = true ->
     cs !! i = Some c -> request_from cfg pid fp c = true ->
     let n := List.length (requests_from cfg pid fp (take i cs)) in
     ((n < 15)%nat -> exists r, snd (run cfg a cs) !! i = Some r /\ passed_rate_gate r) /\
     (n = 15%nat -> snd (run cfg a cs) !! i = Some (Voted (Raise RateLimited)))).
Proof.
  assert (Hburst : forall pid fp a cs i c,
     forallb (vote_from cfg pid fp (db a)) (requests_from cfg pid fp cs) = true ->
     inside_window cfg (requests_from cfg pid fp cs) = true ->
     no_earlier_attempts cfg pid fp (db a) (requests_from cfg pid fp cs) = true ->
     cs !! i = Some c -> request_from cfg pid fp c = true ->
     let n := Z.of_nat (List.length (requests_from cfg pid fp (take i cs))) in
     (n + 1 <= RATE_LIMIT_MAX_ATTEMPTS cfg ->
      exists r, snd (run cfg a cs) !! i = Some r /\ passed_rate_gate r) /\
     (RATE_LIMIT_MAX_ATTEMPTS cfg < n + 1 ->
      snd (run cfg a cs) !! i = Some (Voted (Raise RateLimited)))).
  { intros pid fp a cs i c Hv Hw Hn Hc Hreq n.
    destruct (burst_reply_among cfg pid fp a cs i c Hv Hw Hn Hc Hreq) as (r & Hr & Hiff & Hpass).
    fold n in Hiff. split.
    - intros Hle. exists r. split; [done|]. apply Hpass. intros Hlim. apply Hiff in Hlim. lia.
    - intros Hlt. rewrite Hr. f_equal. by apply Hiff. }
  split_and!; [done|done|..].
  - intros * _ E Hf fp since.
    destruct (validated_vote_inv _ _ _ _ _ _ _ _ _ _ E Hf) as (Hlog & Hlim & _ & Hrej).
    split_and!.
    + exact Hlog.
    + rewrite Hlim. unfold attempts_seen.
      rewrite insert_attempt_eq, count_attempts_filter.
      cbn [set_vote_attempts db_vote_attempts].
      by rewrite Hlog.
    + intros ->. by apply Hrej.
  - intros pid fp since x. apply in_window_of_bounds.
  - intros pid fp a cs i c _. apply Hburst.
  - intros pid fp a cs i c Hmax _ Hv Hw Hn Hc Hreq n.
    destruct (Hburst pid fp a cs i c Hv Hw Hn Hc Hreq) as [H1 H2]. fold n in H1, H2. split.
    + intros Hk. apply H1. lia.
    + intros Hk. apply H2. lia.
Qed.

(** C4 (as amended). A vote request appends exactly one Vote Attempt for its
    (poll, fingerprint, timestamp) when it passes option validation, whatever
    its outcome after that (RateLimited, DuplicateVote or accepted); a
    request that option validation rejects (NotFound, InvalidOption) appends
    none. So after more than RATE_LIMIT_MAX_ATTEMPTS requests of one
    fingerprint for options of one poll within the window, whatever their
    outcomes, the next request of that fingerprint for an option of the poll
    is RateLimited. *)
Theorem attempt_logged_after_validation cfg :
  (forall pid oid req vid uuid now a a' r,
     vote_poll cfg pid oid req vid uuid now a = (a', r) ->
     (Mongo.find_poll_option (db a) pid oid <> None ->
      db_vote_attempts (db a') = db_vote_attempts (db a) ++ [attempt_of cfg pid req now] /\
      (r = Raise RateLimited \/ r = Raise DuplicateVote \/ exists resp, r = Return resp)) /\
     (Mongo.find_poll_option (db a) pid oid = None ->
      db_vote_attempts (db a') = db_vote_attempts (db a) /\
      (r = Raise NotFound \/ r = Raise InvalidOption))) /\
  (forall pid fp a cs oid req vid uuid now,
     forallb (vote_from cfg pid fp (db a)) cs = true ->
     forallb (fun c => window_start cfg now <=? call_time c) cs = true ->
     RATE_LIMIT_MAX_ATTEMPTS cfg < Z.of_nat (List.length cs) ->
     hash_ip cfg (get_client_ip req) = fp ->
     Mongo.find_poll_option (db a) pid oid <> None ->
     snd (vote_poll cfg pid oid req vid uuid now (fst (run cfg a cs))) = Raise RateLimited).
Proof.
  split.
  - intros * E. split; intros Hf.
    + destruct (validated_vote_inv _ _ _ _ _ _ _ _ _ _ E Hf) as (Hlog & _ & Hcases & _). done.
    + destruct (unvalidated_vote_inv _ _ _ _ _ _ _ _ _ _ E Hf) as [-> ?]. done.
  - intros * Hv Ht Hlen Hfp Hf.
    set (a1 := fst (run cfg a cs)).
    assert (Hf1 : Mongo.find_poll_option (db a1) pid oid <> None).
    { pose proof (run_keeps_vote_from cfg pid fp cs a (VotePoll pid oid req vid uuid now)) as H.
      cbn [vote_from] in H. rewrite Hfp, !String.eqb_refl in H. cbn in H.
      fold a1 in H.
      destruct (Mongo.find_poll_option (db a) pid oid); [|done].
      specialize (H eq_refl). by destruct (Mongo.find_poll_option (db a1) pid oid). }
    destruct (vote_poll cfg pid oid req vid uuid now a1) as [a' r] eqn:E. cbn [snd].
    destruct (validated_vote_inv _ _ _ _ _ _ _ _ _ _ E Hf1) as (_ & Hlim & _).
    apply Hlim. rewrite attempts_seen_eq, Hfp. unfold a1.
    rewrite (run_vote_from_count cfg pid fp (window_start cfg now) cs a Hv Ht).
    pose proof (count_attempts_nonneg (db a) pid fp (window_start cfg now)).
    destruct (0 <=? RATE_LIMIT_WINDOW_SECONDS cfg); lia.
Qed.

(** C5. createPoll stores version 1 with all counters at zero. A call of the
    service changes the version of an existing poll only when it is an
    accepted vote on that poll, and then by exactly one; a call that is not
    an accepted vote on the poll leaves the whole document as it was. Hence
    over any run the version never decreases, grows by the number of
    accepted votes on the poll, and from the start of the service equals one
    plus that number; and of two accepted votes on one poll the later
    returns the greater version, so no version is ever seen twice. *)
Theorem version_counts_accepted_votes cfg :
  (forall payload tok otok now a a' resp,
     create_poll payload tok otok now a = (a', Return resp) ->
     exists p, db_polls (db a') !! tok = Some p /\ version p = 1 /\
       total_votes p = 0 /\ Forall (fun o => votes o = 0) (options p)) /\
  (forall a c a' r pid p,
     handle cfg a c = (a', r) -> db_polls (db a) !! pid = Some p ->
     exists p', db_polls (db a') !! pid = Some p' /\
       (accepted_on pid c r = true -> version p' = version p + 1) /\
       (accepted_on pid c r = false -> p' = p)) /\
  (forall cs a pid p,
     db_polls (db a) !! pid = Some p ->
     exists p', db_polls (db (fst (run cfg a cs))) !! pid = Some p' /\
       version p' = version p + accepted_votes pid cs (snd (run cfg a cs)) /\
       version p <= version p') /\
  (forall cs pid p,
     db_polls (db (fst (run cfg init_app cs))) !! pid = Some p ->
     version p = 1 + accepted_votes pid cs (snd (run cfg init_app cs))) /\
  (forall cs pid i j oid req vid uuid now resp oid' req' vid' uuid' now' resp',
     (i < j)%nat ->
     cs !! i = Some (VotePoll pid oid req vid uuid now) ->
     snd (run cfg init_app cs) !! i = Some (Voted (Return resp)) ->
     cs !! j = Some (VotePoll pid oid' req' vid' uuid' now') ->
     snd (run cfg init_app cs) !! j = Some (Voted (Return resp')) ->
     version (snd (body resp)) < version (snd (body resp'))).
Proof.
  split_and!.
  - intros * E. apply created_poll_inv in E as (_ & Hd & _).
    exists (new_poll payload otok now).
    destruct (new_poll_zero payload otok now) as (? & ? & ? & _).
    split_and!; try done. by rewrite Hd, lookup_insert_eq.
  - intros * E Hp.
    destruct (handle_polls _ _ _ _ _ E) as
      [pid' oid req vid uuid now resp p0 -> -> Hp0 Ho Hd|payload tok otok now resp -> -> Hn Hd|Hd Hacc].
    + cbn [accepted_on]. destruct (String.eqb_spec pid' pid) as [->|Hne].
      * assert (p0 = p) as -> by congruence.
        exists (Mongo.apply_vote oid now p). rewrite Hd, lookup_insert_eq.
        split_and!; done.
      * exists p. rewrite Hd, lookup_insert_ne by done. split_and!; done.
    + exists p. rewrite Hd, lookup_insert_ne by congruence. split_and!; done.
    + exists p. rewrite Hd, Hacc. split_and!; done.
  - intros * Hp. destruct (run_version_from cfg cs a pid p Hp) as (p' & Hp' & Hv).
    exists p'. split_and!; try done.
    pose proof (accepted_votes_nonneg pid cs (snd (run cfg a cs))). lia.
  - intros * Hp. by apply (run_version_new cfg cs init_app).
  - intros * Hij Hci Hri Hcj Hrj.
    destruct (accepted_snapshot_version _ _ _ _ _ _ _ _ _ _ Hci Hri) as [_ ->].
    destruct (accepted_snapshot_version _ _ _ _ _ _ _ _ _ _ Hcj Hrj) as [_ ->].
    pose proof (accepted_prefix_grows cfg pid cs init_app i j _ Hij Hci) as H.
    rewrite <- (run_reply_at _ _ _ _ _ _ Hci Hri) in H. cbn in H.
    rewrite String.eqb_refl in H. specialize (H eq_refl). lia.
Qed.

(** C6. A vote request on a poll that does not exist is answered NotFound
    (404); on a poll that exists but has no option with the supplied id it is
    answered InvalidOption (400), a different error; in both cases nothing is
    written. The request gets past option validation exactly when the one
    lookup on poll id and option id together finds a document. *)
Theorem option_validation_distinguishes_absences cfg pid oid req vid uuid now a a' r :
  vote_poll cfg pid oid req vid uuid now a = (a', r) ->
  (db_polls (db a) !! pid = None -> r = Raise NotFound /\ a' = a) /\
  (forall p, db_polls (db a) !! pid = Some p -> oid ∉ List.map id (options p) ->
     r = Raise InvalidOption /\ a' = a) /\
  NotFound <> InvalidOption /\
  (Mongo.find_poll_option (db a) pid oid = None <->
   r = Raise NotFound \/ r = Raise InvalidOption).
Proof.
  rewrite vote_poll_eq. intros E. split_and!.
  - intros Hn. unfold Mongo.find_poll_option, Mongo.find_poll in E. rewrite Hn in E.
    by injection E as <- <-.
  - intros p Hp Ho. unfold Mongo.find_poll_option, Mongo.find_poll in E. rewrite Hp in E.
    destruct (Mongo.has_option oid p) eqn:Hh; [by apply has_option_elem in Hh|].
    by injection E as <- <-.
  - done.
  - destruct (Mongo.find_poll_option (db a) pid oid) as [p|] eqn:Hf.
    + cbn zeta in E. split; [done|].
      destruct (_ >? _); [|destruct (existsb _ _)]; injection E as <- <-;
        intros [?|?]; done.
    + split; [|done]. intros _.
      destruct (Mongo.find_poll (db a) pid); injection E as <- <-; auto.
Qed.


(** C8. The fingerprint is the SHA-256 digest, in 64 hexadecimal digits, of
    the UTF-8 bytes of the salt, a colon and the address, and depends on
    nothing else: equal salts and equal addresses give equal digests, and
    under one salt two different addresses give different digests unless
    SHA-256 itself takes equal values on two different byte strings. The
    address is the first entry of the x-forwarded-for header (the text
    before the first comma, stripped of surrounding white space) when that
    entry is not empty; otherwise the host of the transport peer when there
    is one and it is not empty; otherwise the text unknown. Every header
    value has exactly one first entry, so the three cases cover every
    request. *)
Theorem fingerprint_deterministic_and_address_preference :
  (forall cfg ip,
     hash_ip cfg ip = SHA256.hexdigest (PyStr.encode_utf8 (IP_HASH_SALT cfg +:+ ":" +:+ ip)) /\
     String.length (hash_ip cfg ip) = 64%nat /\
     Forall (fun c => is_hex_digit c = true) (list_ascii_of_string (hash_ip cfg ip))) /\
  (forall cfg1 cfg2 ip1 ip2,
     IP_HASH_SALT cfg1 = IP_HASH_SALT cfg2 -> ip1 = ip2 ->
     hash_ip cfg1 ip1 = hash_ip cfg2 ip2) /\
  (forall cfg ip1 ip2,
     hash_ip cfg ip1 = hash_ip cfg ip2 ->
     ip1 = ip2 \/ exists m1 m2, m1 <> m2 /\ SHA256.hexdigest m1 = SHA256.hexdigest m2) /\
  (hash_ip default_settings "unknown"
   = "599108664abe17a4cbd8e6e2a76ad0259c57734e13b4fa2ab972d23b876bd194" /\
   hash_ip default_settings "203.0.113.7"
   = "12a39d79069a969ffa22ad4bd52f5dcc28e54fc559626b318b92a9fffee19a81" /\
   hash_ip {| IP_HASH_SALT := "pepper"; RATE_LIMIT_WINDOW_SECONDS := 60;
              RATE_LIMIT_MAX_ATTEMPTS := 15 |} "203.0.113.7"
   = "e0dc27fa1b25a23ba014e36d2a1f1f84450214ba108029b8c207dfaeb0e046f4") /\
  (forall header, exists entry,
     first_entry header entry /\ forall e, first_entry header e -> e = entry) /\
  (forall request entry,
     first_entry (headers_get (headers request) "x-forwarded-for" "") entry ->
     entry <> "" -> get_client_ip request = entry) /\
  (forall request peer,
     first_entry (headers_get (headers request) "x-forwarded-for" "") "" ->
     client request = Some peer -> host peer <> "" ->
     get_client_ip request = host peer) /\
  (forall request,
     first_entry (headers_get (headers request) "x-forwarded-for" "") "" ->
     client request = None \/ (exists peer, client request = Some peer /\ host peer = "") ->
     get_client_ip request = "unknown").
Proof.
  split; [intros cfg ip; split; [done|]; unfold hash_ip; apply hexdigest_shape|].
  split; [intros cfg1 cfg2 ip1 ip2 Hs ->; unfold hash_ip; by rewrite Hs|].
  split; [apply hash_ip_collision|].
  split; [split_and!; vm_compute; reflexivity|].
  split_and!.
  - intros header. eexists. split; [apply first_entry_exists|].
    intros e He. by apply first_entry_unique.
  - intros request entry He Hne. apply first_entry_unique in He.
    unfold get_client_ip. cbn zeta. rewrite <- He.
    destruct (headers_get (headers request) "x-forwarded-for" "") eqn:Eh.
    + cbn in He. congruence.
    + destruct entry; [done|]. done.
  - intros request peer He Hc Hh. apply first_entry_unique in He.
    unfold get_client_ip, client_host_or_unknown. cbn zeta. rewrite <- He, Hc.
    destruct (host peer); [done|]. by destruct (PyStr.truthy _).
  - intros request He Hc. apply first_entry_unique in He.
    unfold get_client_ip, client_host_or_unknown. cbn zeta. rewrite <- He.
    destruct Hc as [-> | (peer & -> & ->)]; by destruct (PyStr.truthy _).
Qed.

(** C9. An accepted vote keeps the poll's question and creation timestamp,
    the ids and texts of all its options in their order, and the counter of
    every option whose id is not the chosen one; it leaves every other poll
    untouched. What it changes is the counter of one option with the chosen
    id, total_votes, version and updated_at. *)
Theorem accepted_vote_frame cfg pid oid req vid uuid now a a' resp :
  vote_poll cfg pid oid req vid uuid now a = (a', Return resp) ->
  exists p p',
    db_polls (db a) !! pid = Some p /\ db_polls (db a') !! pid = Some p' /\
    question p' = question p /\ created_at p' = created_at p /\
    List.map id (options p') = List.map id (options p) /\
    List.map text (options p') = List.map text (options p) /\
    (forall i o o', options p !! i = Some o -> options p' !! i = Some o' ->
       id o <> oid -> votes o' = votes o) /\
    (exists i o, options p !! i = Some o /\ id o = oid /\
       options p' = <[i := with_votes o (votes o + 1)]> (options p)) /\
    total_votes p' = total_votes p + 1 /\ version p' = version p + 1 /\
    updated_at p' = now /\
    (forall q, q <> pid -> db_polls (db a') !! q = db_polls (db a) !! q).
Proof.
  intros E. apply accepted_vote_inv in E as (p & Hp & Ho & _ & _ & Hd & _).
  exists p, (Mongo.apply_vote oid now p). rewrite Hd, lookup_insert_eq.
  split_and!; try done; cbn.
  - apply inc_matched_ids.
  - apply inc_matched_texts.
  - intros i o o'. apply inc_matched_other.
  - destruct (inc_matched_spec oid (options p) Ho) as (i & o & ? & ? & _ & ?). by exists i, o.
  - intros q Hq. by rewrite lookup_insert_ne.
Qed.

(** C10 (as amended). When, after the ledger insert of a vote request has
    succeeded, other clients of the store have changed it so that the
    aggregate update matches no document, the request fails with
    InvalidOption (400) and the handler writes nothing more: the store is
    left as those clients left it, the inserted ledger vote included, and
    no poll counts the vote. The voter is then never admitted on that poll: a
    later request of the same voter changes no poll, and is answered
    DuplicateVote exactly when it names an option the poll now has and is
    within the rate limit, NotFound, InvalidOption or RateLimited otherwise. *)
Theorem unmatched_update_leaves_ledger_vote cfg f pid oid req vid uuid now a a' r :
  let d5 := after_ledger_insert cfg (db a) pid oid req vid uuid now in
  Mongo.find_poll_option (db a) pid oid <> None ->
  attempts_seen cfg (db a) pid req now <= RATE_LIMIT_MAX_ATTEMPTS cfg ->
  has_voted (db a) pid (resolve_voter_id vid uuid) = false ->
  Mongo.find_poll_option (f d5) pid oid = None ->
  vote_poll_among (racing 4 f) cfg pid oid req vid uuid now a = (a', r) ->
  r = Raise InvalidOption /\ db a' = f d5 /\
  poll_events a' = poll_events a /\ streams a' = streams a /\
  (db_votes (f d5) = db_votes d5 ->
   db_votes (db a') = db_votes (db a) ++ [vote_of cfg pid oid req vid uuid now] /\
   has_voted (db a') pid (resolve_voter_id vid uuid) = true /\
   forall oid2 req2 vid2 uuid2 now2 a2 r2,
     resolve_voter_id vid2 uuid2 = resolve_voter_id vid uuid ->
     vote_poll cfg pid oid2 req2 vid2 uuid2 now2 a' = (a2, r2) ->
     db_polls (db a2) = db_polls (db a') /\
     (r2 = Raise DuplicateVote <->
      Mongo.find_poll_option (db a') pid oid2 <> None /\
      attempts_seen cfg (db a') pid req2 now2 <= RATE_LIMIT_MAX_ATTEMPTS cfg) /\
     (r2 = Raise DuplicateVote \/ r2 = Raise NotFound \/ r2 = Raise InvalidOption \/
      r2 = Raise RateLimited)).
Proof.
  intros d5 Hf Hrate Hv Hgone.
  unfold vote_poll_among.
  destruct (Mongo.find_poll_option (db a) pid oid) as [p|] eqn:Hp; [clear Hf|done].
  change (racing 4 f 1 (db a)) with (db a). cbn zeta.
  match goal with |- context [racing 4 f 2 ?d] => change (racing 4 f 2 d) with d end.
  change (Mongo.count_attempts _ _ _ _) with (attempts_seen cfg (db a) pid req now).
  destruct (Z.gtb_spec (attempts_seen cfg (db a) pid req now) (RATE_LIMIT_MAX_ATTEMPTS cfg));
    [lia|].
  match goal with |- context [racing 4 f 3 ?d] => change (racing 4 f 3 d) with d end.
  change (Mongo.insert_attempt (db a) _)
    with (set_vote_attempts (db a) (db_vote_attempts (db a) ++ [attempt_of cfg pid req now])).
  unfold Mongo.insert_vote. cbn [db_votes set_vote_attempts].
  change (existsb (Mongo.same_key _) (db_votes (db a)))
    with (existsb (Mongo.same_key (vote_of cfg pid oid req vid uuid now)) (db_votes (db a))).
  rewrite has_voted_same_key, Hv.
  match goal with |- context [racing 4 f 4 ?d] => change (racing 4 f 4 d) with (f d5) end.
  unfold Mongo.update_vote. rewrite Hgone. cbn.
  intros [= <- <-]. split_and!; try done.
  intros Hkeep. cbn [db set_db].
  assert (Hin : has_voted (f d5) pid (resolve_voter_id vid uuid) = true).
  { unfold has_voted. rewrite Hkeep. cbn [d5 after_ledger_insert db_votes].
    rewrite existsb_app. cbn. rewrite !String.eqb_refl. cbn. apply orb_true_r. }
  split_and!; [done|done|].
  intros oid2 req2 vid2 uuid2 now2 a2 r2 Hsame E.
  assert (Hv2 : has_voted (db (set_db a (f d5))) pid (resolve_voter_id vid2 uuid2) = true)
    by (by rewrite Hsame).
  destruct (recorded_voter_outcome _ _ _ _ _ _ _ _ _ _ Hv2 E)
    as (Hpolls & _ & _ & H404 & H400 & H429 & H409).
  change (db (set_db a (f d5))) with (f d5) in *.
  split; [done|].
  destruct (Mongo.find_poll_option (f d5) pid oid2) as [q|] eqn:Hq.
  - destruct (Z_le_gt_dec (attempts_seen cfg (f d5) pid req2 now2)
                (RATE_LIMIT_MAX_ATTEMPTS cfg)) as [Hle|Hgt].
    + rewrite H409 by done. split; [|by left]. done.
    + rewrite H429 by done. split; [|by do 3 right].
      split; [done|]. intros [_ ?]. lia.
  - destruct (Mongo.find_poll (f d5) pid) as [q|] eqn:Hq'.
    + rewrite H400 by done. split; [|by right; right; left].
      split; [done|]. by intros [? _].
    + rewrite H404 by done. split; [|by right; left].
      split; [done|]. by intros [? _].
Qed.

(** ** The statements at concrete runs *)

Example sha256_empty :
  SHA256.hexdigest [] = "e3b0c44298fc1c149afbf4c8996fb92427ae41e4649b934ca495991b7852b855".
Proof. vm_compute. reflexivity. Qed.

Example sha256_abc :
  SHA256.hexdigest (PyStr.encode_utf8 "abc")
  = "ba7816bf8f01cfea414140de5dae2223b00361a396177a9cb410ff61f20015ad".
Proof. vm_compute. reflexivity. Qed.

Example sha256_two_blocks :
  SHA256.hexdigest (List.repeat 97 70)
  = "6bd5e5034855a11241f0dee8fc72850ffd9955b28347a86428b5fa19119f6ad0".
Proof. vm_compute. reflexivity. Qed.

Example hash_ip_unknown :
  hash_ip default_settings "unknown"
  = "599108664abe17a4cbd8e6e2a76ad0259c57734e13b4fa2ab972d23b876bd194".
Proof. vm_compute. reflexivity. Qed.

(** 14 November 2023 less 64 000 000 000 seconds is before [datetime.min];
    less 60 seconds it is not. *)
Example window_start_out_of_range :
  window_start_defined {| IP_HASH_SALT := "change-me-in-production";
                          RATE_LIMIT_WINDOW_SECONDS := 64000000000;
                          RATE_LIMIT_MAX_ATTEMPTS := 15 |} 1700000000000000 = false /\
  window_start_defined default_settings 1700000000000000 = true.
Proof. split; vm_compute; reflexivity. Qed.

(** An address with a character above 127, which UTF-8 writes in two bytes. *)
Example hash_ip_two_byte_character :
  hash_ip default_settings ("caf" +:+ String (ascii_of_nat 233) EmptyString)
  = "4e59c658c25b49386fb3ebd8d123974c5d7eecb5c9fd5130e5adee6eaa20d01d".
Proof. vm_compute. reflexivity. Qed.

Example scenario_a :
  db_polls (db Scenario.created) !! "poll-1" = Some (new_poll Scenario.pizza Scenario.option_token 0)
  /\ db_polls (db Scenario.voted) !! "poll-1" = Some Scenario.pizza_leads
  /\ snd (run default_settings Scenario.voted [Scenario.vote "voter-1" 2])
     = [Voted (Raise DuplicateVote)]
  /\ db_polls (db (fst (run default_settings Scenario.voted [Scenario.vote "voter-1" 2])))
     = db_polls (db Scenario.voted).
Proof. split_and!; vm_compute; reflexivity. Qed.

(** C1, as stated, fails: voter-1 is in the ledger of poll-1, and the
    sixteenth request of that voter within sixteen seconds, for the option
    already voted for, is answered RateLimited, not DuplicateVote; a request
    of that voter for an option the poll does not have is answered
    InvalidOption. *)
Lemma duplicate_vote_preempted_by_earlier_gates :
  has_voted (db Scenario.retried) "poll-1" "voter-1" = true /\
  snd (vote_poll default_settings "poll-1" "opt-pizza" Scenario.browser
         (Some "voter-1") "fresh-uuid" 16000000 Scenario.retried) = Raise RateLimited /\
  snd (vote_poll default_settings "poll-1" "opt-pizza" Scenario.browser
         (Some "voter-1") "fresh-uuid" 16000000 Scenario.retried) <> Raise DuplicateVote /\
  has_voted (db Scenario.voted) "poll-1" "voter-1" = true /\
  snd (vote_poll default_settings "poll-1" "opt-sushi" Scenario.browser
         (Some "voter-1") "fresh-uuid" 2000000 Scenario.voted) = Raise InvalidOption.
Proof. split_and!; vm_compute; (reflexivity || discriminate). Qed.

Lemma recorded_voter_never_mutates_aggregate_witness :
  let a' := fst (run default_settings Scenario.voted [Scenario.vote "voter-1" 2]) in
  has_voted (db Scenario.voted) "poll-1" (resolve_voter_id (Some "voter-1") "fresh-uuid")
  = true /\
  vote_poll default_settings "poll-1" "opt-pizza" Scenario.browser (Some "voter-1")
    "fresh-uuid" 2000000 Scenario.voted = (a', Raise DuplicateVote) /\
  db_polls (db a') = db_polls (db Scenario.voted) /\
  Mongo.find_poll_option (db Scenario.voted) "poll-1" "opt-pizza" <> None /\
  attempts_seen default_settings (db Scenario.voted) "poll-1" Scenario.browser 2000000
  <= RATE_LIMIT_MAX_ATTEMPTS default_settings.
Proof.
  intros a'.
  assert (Hv : has_voted (db Scenario.voted) "poll-1"
                 (resolve_voter_id (Some "voter-1") "fresh-uuid") = true)
    by (vm_compute; reflexivity).
  assert (E : vote_poll default_settings "poll-1" "opt-pizza" Scenario.browser
                (Some "voter-1") "fresh-uuid" 2000000 Scenario.voted
              = (a', Raise DuplicateVote))
    by (vm_compute; reflexivity).
  destruct (recorded_voter_never_mutates_aggregate default_settings "poll-1" "opt-pizza"
              Scenario.browser (Some "voter-1") "fresh-uuid" 2000000 Scenario.voted
              a' (Raise DuplicateVote) Hv E) as (H1 & H2 & _).
  destruct (proj1 H2 eq_refl) as [H3 H4].
  split_and!; assumption.
Defined.

Lemma total_votes_is_sum_of_option_votes_witness :
  reachable default_settings Scenario.voted /\
  db_polls (db Scenario.voted) !! "poll-1" = Some Scenario.pizza_leads /\
  total_votes Scenario.pizza_leads = sum_votes (options Scenario.pizza_leads).
Proof.
  assert (Hr : reachable default_settings Scenario.voted)
    by (exists [Scenario.create; Scenario.vote "voter-1" 1]; vm_compute; reflexivity).
  assert (Hp : db_polls (db Scenario.voted) !! "poll-1" = Some Scenario.pizza_leads)
    by (vm_compute; reflexivity).
  split; [exact Hr|]. split; [exact Hp|].
  exact (proj1 (proj2 (proj2 (total_votes_is_sum_of_option_votes default_settings))
                  Scenario.voted Hr) "poll-1" Scenario.pizza_leads Hp).
Defined.

(** C3, as stated, fails. The log holds fifteen attempts of the fingerprint
    on poll-1, all stamped at instant 0; a request 60.0005 seconds later is
    answered RateLimited although the only entry of the log stamped at or
    after now minus 60 seconds is its own: the count compares milliseconds,
    and the fifteen are in the millisecond the window starts in. And of
    sixteen requests of one fingerprint on poll-1 within sixteen seconds
    that name an option the poll does not have, the sixteenth is not
    RateLimited: each is answered InvalidOption before the rate gate. *)
Lemma rate_gate_compares_milliseconds_and_follows_validation :
  List.length (db_vote_attempts (db Scenario.aged)) = 15%nat /\
  forallb (fun x => attempted_at x =? 0) (db_vote_attempts (db Scenario.aged)) = true /\
  snd Scenario.late = Raise RateLimited /\
  List.length (List.filter (fun x => 60000500 - 60 * 1000000 <=? attempted_at x)
                 (db_vote_attempts (db (fst Scenario.late)))) = 1%nat /\
  snd (run default_settings Scenario.created
         (List.map (fun n => Scenario.vote_sushi "voter-2" (Z.of_nat n)) (seq 1 16)))
  = List.repeat (Voted (Raise InvalidOption)) 16.
Proof. split_and!; vm_compute; reflexivity. Qed.

Lemma rate_gate_counts_attempts_in_window_witness :
  let c := Scenario.vote (Scenario.voter_name 16) 16 in
  RATE_LIMIT_MAX_ATTEMPTS default_settings = 15 /\
  forallb (fun c => window_start_defined default_settings (call_time c)) Scenario.crowd
  = true /\
  forallb (vote_from default_settings "poll-1" Scenario.fingerprint (db Scenario.created))
          (requests_from default_settings "poll-1" Scenario.fingerprint Scenario.crowd)
  = true /\
  inside_window default_settings
    (requests_from default_settings "poll-1" Scenario.fingerprint Scenario.crowd) = true /\
  no_earlier_attempts default_settings "poll-1" Scenario.fingerprint (db Scenario.created)
    (requests_from default_settings "poll-1" Scenario.fingerprint Scenario.crowd) = true /\
  Scenario.crowd !! 45%nat = Some c /\
  request_from default_settings "poll-1" Scenario.fingerprint c = true /\
  List.length (requests_from default_settings "poll-1" Scenario.fingerprint
                 (take 45 Scenario.crowd)) = 15%nat /\
  snd (run default_settings Scenario.created Scenario.crowd) !! 45%nat
  = Some (Voted (Raise RateLimited)).
Proof.
  intros c.
  assert (H1 : RATE_LIMIT_MAX_ATTEMPTS default_settings = 15) by (vm_compute; reflexivity).
  assert (H2 : forallb (fun c => window_start_defined default_settings (call_time c))
                 Scenario.crowd = true) by (vm_compute; reflexivity).
  assert (H3 : forallb (vote_from default_settings "poll-1" Scenario.fingerprint
                          (db Scenario.created))
                 (requests_from default_settings "poll-1" Scenario.fingerprint Scenario.crowd)
               = true) by (vm_compute; reflexivity).
  assert (H4 : inside_window default_settings
                 (requests_from default_settings "poll-1" Scenario.fingerprint Scenario.crowd)
               = true) by (vm_compute; reflexivity).
  assert (H5 : no_earlier_attempts default_settings "poll-1" Scenario.fingerprint
                 (db Scenario.created)
                 (requests_from default_settings "poll-1" Scenario.fingerprint Scenario.crowd)
               = true) by (vm_compute; reflexivity).
  assert (H6 : Scenario.crowd !! 45%nat = Some c) by (vm_compute; reflexivity).
  assert (H7 : request_from default_settings "poll-1" Scenario.fingerprint c = true)
    by (vm_compute; reflexivity).
  assert (H8 : List.length (requests_from default_settings "poll-1" Scenario.fingerprint
                              (take 45 Scenario.crowd)) = 15%nat)
    by (vm_compute; reflexivity).
  split_and!; try assumption.
  destruct (proj2 (proj2 (proj2 (proj2
              (rate_gate_counts_attempts_in_window default_settings))))
              "poll-1" Scenario.fingerprint Scenario.created Scenario.crowd 45%nat c
              H1 H2 H3 H4 H5 H6 H7) as [_ H].
  exact (H H8).
Defined.

(** C4, as stated, fails: a vote request for an option the poll does not
    have is answered InvalidOption and appends nothing to the attempt log;
    after sixteen such requests of one fingerprint within sixteen seconds
    the log is still empty and the next request is accepted, not
    RateLimited. *)
Lemma invalid_option_request_logs_no_attempt :
  snd (vote_poll default_settings "poll-1" "opt-sushi" Scenario.browser
         (Some "voter-2") "fresh-uuid" 1000000 Scenario.created) = Raise InvalidOption /\
  db_vote_attempts
    (db (fst (vote_poll default_settings "poll-1" "opt-sushi" Scenario.browser
                (Some "voter-2") "fresh-uuid" 1000000 Scenario.created)))
  = db_vote_attempts (db Scenario.created) /\
  db_vote_attempts
    (db (fst (run default_settings Scenario.created
                (List.map (fun n => Scenario.vote_sushi "voter-2" (Z.of_nat n)) (seq 1 16)))))
  = [] /\
  snd (run default_settings Scenario.created
         (List.map (fun n => Scenario.vote_sushi "voter-2" (Z.of_nat n)) (seq 1 16)
          ++ [Scenario.vote "voter-2" 17])) !! 16%nat
  = Some (Voted (Return {| body := ("poll-1", {| question := "Pizza or Pasta?";
                                                 created_at := 0; updated_at := 17000000;
                                                 version := 2; total_votes := 1;
                                                 options := [{| id := "opt-pizza"; text := "Pizza"; votes := 1 |};
                                                             {| id := "opt-pasta"; text := "Pasta"; votes := 0 |}] |});
                           set_cookie_voter_id := "voter-2" |})).
Proof. split_and!; vm_compute; reflexivity. Qed.

Lemma attempt_logged_after_validation_witness :
  forallb (vote_from default_settings "poll-1" Scenario.fingerprint (db Scenario.created))
          Scenario.burst = true /\
  forallb (fun c => window_start default_settings 17000000 <=? call_time c) Scenario.burst
  = true /\
  RATE_LIMIT_MAX_ATTEMPTS default_settings < Z.of_nat (List.length Scenario.burst) /\
  snd (vote_poll default_settings "poll-1" "opt-pasta" Scenario.browser
         (Some "voter-q") "fresh-uuid" 17000000
         (fst (run default_settings Scenario.created Scenario.burst))) = Raise RateLimited.
Proof.
  assert (H1 : forallb (vote_from default_settings "poll-1" Scenario.fingerprint
                          (db Scenario.created)) Scenario.burst = true)
    by (vm_compute; reflexivity).
  assert (H2 : forallb (fun c => window_start default_settings 17000000 <=? call_time c)
                 Scenario.burst = true)
    by (vm_compute; reflexivity).
  assert (H3 : RATE_LIMIT_MAX_ATTEMPTS default_settings < Z.of_nat (List.length Scenario.burst))
    by (vm_compute; reflexivity).
  assert (H4 : hash_ip default_settings (get_client_ip Scenario.browser) = Scenario.fingerprint)
    by (vm_compute; reflexivity).
  assert (H5 : Mongo.find_poll_option (db Scenario.created) "poll-1" "opt-pasta" <> None)
    by (vm_compute; discriminate).
  split_and!; try assumption.
  exact (proj2 (attempt_logged_after_validation default_settings)
           "poll-1" Scenario.fingerprint Scenario.created Scenario.burst "opt-pasta"
           Scenario.browser (Some "voter-q") "fresh-uuid" 17000000 H1 H2 H3 H4 H5).
Defined.

Lemma version_counts_accepted_votes_witness :
  let cs := [Scenario.create; Scenario.vote "voter-1" 1] in
  db_polls (db (fst (run default_settings init_app cs))) !! "poll-1"
  = Some Scenario.pizza_leads /\
  version Scenario.pizza_leads
  = 1 + accepted_votes "poll-1" cs (snd (run default_settings init_app cs)).
Proof.
  intros cs.
  assert (Hp : db_polls (db (fst (run default_settings init_app cs))) !! "poll-1"
               = Some Scenario.pizza_leads) by (vm_compute; reflexivity).
  split; [exact Hp|].
  exact (proj1 (proj2 (proj2 (proj2 (version_counts_accepted_votes default_settings))))
           cs "poll-1" Scenario.pizza_leads Hp).
Defined.

Lemma option_validation_distinguishes_absences_witness :
  vote_poll default_settings "poll-1" "opt-sushi" Scenario.browser None "fresh-uuid"
    1000000 Scenario.created = (Scenario.created, Raise InvalidOption) /\
  NotFound <> InvalidOption /\
  Mongo.find_poll_option (db Scenario.created) "poll-1" "opt-sushi" = None.
Proof.
  assert (E : vote_poll default_settings "poll-1" "opt-sushi" Scenario.browser None
                "fresh-uuid" 1000000 Scenario.created
              = (Scenario.created, Raise InvalidOption))
    by (vm_compute; reflexivity).
  destruct (option_validation_distinguishes_absences default_settings "poll-1" "opt-sushi"
              Scenario.browser None "fresh-uuid" 1000000 Scenario.created
              Scenario.created (Raise InvalidOption) E) as (_ & _ & H3 & H4).
  split_and!; [exact E|exact H3|]. apply H4. right. reflexivity.
Defined.



Lemma fingerprint_deterministic_and_address_preference_witness :
  first_entry (headers_get (headers Scenario.browser) "x-forwarded-for" "") "203.0.113.7" /\
  get_client_ip Scenario.browser = "203.0.113.7".
Proof.
  assert (He : first_entry (headers_get (headers Scenario.browser) "x-forwarded-for" "")
                 "203.0.113.7")
    by exact (first_entry_exists "203.0.113.7, 10.0.0.1").
  split; [exact He|].
  apply (proj1 (proj2 (proj2 (proj2 (proj2 (proj2
            fingerprint_deterministic_and_address_preference)))))
           Scenario.browser "203.0.113.7" He).
  discriminate.
Defined.

Lemma accepted_vote_frame_witness :
  let resp := {| body := ("poll-1", Scenario.pizza_leads); set_cookie_voter_id := "voter-1" |} in
  vote_poll default_settings "poll-1" "opt-pizza" Scenario.browser (Some "voter-1")
    "fresh-uuid" 1000000 Scenario.created = (Scenario.voted, Return resp) /\
  exists p p',
    db_polls (db Scenario.created) !! "poll-1" = Some p /\
    db_polls (db Scenario.voted) !! "poll-1" = Some p' /\
    question p' = question p /\ created_at p' = created_at p /\
    List.map id (options p') = List.map id (options p) /\
    List.map text (options p') = List.map text (options p).
Proof.
  intros resp.
  assert (E : vote_poll default_settings "poll-1" "opt-pizza" Scenario.browser (Some "voter-1")
                "fresh-uuid" 1000000 Scenario.created = (Scenario.voted, Return resp))
    by (vm_compute; reflexivity).
  split; [exact E|].
  destruct (accepted_vote_frame _ _ _ _ _ _ _ _ _ _ E)
    as (p & p' & H1 & H2 & H3 & H4 & H5 & H6 & _).
  exists p, p'. split_and!; assumption.
Defined.

(** C10, as stated, fails: voter-1's request for Pizza passed validation,
    the rate gate and the ledger insert, and then found the option gone; it
    was answered InvalidOption and the ledger keeps the vote. The same
    request sent again is answered InvalidOption, not DuplicateVote; and of
    fifteen later requests of that voter for Pasta, one a second, fourteen
    are answered DuplicateVote and the fifteenth RateLimited. *)
Lemma retry_after_lost_race_is_not_always_duplicate :
  snd Scenario.lost_race = Raise InvalidOption /\
  has_voted (db (fst Scenario.lost_race)) "poll-1" "voter-1" = true /\
  snd (vote_poll default_settings "poll-1" "opt-pizza" Scenario.browser (Some "voter-1")
         "fresh-uuid" 2000000 (fst Scenario.lost_race)) = Raise InvalidOption /\
  snd (vote_poll default_settings "poll-1" "opt-pasta" Scenario.browser (Some "voter-1")
         "fresh-uuid" 2000000 (fst Scenario.lost_race)) = Raise DuplicateVote /\
  snd (run default_settings (fst Scenario.lost_race)
         (List.map (fun n => Scenario.vote_pasta "voter-1" (Z.of_nat n)) (seq 2 15))) !! 14%nat
  = Some (Voted (Raise RateLimited)).
Proof. split_and!; vm_compute; reflexivity. Qed.

Lemma unmatched_update_leaves_ledger_vote_witness :
  let d5 := after_ledger_insert default_settings (db Scenario.created) "poll-1" "opt-pizza"
              Scenario.browser (Some "voter-1") "fresh-uuid" 1000000 in
  Mongo.find_poll_option (db Scenario.created) "poll-1" "opt-pizza" <> None /\
  attempts_seen default_settings (db Scenario.created) "poll-1" Scenario.browser 1000000
  <= RATE_LIMIT_MAX_ATTEMPTS default_settings /\
  has_voted (db Scenario.created) "poll-1" (resolve_voter_id (Some "voter-1") "fresh-uuid")
  = false /\
  Mongo.find_poll_option (Scenario.drop_pizza d5) "poll-1" "opt-pizza" = None /\
  vote_poll_among (racing 4 Scenario.drop_pizza) default_settings "poll-1" "opt-pizza"
    Scenario.browser (Some "voter-1") "fresh-uuid" 1000000 Scenario.created
  = (fst Scenario.lost_race, Raise InvalidOption) /\
  db (fst Scenario.lost_race) = Scenario.drop_pizza d5 /\
  has_voted (db (fst Scenario.lost_race)) "poll-1"
    (resolve_voter_id (Some "voter-1") "fresh-uuid") = true.
Proof.
  intros d5.
  assert (H1 : Mongo.find_poll_option (db Scenario.created) "poll-1" "opt-pizza" <> None)
    by (vm_compute; discriminate).
  assert (H2 : attempts_seen default_settings (db Scenario.created) "poll-1"
                 Scenario.browser 1000000 <= RATE_LIMIT_MAX_ATTEMPTS default_settings)
    by (apply Z.leb_le; vm_compute; reflexivity).
  assert (H3 : has_voted (db Scenario.created) "poll-1"
                 (resolve_voter_id (Some "voter-1") "fresh-uuid") = false)
    by (vm_compute; reflexivity).
  assert (H4 : Mongo.find_poll_option (Scenario.drop_pizza d5) "poll-1" "opt-pizza" = None)
    by (vm_compute; reflexivity).
  assert (E : vote_poll_among (racing 4 Scenario.drop_pizza) default_settings "poll-1"
                "opt-pizza" Scenario.browser (Some "voter-1") "fresh-uuid" 1000000
                Scenario.created = (fst Scenario.lost_race, Raise InvalidOption))
    by (vm_compute; reflexivity).
  assert (H5 : db_votes (Scenario.drop_pizza d5) = db_votes d5)
    by (vm_compute; reflexivity).
  destruct (unmatched_update_leaves_ledger_vote default_settings Scenario.drop_pizza
              "poll-1" "opt-pizza" Scenario.browser (Some "voter-1") "fresh-uuid" 1000000
              Scenario.created (fst Scenario.lost_race) (Raise InvalidOption)
              H1 H2 H3 H4 E) as (_ & Hd & _ & _ & Hkeep).
  destruct (Hkeep H5) as (_ & Hv & _).
  split_and!; assumption.
Defined.

(** * Further properties of the handlers *)

(** ** The store along a run *)

Lemma handle_store cfg a c a' r : handle cfg a c = (a', r) -> StoreStep cfg a a' c r.
Proof.
  destruct c as [payload tok otok now|pid|pid oid req vid uuid now|pid|sid now]; cbn.
  - destruct (create_poll payload tok otok now a) as [a1 [resp|e]] eqn:E; intros [= <- <-].
    + apply created_poll_inv in E as (? & ? & ? & ? & _). by eapply store_create.
    + apply failed_create_inv in E as ->. by apply store_same.
  - intros [= <- <-]. by apply store_same.
  - destruct (vote_poll cfg pid oid req vid uuid now a) as [a1 [resp|e]] eqn:E; intros [= <- <-].
    + apply accepted_vote_inv in E as (p & ? & ? & _ & ? & ? & ? & ? & _). by eapply store_vote.
    + apply rejected_vote_inv in E as (? & ? & _ & _ & [(_ & -> & _)|(_ & ? & _)]).
      * by apply store_same.
      * by eapply store_attempt.
  - pose proof (poll_events_stream_db pid a) as H.
    destruct (poll_events_stream pid a) as [a1 n]. intros [= <- <-]. by apply store_same.
  - pose proof (event_generator_db sid now a) as H.
    destruct (event_generator sid now a) as [a1 b]. intros [= <- <-]. by apply store_same.
Qed.

Lemma has_voted_elem d pid voter :
  has_voted d pid voter = true <-> (pid, voter) ∈ List.map ledger_key (db_votes d).
Proof.
  unfold has_voted. rewrite existsb_exists, list_elem_of_In, in_map_iff.
  split.
  - intros (v & Hv & H). apply andb_prop in H as [H1 H2].
    apply String.eqb_eq in H1, H2. exists v. unfold ledger_key. by subst.
  - intros (v & [= <- <-] & Hv). exists v. by rewrite !String.eqb_refl.
Qed.

Lemma handle_ledger_unique cfg a c :
  NoDup (List.map ledger_key (db_votes (db a))) ->
  NoDup (List.map ledger_key (db_votes (db (fst (handle cfg a c))))).
Proof.
  intros Hn. destruct (handle cfg a c) as [a' r] eqn:E. cbn [fst].
  destruct (handle_store _ _ _ _ _ E) as
    [pid oid req vid uuid now resp p _ _ _ _ Hv _ Hvotes _| | |Hd _].
  - rewrite Hvotes, List.map_app. cbn [List.map]. apply NoDup_app. split_and!; [done| |].
    + intros k Hk Hin. apply list_elem_of_singleton in Hin as ->.
      apply has_voted_elem in Hk. cbn in Hk. congruence.
    + apply NoDup_singleton.
  - congruence.
  - congruence.
  - by rewrite Hd.
Qed.

Lemma run_invariant cfg (P : App -> Prop) :
  (forall a c, P a -> P (fst (handle cfg a c))) ->
  forall cs a, P a -> P (fst (run cfg a cs)).
Proof.
  intros Hstep cs. induction cs as [|c cs IH]; intros a Ha; [done|].
  rewrite run_cons. cbn [fst]. apply IH. by apply Hstep.
Qed.

(** X1. At most one ledger entry per (poll, voter): in every state the
    service can reach, no two votes of the ledger agree on both poll_id and
    voter_id. *)
Theorem ledger_holds_one_vote_per_voter cfg a :
  reachable cfg a -> NoDup (List.map ledger_key (db_votes (db a))).
Proof.
  intros [cs <-]. apply (run_invariant cfg (fun a => NoDup (List.map ledger_key (db_votes (db a))))).
  - intros. by apply handle_ledger_unique.
  - apply NoDup_nil_2.
Qed.

Lemma ledger_of_app d d' pid v :
  db_votes d' = db_votes d ++ [v] ->
  ledger_of d' pid = ledger_of d pid ++ (if String.eqb (v_poll_id v) pid then [v] else []).
Proof. unfold ledger_of. intros ->. by rewrite List.filter_app. Qed.

Lemma ledger_of_option_app d d' pid oid v :
  db_votes d' = db_votes d ++ [v] ->
  ledger_of_option d' pid oid
  = ledger_of_option d pid oid
    ++ (if String.eqb (v_poll_id v) pid && String.eqb (v_option_id v) oid then [v] else []).
Proof. unfold ledger_of_option. intros ->. by rewrite List.filter_app. Qed.

Lemma ledger_of_same d d' pid : db_votes d' = db_votes d -> ledger_of d' pid = ledger_of d pid.
Proof. unfold ledger_of. by intros ->. Qed.

Lemma ledger_of_option_same d d' pid oid :
  db_votes d' = db_votes d -> ledger_of_option d' pid oid = ledger_of_option d pid oid.
Proof. unfold ledger_of_option. by intros ->. Qed.

Lemma options_with_apply_vote oid' oid now p :
  Mongo.has_option oid p = true ->
  sum_votes (options_with oid' (Mongo.apply_vote oid now p))
  = sum_votes (options_with oid' p) + (if String.eqb oid oid' then 1 else 0).
Proof.
  unfold Mongo.has_option, options_with. cbn [options Mongo.apply_vote].
  induction (options p) as [|x rest IH]; [done|].
  cbn [existsb Mongo.inc_matched List.filter].
  destruct (String.eqb_spec (id x) oid) as [E|E].
  - intros _. cbn [List.filter id]. rewrite E.
    destruct (String.eqb oid oid'); cbn [sum_votes votes]; lia.
  - cbn [orb]. intros H. cbn [List.filter].
    destruct (String.eqb (id x) oid'); cbn [sum_votes]; rewrite (IH H); lia.
Qed.

Lemma options_with_new_poll oid payload otok now :
  sum_votes (options_with oid (new_poll payload otok now)) = 0.
Proof.
  unfold options_with.
  destruct (new_poll_zero payload otok now) as (_ & _ & Hz & _).
  induction Hz as [|x rest Hx _ IH]; [done|].
  cbn [List.filter]. destruct (String.eqb (id x) oid); cbn [sum_votes]; lia.
Qed.

Lemma ledger_of_elem d pid v : v ∈ ledger_of d pid <-> v ∈ db_votes d /\ v_poll_id v = pid.
Proof.
  unfold ledger_of. rewrite !list_elem_of_In, filter_In, String.eqb_eq. done.
Qed.

Lemma ledger_of_option_nil d pid oid : ledger_of d pid = [] -> ledger_of_option d pid oid = [].
Proof.
  unfold ledger_of, ledger_of_option.
  induction (db_votes d) as [|v l IH]; [done|]. cbn [List.filter].
  destruct (String.eqb (v_poll_id v) pid); [done|]. cbn. apply IH.
Qed.

Lemma handle_ledger_agrees cfg a c :
  ledger_agrees a -> ledger_agrees (fst (handle cfg a c)).
Proof.
  intros [I1 I2]. destruct (handle cfg a c) as [a' r] eqn:E. cbn [fst].
  destruct (handle_store _ _ _ _ _ E) as
    [pid oid req vid uuid now resp p _ _ Hp Ho _ Hpolls Hvotes _
    |payload tok otok now resp _ _ Hn Hpolls Hvotes _
    |pid oid req vid uuid now e _ _ Hpolls Hvotes _
    |Hd _].
  - split.
    + intros v. rewrite Hvotes, Hpolls, elem_of_app, list_elem_of_singleton.
      intros [Hv | ->].
      * destruct (I1 v Hv) as (q & Hq & Hoq).
        destruct (decide (pid = v_poll_id v)) as [Heq|Hne].
        -- rewrite <- Heq in *. rewrite lookup_insert_eq. eexists. split; [done|].
           rewrite apply_vote_has_option. congruence.
        -- rewrite lookup_insert_ne by done. eauto.
      * cbn. rewrite lookup_insert_eq. eexists. split; [done|].
        by rewrite apply_vote_has_option.
    + intros q pq. rewrite Hpolls.
      rewrite (ledger_of_app _ _ q _ Hvotes).
      destruct (decide (pid = q)) as [<-|Hne].
      * rewrite lookup_insert_eq. intros [= <-].
        destruct (I2 pid p Hp) as [Ht Hs]. cbn [v_poll_id vote_of].
        rewrite String.eqb_refl, List.length_app. cbn [List.length Mongo.apply_vote total_votes].
        split; [lia|]. intros oid'.
        rewrite (ledger_of_option_app _ _ pid oid' _ Hvotes), options_with_apply_vote by done.
        cbn [v_poll_id v_option_id vote_of]. rewrite String.eqb_refl, Hs, List.length_app.
        cbn [andb]. destruct (String.eqb oid oid'); cbn [List.length]; lia.
      * rewrite lookup_insert_ne by done. intros Hq.
        destruct (I2 q pq Hq) as [Ht Hs]. cbn [v_poll_id vote_of].
        destruct (String.eqb_spec pid q); [done|]. rewrite app_nil_r. split; [done|].
        intros oid'. rewrite (ledger_of_option_app _ _ q oid' _ Hvotes).
        cbn [v_poll_id vote_of]. destruct (String.eqb_spec pid q); [done|].
        cbn [andb]. by rewrite app_nil_r.
  - split.
    + intros v. rewrite Hvotes, Hpolls. intros Hv.
      destruct (I1 v Hv) as (q & Hq & Hoq).
      rewrite lookup_insert_ne by congruence. eauto.
    + intros q pq. rewrite Hpolls, (ledger_of_same _ _ q Hvotes).
      destruct (decide (tok = q)) as [<-|Hne].
      * rewrite lookup_insert_eq. intros [= <-].
        assert (Hnil : ledger_of (db a) tok = []).
        { apply elem_of_nil_inv. intros v Hv. apply ledger_of_elem in Hv as [Hv <-].
          destruct (I1 v Hv) as (q & Hq & _). congruence. }
        rewrite Hnil. split; [done|]. intros oid.
        rewrite (ledger_of_option_same _ _ tok oid Hvotes), (ledger_of_option_nil _ _ _ Hnil).
        apply options_with_new_poll.
      * rewrite lookup_insert_ne by done. intros Hq.
        destruct (I2 q pq Hq) as [Ht Hs]. split; [done|]. intros oid.
        by rewrite (ledger_of_option_same _ _ q oid Hvotes).
  - split.
    + intros v. rewrite Hvotes, Hpolls. apply I1.
    + intros q pq. rewrite Hpolls, (ledger_of_same _ _ q Hvotes). intros Hq.
      destruct (I2 q pq Hq) as [Ht Hs]. split; [done|]. intros oid'.
      by rewrite (ledger_of_option_same _ _ q oid' Hvotes).
  - unfold ledger_agrees. rewrite Hd. by split.
Qed.

Lemma reachable_ledger_agrees cfg a : reachable cfg a -> ledger_agrees a.
Proof.
  intros [cs <-]. apply (run_invariant cfg ledger_agrees).
  - intros. by apply handle_ledger_agrees.
  - split.
    + intros v Hv. by apply not_elem_of_nil in Hv.
    + intros pid p. change (db_polls (db init_app)) with (∅ : gmap string Poll).
      by rewrite lookup_empty.
Qed.

Lemma handle_version_total cfg a c :
  (forall pid p, db_polls (db a) !! pid = Some p -> version p = 1 + total_votes p) ->
  forall pid p, db_polls (db (fst (handle cfg a c))) !! pid = Some p ->
    version p = 1 + total_votes p.
Proof.
  intros Ha. destruct (handle cfg a c) as [a' r] eqn:E. cbn [fst].
  destruct (handle_polls _ _ _ _ _ E) as
    [pid oid req vid uuid now resp p _ _ Hp Ho Hd|payload tok otok now resp _ _ Hn Hd|Hd _];
    intros q pq; rewrite Hd.
  - destruct (decide (pid = q)) as [<-|Hne].
    + rewrite lookup_insert_eq. intros [= <-]. cbn. rewrite (Ha _ _ Hp). lia.
    + rewrite lookup_insert_ne by done. apply Ha.
  - destruct (decide (tok = q)) as [<-|Hne].
    + rewrite lookup_insert_eq. by intros [= <-].
    + rewrite lookup_insert_ne by done. apply Ha.
  - apply Ha.
Qed.

Lemma reachable_version_total cfg a :
  reachable cfg a ->
  forall pid p, db_polls (db a) !! pid = Some p -> version p = 1 + total_votes p.
Proof.
  intros [cs <-].
  apply (run_invariant cfg (fun a => forall pid p, db_polls (db a) !! pid = Some p ->
                                       version p = 1 + total_votes p)).
  - intros. by eapply handle_version_total.
  - intros pid p. change (db_polls (db init_app)) with (∅ : gmap string Poll).
    by rewrite lookup_empty.
Qed.

(** X2. The aggregate counts what the ledger holds: in every state the
    service can reach, a poll's total_votes is the number of ledger votes
    on that poll, and its version is one more. *)
Theorem total_votes_counts_ledger_entries cfg a pid p :
  reachable cfg a -> db_polls (db a) !! pid = Some p ->
  total_votes p = Z.of_nat (List.length (ledger_of (db a) pid)) /\
  version p = 1 + Z.of_nat (List.length (ledger_of (db a) pid)).
Proof.
  intros Ha Hp. destruct (reachable_ledger_agrees cfg a Ha) as [_ I2].
  destruct (I2 pid p Hp) as [Ht _]. split; [done|].
  rewrite (reachable_version_total cfg a Ha pid p Hp). lia.
Qed.

Lemma options_with_unique oid p o :
  NoDup (List.map id (options p)) -> o ∈ options p -> id o = oid ->
  options_with oid p = [o].
Proof.
  unfold options_with. intros Hnd Ho <-.
  induction (options p) as [|x rest IH]; [by apply not_elem_of_nil in Ho|].
  cbn [List.map] in Hnd. apply NoDup_cons in Hnd as [Hx Hnd].
  cbn [List.filter]. apply elem_of_cons in Ho as [->|Ho].
  - rewrite String.eqb_refl. f_equal.
    clear IH. induction rest as [|y rest IH]; [done|].
    cbn [List.filter]. destruct (String.eqb_spec (id y) (id x)) as [E|E].
    + exfalso. apply Hx. cbn. rewrite E. apply list_elem_of_here.
    + apply IH.
      * intros H. apply Hx. cbn. by apply list_elem_of_further.
      * cbn [List.map] in Hnd. by apply NoDup_cons in Hnd as [_ ?].
  - destruct (String.eqb_spec (id x) (id o)) as [E|E].
    + exfalso. apply Hx. rewrite E. apply list_elem_of_In, in_map, list_elem_of_In, Ho.
    + by apply IH.
Qed.

(** X3. Option counters count ledger entries: in every reachable state the
    votes of the options carrying an id add up to the number of ledger votes
    for that id on that poll; so when the option ids of the poll are
    distinct, each option's counter is the number of ledger votes for it. *)
Theorem option_votes_count_ledger_entries cfg a pid p :
  reachable cfg a -> db_polls (db a) !! pid = Some p ->
  (forall oid, sum_votes (options_with oid p)
               = Z.of_nat (List.length (ledger_of_option (db a) pid oid))) /\
  (NoDup (List.map id (options p)) ->
   forall o, o ∈ options p ->
     votes o = Z.of_nat (List.length (ledger_of_option (db a) pid (id o)))).
Proof.
  intros Ha Hp. destruct (reachable_ledger_agrees cfg a Ha) as [_ I2].
  destruct (I2 pid p Hp) as [_ Hs]. split; [done|].
  intros Hnd o Ho. rewrite <- Hs, (options_with_unique (id o) p o Hnd Ho eq_refl).
  cbn. lia.
Qed.

(** X4. The ledger never holds a vote for a poll that is not in the store
    or for an option id the poll does not have. *)
Theorem ledger_votes_name_existing_options cfg a v :
  reachable cfg a -> v ∈ db_votes (db a) ->
  exists p, db_polls (db a) !! v_poll_id v = Some p /\
            v_option_id v ∈ List.map id (options p).
Proof.
  intros Ha Hv. destruct (reachable_ledger_agrees cfg a Ha) as [I1 _].
  destruct (I1 v Hv) as (p & Hp & Ho). exists p. split; [done|].
  by apply has_option_elem.
Qed.

(** ** Nothing is removed or rewritten *)

Lemma option_grown_refl o : option_grown o o.
Proof. unfold option_grown. split_and!; [done|done|lia]. Qed.

Lemma option_grown_trans o1 o2 o3 :
  option_grown o1 o2 -> option_grown o2 o3 -> option_grown o1 o3.
Proof. unfold option_grown. intros (? & ? & ?) (? & ? & ?). split_and!; [congruence|congruence|lia]. Qed.

Lemma options_grown_refl l : Forall2 option_grown l l.
Proof. induction l; constructor; [apply option_grown_refl|done]. Qed.

Lemma options_grown_trans l1 : forall l2 l3,
  Forall2 option_grown l1 l2 -> Forall2 option_grown l2 l3 -> Forall2 option_grown l1 l3.
Proof.
  induction l1 as [|x l1 IH]; intros l2 l3 H12 H23.
  - apply Forall2_nil_inv_l in H12 as ->. by apply Forall2_nil_inv_l in H23 as ->.
  - apply Forall2_cons_inv_l in H12 as (y & l2' & Hxy & H12 & ->).
    apply Forall2_cons_inv_l in H23 as (z & l3' & Hyz & H23 & ->).
    constructor; [by eapply option_grown_trans|by eapply IH].
Qed.

Lemma poll_grown_refl p : poll_grown p p.
Proof. unfold poll_grown. split_and!; [done|done|apply options_grown_refl|lia|lia]. Qed.

Lemma poll_grown_trans p1 p2 p3 : poll_grown p1 p2 -> poll_grown p2 p3 -> poll_grown p1 p3.
Proof.
  unfold poll_grown. intros (? & ? & ? & ? & ?) (? & ? & ? & ? & ?).
  split_and!; [congruence|congruence|by eapply options_grown_trans|lia|lia].
Qed.

Lemma inc_matched_grown oid opts : Forall2 option_grown opts (Mongo.inc_matched oid opts).
Proof.
  induction opts as [|x rest IH]; [constructor|]. cbn [Mongo.inc_matched].
  destruct (String.eqb (id x) oid).
  - constructor; [|apply options_grown_refl]. unfold option_grown. cbn. split_and!; [done|done|lia].
  - constructor; [apply option_grown_refl|done].
Qed.

Lemma apply_vote_grown oid now p : poll_grown p (Mongo.apply_vote oid now p).
Proof.
  unfold poll_grown. cbn. split_and!; [done|done|apply inc_matched_grown|lia|lia].
Qed.

Lemma handle_poll_grown cfg a c pid p :
  db_polls (db a) !! pid = Some p ->
  exists p', db_polls (db (fst (handle cfg a c))) !! pid = Some p' /\ poll_grown p p'.
Proof.
  intros Hp. destruct (handle cfg a c) as [a' r] eqn:E. cbn [fst].
  destruct (handle_polls _ _ _ _ _ E) as
    [pid' oid req vid uuid now resp p0 _ _ Hp0 _ Hd|payload tok otok now resp _ _ Hn Hd|Hd _];
    rewrite Hd.
  - destruct (decide (pid' = pid)) as [->|Hne].
    + rewrite lookup_insert_eq. assert (p0 = p) as -> by congruence.
      eexists. split; [done|]. apply apply_vote_grown.
    + rewrite lookup_insert_ne by done. exists p. split; [done|apply poll_grown_refl].
  - rewrite lookup_insert_ne by congruence. exists p. split; [done|apply poll_grown_refl].
  - exists p. split; [done|apply poll_grown_refl].
Qed.

Lemma run_poll_grown cfg cs : forall a pid p,
  db_polls (db a) !! pid = Some p ->
  exists p', db_polls (db (fst (run cfg a cs))) !! pid = Some p' /\ poll_grown p p'.
Proof.
  induction cs as [|c cs IH]; intros a pid p Hp.
  - exists p. split; [done|apply poll_grown_refl].
  - rewrite run_cons. cbn [fst].
    destruct (handle_poll_grown cfg a c pid p Hp) as (p1 & Hp1 & Hg1).
    destruct (IH _ pid p1 Hp1) as (p' & Hp' & Hg). exists p'. split; [done|].
    by eapply poll_grown_trans.
Qed.

(** X5. A poll is never deleted or redefined: over any run of the service a
    poll that is in the store stays there with the same question and
    creation time and the same options, in the same order with the same ids
    and texts; its counters, total_votes and version never go down. *)
Theorem polls_are_never_redefined cfg cs a pid p :
  db_polls (db a) !! pid = Some p ->
  exists p', db_polls (db (fst (run cfg a cs))) !! pid = Some p' /\
    question p' = question p /\ created_at p' = created_at p /\
    List.map id (options p') = List.map id (options p) /\
    List.map text (options p') = List.map text (options p) /\
    Forall2 (fun o o' => votes o <= votes o') (options p) (options p') /\
    total_votes p <= total_votes p' /\ version p <= version p'.
Proof.
  intros Hp. destruct (run_poll_grown cfg cs a pid p Hp) as (p' & Hp' & Hq & Hc & Ho & Ht & Hv).
  exists p'. split_and!; try done.
  - induction Ho as [|o o' l l' (Hi & _) _ IH]; [done|]. cbn. by rewrite Hi, IH.
  - induction Ho as [|o o' l l' (_ & Hx & _) _ IH]; [done|]. cbn. by rewrite Hx, IH.
  - induction Ho as [|o o' l l' (_ & _ & Hn) _ IH]; constructor; done.
Qed.

Lemma handle_logs_grow cfg a c pid :
  db_votes (db a) `prefix_of` db_votes (db (fst (handle cfg a c))) /\
  db_vote_attempts (db a) `prefix_of` db_vote_attempts (db (fst (handle cfg a c))) /\
  Z.of_nat (List.length (ledger_of (db (fst (handle cfg a c))) pid))
  = Z.of_nat (List.length (ledger_of (db a) pid))
    + (if accepted_on pid c (snd (handle cfg a c)) then 1 else 0).
Proof.
  destruct (handle cfg a c) as [a' r] eqn:E. cbn [fst snd].
  destruct (handle_store _ _ _ _ _ E) as
    [pid' oid req vid uuid now resp p -> -> _ _ _ _ Hvotes Hlog
    |payload tok otok now resp -> -> _ _ Hvotes Hlog
    |pid' oid req vid uuid now e -> -> _ Hvotes Hlog
    |Hd Hacc].
  - rewrite Hvotes, Hlog, (ledger_of_app _ _ pid _ Hvotes). cbn [accepted_on v_poll_id vote_of].
    split_and!; [by apply prefix_app_r|by apply prefix_app_r|].
    rewrite List.length_app. destruct (String.eqb pid' pid); cbn [List.length]; lia.
  - rewrite Hvotes, Hlog, (ledger_of_same _ _ pid Hvotes). cbn [accepted_on].
    split_and!; [done|done|lia].
  - rewrite Hvotes, Hlog, (ledger_of_same _ _ pid Hvotes). cbn [accepted_on].
    split_and!; [done|by apply prefix_app_r|lia].
  - rewrite Hd, Hacc. split_and!; [done|done|lia].
Qed.

(** X6. The ledger and the attempt log are append-only: over any run each
    is extended at its end and no entry is removed or changed, and the
    ledger of a poll grows by exactly the number of votes accepted on that
    poll. *)
Theorem ledger_and_attempt_log_are_append_only cfg cs : forall a pid,
  db_votes (db a) `prefix_of` db_votes (db (fst (run cfg a cs))) /\
  db_vote_attempts (db a) `prefix_of` db_vote_attempts (db (fst (run cfg a cs))) /\
  Z.of_nat (List.length (ledger_of (db (fst (run cfg a cs))) pid))
  = Z.of_nat (List.length (ledger_of (db a) pid))
    + accepted_votes pid cs (snd (run cfg a cs)).
Proof.
  induction cs as [|c cs IH]; intros a pid.
  - cbn. split_and!; [done|done|lia].
  - rewrite run_cons. cbn [fst snd accepted_votes].
    destruct (handle_logs_grow cfg a c pid) as (H1 & H2 & H3).
    destruct (IH (fst (handle cfg a c)) pid) as (H4 & H5 & H6).
    split_and!; [by etrans|by etrans|]. rewrite H6, H3. lia.
Qed.

(** ** One admission per voter *)

Lemma has_voted_prefix d d' pid voter :
  db_votes d `prefix_of` db_votes d' -> has_voted d pid voter = true ->
  has_voted d' pid voter = true.
Proof.
  unfold has_voted. intros [k ->]. rewrite existsb_app. by intros ->.
Qed.

Lemma run_has_voted cfg cs a pid voter :
  has_voted (db a) pid voter = true ->
  has_voted (db (fst (run cfg a cs))) pid voter = true.
Proof.
  apply has_voted_prefix.
  revert a. induction cs as [|c cs IH]; intros a; [done|].
  rewrite run_cons. cbn [fst]. etrans; [|apply IH].
  apply (handle_logs_grow cfg a c pid).
Qed.

Lemma run_take_S cfg cs a i c :
  cs !! i = Some c ->
  fst (run cfg a (take (S i) cs)) = fst (handle cfg (fst (run cfg a (take i cs))) c).
Proof.
  intros Hc. rewrite (take_S_r _ _ _ Hc), run_app. cbn [fst]. by rewrite run_cons.
Qed.

Lemma run_take_later cfg cs a i j :
  (i <= j)%nat ->
  fst (run cfg a (take j cs))
  = fst (run cfg (fst (run cfg a (take i cs))) (drop i (take j cs))).
Proof.
  intros Hij. rewrite <- (take_drop i (take j cs)) at 1.
  rewrite take_take, Nat.min_l by done. by rewrite run_app.
Qed.

(** The voter of an accepted vote is in the ledger from then on. *)
Lemma admitted_voter_recorded cfg cs a i j pid oid req vid uuid now resp :
  (i < j)%nat ->
  cs !! i = Some (VotePoll pid oid req vid uuid now) ->
  snd (run cfg a cs) !! i = Some (Voted (Return resp)) ->
  set_cookie_voter_id resp = resolve_voter_id vid uuid /\
  has_voted (db (fst (run cfg a (take j cs)))) pid (resolve_voter_id vid uuid) = true /\
  is_Some (db_polls (db (fst (run cfg a (take j cs)))) !! pid).
Proof.
  intros Hij Hc Hr. pose proof (run_reply_at _ _ _ _ _ _ Hc Hr) as E.
  rewrite (run_take_later cfg cs a (S i) j) by lia.
  rewrite (run_take_S cfg cs a i _ Hc).
  set (ai := fst (run cfg a (take i cs))) in *. cbn [handle] in *.
  destruct (vote_poll cfg pid oid req vid uuid now ai) as [a' r] eqn:Ev.
  cbn [fst snd] in *. injection E as <-.
  apply accepted_vote_inv in Ev as (p & Hp & _ & _ & _ & Hpolls & Hvotes & _ & _ & ->).
  split; [done|]. split.
  - apply run_has_voted. unfold has_voted. rewrite Hvotes, existsb_app. cbn.
    rewrite !String.eqb_refl. cbn. apply orb_true_r.
  - destruct (run_version_from cfg (drop (S i) (take j cs)) a' pid (Mongo.apply_vote oid now p))
      as (p' & Hp' & _); [by rewrite Hpolls, lookup_insert_eq|]. by exists p'.
Qed.

(** X7. A voter identity is admitted at most once per poll: once a vote has
    been accepted, every later vote request on that poll that presents the
    voter_id cookie the accepted response set is rejected, whatever happened
    in between, with DuplicateVote, or with InvalidOption or RateLimited
    when one of those gates stops it first. *)
Theorem returned_cookie_is_never_admitted_again cfg cs a i j
    pid oid req vid uuid now resp oid' req' uuid' now' :
  (i < j)%nat ->
  cs !! i = Some (VotePoll pid oid req vid uuid now) ->
  snd (run cfg a cs) !! i = Some (Voted (Return resp)) ->
  set_cookie_voter_id resp <> "" ->
  cs !! j = Some (VotePoll pid oid' req' (Some (set_cookie_voter_id resp)) uuid' now') ->
  exists e, snd (run cfg a cs) !! j = Some (Voted (Raise e)) /\
    (e = DuplicateVote \/ e = InvalidOption \/ e = RateLimited).
Proof.
  intros Hij Hci Hri Hne Hcj.
  destruct (admitted_voter_recorded cfg cs a i j _ _ _ _ _ _ _ Hij Hci Hri) as (Hck & Hv & [p Hp]).
  assert (is_Some (snd (run cfg a cs) !! j)) as [r Hrj].
  { apply lookup_lt_is_Some. rewrite <- run_replies_length. by eapply lookup_lt_Some. }
  rewrite Hrj. pose proof (run_reply_at _ _ _ _ _ _ Hcj Hrj) as E. cbn [handle] in E.
  set (aj := fst (run cfg a (take j cs))) in *.
  destruct (vote_poll cfg pid oid' req' (Some (set_cookie_voter_id resp)) uuid' now' aj)
    as [a' r'] eqn:Ev. cbn [snd] in E. subst r.
  assert (Hres : resolve_voter_id (Some (set_cookie_voter_id resp)) uuid'
                 = resolve_voter_id vid uuid).
  { cbn. rewrite <- Hck. by destruct (set_cookie_voter_id resp). }
  rewrite <- Hres in Hv.
  destruct (recorded_voter_outcome _ _ _ _ _ _ _ _ _ _ Hv Ev)
    as (_ & _ & _ & _ & H400 & H429 & H409).
  assert (Hfp : Mongo.find_poll (db aj) pid <> None)
    by (unfold Mongo.find_poll; rewrite Hp; done).
  destruct (Mongo.find_poll_option (db aj) pid oid') as [q|] eqn:Hq.
  - destruct (Z_le_gt_dec (attempts_seen cfg (db aj) pid req' now')
                (RATE_LIMIT_MAX_ATTEMPTS cfg)) as [Hle|Hgt].
    + rewrite H409 by done. eauto.
    + rewrite H429 by done. eauto 6.
  - rewrite H400 by done. eauto 6.
Qed.

(** ** Creating and reading polls *)

Lemma run_keeps_poll cfg cs a pid :
  is_Some (db_polls (db a) !! pid) -> is_Some (db_polls (db (fst (run cfg a cs))) !! pid).
Proof.
  intros [p Hp]. destruct (run_version_from cfg cs a pid p Hp) as (p' & Hp' & _). by exists p'.
Qed.

(** X8. A poll id is never reused: once a poll is in the store, every later
    create_poll that draws the same id fails with DuplicateKeyError, at any
    point of any run, and leaves the whole process state as it was (the
    existing poll and its votes included, and no change is signalled). *)
Theorem taken_poll_id_is_never_reused cfg cs a k payload tok otok now :
  is_Some (db_polls (db a) !! tok) ->
  cs !! k = Some (CreatePoll payload tok otok now) ->
  snd (run cfg a cs) !! k = Some (PollCreated (Raise DuplicateKeyError)) /\
  fst (run cfg a (take (S k) cs)) = fst (run cfg a (take k cs)).
Proof.
  intros Ha Hc.
  assert (is_Some (snd (run cfg a cs) !! k)) as [r Hr].
  { apply lookup_lt_is_Some. rewrite <- run_replies_length. by eapply lookup_lt_Some. }
  rewrite Hr, (run_take_S cfg cs a k _ Hc).
  rewrite (run_reply_at _ _ _ _ _ _ Hc Hr). cbn [handle].
  destruct (run_keeps_poll cfg (take k cs) a tok Ha) as [p Hp].
  rewrite create_poll_eq, Hp. done.
Qed.

(** X9. Reads follow writes: right after create_poll answers, get_poll on
    the new id returns a snapshot with the id, question, version,
    total_votes and options of the one create_poll returned (the two
    timestamps, which create_poll renders from its own copy of the document
    and get_poll from the stored one, are left out of the comparison); right
    after a vote is accepted, get_poll returns the snapshot in the vote's
    response, both being read from the store; a rejected vote changes no
    answer of get_poll; and get_poll on an id that is not in the store
    raises 404 Poll not found. *)
Theorem get_poll_reads_the_last_write cfg :
  (forall payload tok otok now a a' resp,
     create_poll payload tok otok now a = (a', Return resp) ->
     exists doc, get_poll tok a' = Return doc /\
       fst doc = fst (created resp) /\
       question (snd doc) = question (snd (created resp)) /\
       version (snd doc) = version (snd (created resp)) /\
       total_votes (snd doc) = total_votes (snd (created resp)) /\
       options (snd doc) = options (snd (created resp))) /\
  (forall pid oid req vid uuid now a a' resp,
     vote_poll cfg pid oid req vid uuid now a = (a', Return resp) ->
     get_poll pid a' = Return (body resp)) /\
  (forall pid oid req vid uuid now a a' e q,
     vote_poll cfg pid oid req vid uuid now a = (a', Raise e) ->
     get_poll q a' = get_poll q a) /\
  (forall a pid, db_polls (db a) !! pid = None -> get_poll pid a = Raise NotFound).
Proof.
  split_and!.
  - intros * E. apply created_poll_inv in E as (_ & Hd & _ & _ & ->).
    exists (tok, new_poll payload otok now). split; [|done].
    unfold get_poll, get_poll_or_404, Mongo.find_poll. by rewrite Hd, lookup_insert_eq.
  - intros * E. apply accepted_vote_inv in E as (p & _ & _ & _ & _ & Hd & _ & _ & _ & ->).
    unfold get_poll, get_poll_or_404, Mongo.find_poll. by rewrite Hd, lookup_insert_eq.
  - intros * E. apply rejected_vote_inv in E as (Hd & _).
    unfold get_poll, get_poll_or_404, Mongo.find_poll. by rewrite Hd.
  - intros a pid Hn. unfold get_poll, get_poll_or_404, Mongo.find_poll. by rewrite Hn.
Qed.

(** ** More on the rate gate *)

Lemma in_window_own pid fp since x :
  Mongo.in_window pid fp since x
  = own_attempt pid fp x && (Mongo.millis since <=? Mongo.millis (attempted_at x)).
Proof. done. Qed.

Lemma count_attempts_own d1 d2 pid fp since :
  List.filter (own_attempt pid fp) (db_vote_attempts d1)
  = List.filter (own_attempt pid fp) (db_vote_attempts d2) ->
  Mongo.count_attempts d1 pid fp since = Mongo.count_attempts d2 pid fp since.
Proof.
  unfold Mongo.count_attempts. intros H. do 2 f_equal.
  assert (Hf : forall l, List.filter (Mongo.in_window pid fp since) l
                 = List.filter (fun x => Mongo.millis since <=? Mongo.millis (attempted_at x))
                     (List.filter (own_attempt pid fp) l)).
  { induction l as [|x l IH]; [done|]. cbn [List.filter]. rewrite in_window_own.
    destruct (own_attempt pid fp x); cbn [andb List.filter]; [|done].
    destruct (Mongo.millis since <=? Mongo.millis (attempted_at x)); by rewrite IH. }
  by rewrite !Hf, H.
Qed.

(** X10. The rate limit is per poll and per fingerprint: the answer to a
    vote request depends on the attempt log only through the attempts of
    the request's own fingerprint on its own poll. Two states with the same
    polls and ledger whose logs agree on those attempts give the same
    answer, however many attempts of other fingerprints or on other polls
    one of them holds. *)
Theorem rate_limit_ignores_other_polls_and_fingerprints
    cfg pid oid req vid uuid now a1 a2 :
  db_polls (db a1) = db_polls (db a2) -> db_votes (db a1) = db_votes (db a2) ->
  List.filter (own_attempt pid (hash_ip cfg (get_client_ip req))) (db_vote_attempts (db a1))
  = List.filter (own_attempt pid (hash_ip cfg (get_client_ip req))) (db_vote_attempts (db a2)) ->
  snd (vote_poll cfg pid oid req vid uuid now a1) = snd (vote_poll cfg pid oid req vid uuid now a2).
Proof.
  intros Hp Hv Hl. rewrite !vote_poll_eq.
  unfold Mongo.find_poll_option, Mongo.find_poll. rewrite Hp.
  destruct (db_polls (db a2) !! pid) as [p|]; [|done].
  destruct (Mongo.has_option oid p); [|done]. cbn zeta.
  rewrite !attempts_seen_eq, (count_attempts_own (db a1) (db a2)) by done.
  rewrite Hv. destruct (_ >? _); [done|]. by destruct (existsb _ _).
Qed.

(** X11. The window slides: with a window of zero or more seconds whose
    start is a datetime, a vote request that reaches the rate gate is
    RateLimited exactly when the log already holds at least
    RATE_LIMIT_MAX_ATTEMPTS attempts of its fingerprint on its poll whose
    millisecond is not before the millisecond the window starts in. So once
    every such attempt is at least a millisecond older than the window, and
    the limit is at least 1, the request is not RateLimited; an attempt
    stamped in the millisecond the window starts in still counts. *)
Theorem rate_limit_lifts_when_the_window_has_passed cfg pid oid req vid uuid now a :
  window_start_defined cfg now = true ->
  0 <= RATE_LIMIT_WINDOW_SECONDS cfg ->
  Mongo.find_poll_option (db a) pid oid <> None ->
  let fp := hash_ip cfg (get_client_ip req) in
  let since := now - RATE_LIMIT_WINDOW_SECONDS cfg * 1000000 in
  let r := snd (vote_poll cfg pid oid req vid uuid now a) in
  (r = Raise RateLimited <->
   RATE_LIMIT_MAX_ATTEMPTS cfg
   <= Z.of_nat (List.length (filter (in_window_of pid fp since) (db_vote_attempts (db a))))) /\
  (1 <= RATE_LIMIT_MAX_ATTEMPTS cfg ->
   (forall x, x ∈ db_vote_attempts (db a) -> a_poll_id x = pid -> a_ip_hash x = fp ->
      attempted_at x <= since - 1000) ->
   r <> Raise RateLimited) /\
  (forall x, a_poll_id x = pid -> a_ip_hash x = fp ->
     Mongo.bson_datetime since <= attempted_at x -> in_window_of pid fp since x).
Proof.
  intros _ HW Hf fp since r.
  destruct (vote_poll cfg pid oid req vid uuid now a) as [a' r'] eqn:E. subst r. cbn [snd].
  destruct (validated_vote_inv _ _ _ _ _ _ _ _ _ _ E Hf) as (_ & Hlim & _).
  rewrite attempts_seen_eq in Hlim. fold fp in Hlim.
  unfold window_start, timedelta_seconds in Hlim. fold since in Hlim.
  rewrite count_attempts_filter in Hlim.
  destruct (Z.leb_spec 0 (RATE_LIMIT_WINDOW_SECONDS cfg)); [|lia].
  split_and!.
  - rewrite Hlim. lia.
  - intros Hmax Hold. rewrite Hlim.
    assert (Hnil : filter (in_window_of pid fp since) (db_vote_attempts (db a)) = []).
    { apply elem_of_nil_inv. intros x Hx. apply list_elem_of_filter in Hx as [(H1 & H2 & H3) Hx].
      specialize (Hold x Hx H1 H2).
      pose proof (millis_mono _ _ Hold) as Hm.
      replace (since - 1000) with (since - 0 * 1000000 - 1000) in Hm by lia.
      unfold Mongo.millis in *.
      replace (since - 0 * 1000000 - 1000) with (since + (-1) * 1000) in Hm by lia.
      rewrite Z.div_add in Hm by lia. lia. }
    rewrite Hnil. cbn. lia.
  - intros x Hp Hfp Hx. unfold in_window_of. split_and!; [done|done|].
    rewrite <- (millis_bson_datetime since). by apply millis_mono.
Qed.

(** X12. What the two settings do at their edges, for a request whose
    window start is a datetime. With a limit of zero or less (and a window
    of zero or more) every vote request that passes option validation is
    RateLimited, so no vote is ever accepted. With a negative window the
    request's own attempt is not counted and only attempts stamped later
    than the request are: when the log holds none, no request is
    RateLimited unless the limit is negative. *)
Theorem rate_limit_settings_at_their_edges cfg pid oid req vid uuid now a :
  window_start_defined cfg now = true ->
  Mongo.find_poll_option (db a) pid oid <> None ->
  let r := snd (vote_poll cfg pid oid req vid uuid now a) in
  (0 <= RATE_LIMIT_WINDOW_SECONDS cfg -> RATE_LIMIT_MAX_ATTEMPTS cfg <= 0 ->
   r = Raise RateLimited) /\
  (RATE_LIMIT_WINDOW_SECONDS cfg < 0 -> 0 <= RATE_LIMIT_MAX_ATTEMPTS cfg ->
   (forall x, x ∈ db_vote_attempts (db a) -> attempted_at x <= now) ->
   r <> Raise RateLimited).
Proof.
  intros _ Hf r.
  destruct (vote_poll cfg pid oid req vid uuid now a) as [a' r'] eqn:E. subst r. cbn [snd].
  destruct (validated_vote_inv _ _ _ _ _ _ _ _ _ _ E Hf) as (_ & Hlim & _).
  rewrite attempts_seen_eq in Hlim. split.
  - intros HW Hmax. apply Hlim.
    pose proof (count_attempts_nonneg (db a) pid (hash_ip cfg (get_client_ip req))
                  (window_start cfg now)).
    destruct (Z.leb_spec 0 (RATE_LIMIT_WINDOW_SECONDS cfg)); lia.
  - intros HW Hmax Hpast. rewrite Hlim, count_attempts_filter.
    assert (Hnil : filter (in_window_of pid (hash_ip cfg (get_client_ip req))
                             (window_start cfg now)) (db_vote_attempts (db a)) = []).
    { apply elem_of_nil_inv. intros x Hx. apply list_elem_of_filter in Hx as [(_ & _ & H3) Hx].
      specialize (Hpast x Hx). apply millis_mono in Hpast.
      unfold window_start, timedelta_seconds in H3. rewrite millis_sub_seconds in H3. lia. }
    rewrite Hnil. cbn. destruct (Z.leb_spec 0 (RATE_LIMIT_WINDOW_SECONDS cfg)); lia.
Qed.

(** ** The caller's address *)

Lemma no_char_app sep s t :
  PyStr.no_char sep (s +:+ t) <-> PyStr.no_char sep s /\ PyStr.no_char sep t.
Proof.
  induction s as [|c s IH]; [rewrite app_nil; cbn; tauto|].
  rewrite app_cons. cbn [PyStr.no_char]. rewrite IH. tauto.
Qed.

Lemma first_entry_shape header entry :
  first_entry header entry -> PyStr.no_char "," entry /\ PyStr.no_space_at_ends entry.
Proof.
  intros (pre & rest & lead & trail & _ & Hno & -> & _ & _ & He). split; [|done].
  apply no_char_app in Hno as [_ Hno]. by apply no_char_app in Hno as [Hno _].
Qed.

(** X13. get_client_ip never returns the empty string. What it returns is
    the first entry of x-forwarded-for, which then holds no comma and no
    white space at either end, or the non-empty host of the peer, or the
    text unknown. *)
Theorem client_ip_is_never_empty request :
  get_client_ip request <> "" /\
  (first_entry (headers_get (headers request) "x-forwarded-for" "") (get_client_ip request)
   /\ PyStr.no_char "," (get_client_ip request)
   /\ PyStr.no_space_at_ends (get_client_ip request)
   \/ (exists peer, client request = Some peer /\ get_client_ip request = host peer)
   \/ get_client_ip request = "unknown").
Proof.
  unfold get_client_ip, client_host_or_unknown. cbn zeta.
  pose proof (first_entry_exists (headers_get (headers request) "x-forwarded-for" "")) as He.
  pose proof (first_entry_shape _ _ He) as [Hc Hs].
  set (first := PyStr.strip _) in *.
  assert (Hpeer : match client request with
                  | Some a => if PyStr.truthy (host a) then host a else "unknown"
                  | None => "unknown"
                  end <> "" /\
                  ((exists peer, client request = Some peer /\
                      match client request with
                      | Some a => if PyStr.truthy (host a) then host a else "unknown"
                      | None => "unknown"
                      end = host peer) \/
                   match client request with
                   | Some a => if PyStr.truthy (host a) then host a else "unknown"
                   | None => "unknown"
                   end = "unknown")).
  { destruct (client request) as [peer|]; [|split; [done|by right]].
    destruct (host peer) as [|c h] eqn:Eh; cbn; [split; [done|by right]|].
    split; [done|]. left. exists peer. by rewrite Eh. }
  destruct (PyStr.truthy (headers_get (headers request) "x-forwarded-for" "")).
  - destruct first as [|c f] eqn:Ef; cbn [PyStr.truthy].
    + destruct Hpeer as [? ?]. split; [done|]. by right.
    + split; [done|]. left. done.
  - destruct Hpeer as [? ?]. split; [done|]. by right.
Qed.

(** ** More on the notifier *)

Lemma event_generator_at_wait sid now a s ev :
  streams a !! sid = Some s -> stream_pc s = AtWait ->
  poll_events a !! stream_poll s = Some ev ->
  event_generator sid now a =
  if _value ev
  then (set_event a (stream_poll s) {| _value := false; _waiters := _waiters ev |}
          (<[sid := clear_and_yield s now]> (streams a)), true)
  else (set_event a (stream_poll s) {| _value := false; _waiters := _waiters ev ++ [sid] |}
          (<[sid := set_pc s (Suspended false)]> (streams a)), false).
Proof. intros Hs Hpc Hev. unfold event_generator. by rewrite Hs, Hev, Hpc. Qed.

Lemma event_generator_woken sid now a s ev :
  streams a !! sid = Some s -> stream_pc s = Suspended true ->
  poll_events a !! stream_poll s = Some ev ->
  event_generator sid now a =
  (set_event a (stream_poll s)
     {| _value := false;
        _waiters := List.filter (fun w => negb (Nat.eqb w sid)) (_waiters ev) |}
     (<[sid := clear_and_yield s now]> (streams a)), true).
Proof. intros Hs Hpc Hev. unfold event_generator. by rewrite Hs, Hev, Hpc. Qed.

(** X14. One signal reaches only one of the streams that are between two
    waits: when the flag of a poll's event is up and two streams of that
    poll are both about to wait, the first one run sends a line and lowers
    the flag, and the other, run next, sends nothing and is suspended until
    a later change, so it never reports the change the first one reported. *)
Theorem pending_signal_reaches_only_the_first_stream a s1 s2 st1 st2 ev t1 t2 :
  s1 <> s2 ->
  streams a !! s1 = Some st1 -> streams a !! s2 = Some st2 ->
  stream_pc st1 = AtWait -> stream_pc st2 = AtWait ->
  stream_poll st1 = stream_poll st2 ->
  poll_events a !! stream_poll st1 = Some ev -> _value ev = true ->
  let a1 := fst (event_generator s1 t1 a) in
  snd (event_generator s1 t1 a) = true /\
  snd (event_generator s2 t2 a1) = false /\
  streams (fst (event_generator s2 t2 a1)) !! s2 = Some (set_pc st2 (Suspended false)) /\
  emitted (set_pc st2 (Suspended false)) = emitted st2.
Proof.
  intros Hne Hs1 Hs2 Hpc1 Hpc2 Hpoll Hev Hval a1. subst a1.
  assert (Hl2 : (s2 < List.length (streams a))%nat) by (by eapply lookup_lt_Some).
  rewrite (event_generator_at_wait s1 t1 a st1 ev Hs1 Hpc1 Hev), Hval. cbn [fst snd].
  split; [done|].
  erewrite (event_generator_at_wait s2 t2 _ st2); cycle 1.
  - cbn [set_event streams]. by rewrite list_lookup_insert_ne.
  - done.
  - cbn [set_event poll_events]. rewrite <- Hpoll. apply lookup_insert_eq.
  - cbn [_value fst snd set_event streams]. split; [done|]. split; [|done].
    apply list_lookup_insert_eq. by rewrite length_insert.
Qed.

Lemma notify_poll_change_idem pid a :
  notify_poll_change pid (notify_poll_change pid a) = notify_poll_change pid a.
Proof.
  unfold notify_poll_change at 1. unfold upsert_poll_event.
  destruct (notify_poll_change_spec pid a) as (_ & Hflag & _).
  unfold flag in Hflag.
  destruct (poll_events (notify_poll_change pid a) !! pid) as [ev|]; [|done].
  unfold event_set. by rewrite Hflag.
Qed.

Lemma notify_wakes pid a sid s :
  notifier_inv a -> streams a !! sid = Some s ->
  stream_pc s = Suspended false -> stream_poll s = pid ->
  streams (notify_poll_change pid a) !! sid = Some (set_pc s (Suspended true)) /\
  exists ev, poll_events (notify_poll_change pid a) !! pid = Some ev /\ _value ev = true.
Proof.
  intros [I1 I2] Hs Hpc <-.
  destruct (notify_poll_change_spec (stream_poll s) a) as (_ & Hflag & _ & _ & Hss).
  destruct (I2 sid s Hs Hpc) as [Hfl Hin]. split.
  - rewrite Hss, Hfl, decide_True by done. rewrite Hs. cbn. unfold wake. by rewrite Hpc.
  - unfold flag in Hflag.
    destruct (poll_events (notify_poll_change (stream_poll s) a) !! stream_poll s) as [ev|];
      [by exists ev|done].
Qed.

(** X15. Changes that arrive between two runs of a stream coalesce: a
    second signal on a poll whose flag is already up changes nothing, so a
    suspended stream of the poll that is signalled twice before it runs
    sends one line when it runs and is suspended again at its next wait. *)
Theorem signals_between_two_runs_coalesce cfg a pid sid s t1 t2 :
  reachable cfg a ->
  streams a !! sid = Some s -> stream_pc s = Suspended false -> stream_poll s = pid ->
  let a2 := notify_poll_change pid (notify_poll_change pid a) in
  a2 = notify_poll_change pid a /\
  snd (event_generator sid t1 a2) = true /\
  emitted <$> streams (fst (event_generator sid t1 a2)) !! sid = Some (emitted s ++ [t1]) /\
  snd (event_generator sid t2 (fst (event_generator sid t1 a2))) = false.
Proof.
  intros Ha Hs Hpc Hp a2. subst a2. rewrite notify_poll_change_idem. split; [done|].
  apply notifier_inv_reachable in Ha.
  destruct (notify_wakes pid a sid s Ha Hs Hpc Hp) as (Hs' & ev & Hev & Hval).
  set (a1 := notify_poll_change pid a) in *.
  assert (Hl : (sid < List.length (streams a1))%nat) by (by eapply lookup_lt_Some).
  rewrite (event_generator_woken sid t1 a1 _ ev Hs' eq_refl) by (cbn; by rewrite Hp).
  cbn [fst snd set_event streams]. split; [done|]. split.
  - by rewrite list_lookup_insert_eq.
  - rewrite (event_generator_at_wait sid t2 _ (clear_and_yield (set_pc s (Suspended true)) t1)
               {| _value := false;
                  _waiters := List.filter (fun w => negb (Nat.eqb w sid)) (_waiters ev) |}).
    + done.
    + by apply list_lookup_insert_eq.
    + done.
    + apply lookup_insert_eq.
Qed.

(** ** Validation of the request body *)

Ltac settle :=
  first [ done
        | intros; repeat match goal with H : _ /\ _ |- _ => destruct H end;
          first [ lia | exfalso; lia ] ].

Lemma all_space_app s t : PyStr.all_space (s +:+ t) <-> PyStr.all_space s /\ PyStr.all_space t.
Proof.
  induction s as [|c s IH]; [rewrite app_nil; cbn; tauto|].
  rewrite app_cons. cbn [PyStr.all_space]. rewrite IH. tauto.
Qed.

Lemma strip_empty_iff s : PyStr.strip s = "" <-> PyStr.all_space s.
Proof.
  split.
  - intros H. destruct (strip_spec s) as (lead & trail & Hs & Hl & Ht & _).
    rewrite H, app_nil in Hs. rewrite Hs. by apply all_space_app.
  - intros H. unfold PyStr.strip. by rewrite (lstrip_all_space s H).
Qed.

Lemma strip_length s : (String.length (PyStr.strip s) <= String.length s)%nat.
Proof.
  destruct (strip_spec s) as (lead & trail & Hs & _).
  rewrite Hs at 2. rewrite !string_length_app. lia.
Qed.

Lemma strip_trimmed s : PyStr.no_space_at_ends s -> PyStr.strip s = s.
Proof.
  intros H. apply (strip_unique s "" s ""); [|done|done|done].
  rewrite app_nil. clear H. induction s as [|c s IH]; [done|]. rewrite app_cons. by f_equal.
Qed.

Lemma strip_no_space_at_ends s : PyStr.no_space_at_ends (PyStr.strip s).
Proof. by destruct (strip_spec s) as (_ & _ & _ & _ & _ & ?). Qed.

Lemma truthy_iff s : PyStr.truthy s = true <-> s <> "".
Proof. by destruct s. Qed.

(** X16. The question of a poll: a text of no characters is refused as too
    short and one of more than 500 characters as too long, counted before
    stripping; a text within the bounds that is all white space is refused
    with question cannot be empty; any other text is accepted as its
    stripped form, which is not empty, has no white space at either end and
    at most 500 characters. *)
Theorem question_is_stripped_and_bounded value :
  (question_field value = Invalid string_too_short <-> String.length value = 0%nat) /\
  (question_field value = Invalid string_too_long <-> (500 < String.length value)%nat) /\
  (question_field value = Invalid (value_error "question cannot be empty") <->
   (1 <= String.length value <= 500)%nat /\ PyStr.all_space value) /\
  (forall text, question_field value = Valid text ->
     text = PyStr.strip value /\ trimmed text /\ (1 <= String.length text <= 500)%nat).
Proof.
  unfold question_field, validate_question. cbn zeta.
  destruct (Nat.ltb_spec (String.length value) 1) as [H1|H1];
    [|destruct (Nat.ltb_spec 500 (String.length value)) as [H2|H2]].
  - split_and!; [split; settle|split; settle|split; settle|done].
  - split_and!; [split; settle|split; settle|split; settle|done].
  - destruct (PyStr.strip value) as [|c t] eqn:Es; cbn [PyStr.truthy].
    + apply strip_empty_iff in Es.
      split_and!; [split; settle|split; settle|split; [|done]|done].
      intros _. split; [lia|done].
    + split_and!; [split; settle|split; settle| |].
      * split; [done|]. intros [_ Hs]. apply strip_empty_iff in Hs. congruence.
      * intros text [= <-]. pose proof (strip_length value) as Hl.
        pose proof (strip_no_space_at_ends value) as Hn. rewrite Es in Hl, Hn.
        split_and!; [done|by split|cbn; lia|lia].
Qed.

Lemma cleaned_spec (value : list string) :
  List.map PyStr.strip (List.filter (fun item => PyStr.truthy (PyStr.strip item)) value)
  = filter (fun t => t <> "") (List.map PyStr.strip value).
Proof.
  induction value as [|x l IH]; [done|]. cbn [List.filter List.map].
  rewrite filter_cons. destruct (PyStr.strip x) as [|c t] eqn:E; cbn [PyStr.truthy].
  - rewrite decide_False by auto. done.
  - rewrite decide_True by done. cbn [List.map]. by rewrite E, IH.
Qed.

Lemma cleaned_trimmed (value : list string) :
  Forall trimmed
    (List.map PyStr.strip (List.filter (fun item => PyStr.truthy (PyStr.strip item)) value)).
Proof.
  induction value as [|x l IH]; [constructor|]. cbn [List.filter].
  destruct (PyStr.truthy (PyStr.strip x)) eqn:E; [|done]. cbn [List.map].
  constructor; [|done]. split; [by apply truthy_iff|apply strip_no_space_at_ends].
Qed.

Lemma cleaned_fixed (l : list string) :
  Forall trimmed l ->
  List.map PyStr.strip (List.filter (fun item => PyStr.truthy (PyStr.strip item)) l) = l.
Proof.
  induction 1 as [|x l [Hx Hs] _ IH]; [done|]. cbn [List.filter].
  rewrite (strip_trimmed x Hs). apply truthy_iff in Hx. rewrite Hx. cbn [List.map].
  by rewrite (strip_trimmed x Hs), IH.
Qed.

(** X17. The options of a poll: validate_options strips every text, drops
    the ones that are empty or all white space and keeps the others in
    their order; it accepts the list when 2 to 20 texts are left, each of
    them then not empty and without white space at either end, and refuses
    it otherwise, with at least 2 non-empty options are required below 2
    and maximum 20 options allowed above 20. *)
Theorem options_are_stripped_and_counted value :
  let cleaned := filter (fun t => t <> "") (List.map PyStr.strip value) in
  Forall trimmed cleaned /\
  ((2 <= List.length cleaned <= 20)%nat <-> validate_options value = Valid cleaned) /\
  ((List.length cleaned < 2)%nat <->
   validate_options value = Invalid (value_error "at least 2 non-empty options are required")) /\
  ((20 < List.length cleaned)%nat <->
   validate_options value = Invalid (value_error "maximum 20 options allowed")).
Proof.
  intros cleaned. unfold validate_options. cbn zeta. subst cleaned.
  rewrite <- (cleaned_spec value).
  set (cleaned := List.map PyStr.strip _).
  split; [apply cleaned_trimmed|].
  destruct (Nat.ltb_spec (List.length cleaned) 2) as [H1|H1];
    [|destruct (Nat.ltb_spec 20 (List.length cleaned)) as [H2|H2]].
  - split_and!; split; settle.
  - split_and!; split; settle.
  - split_and!; split; settle.
Qed.

Lemma validate_options_inv value os :
  validate_options value = Valid os ->
  (2 <= List.length os <= 20)%nat /\ Forall trimmed os.
Proof.
  unfold validate_options. cbn zeta.
  destruct (Nat.ltb_spec (List.length (List.map PyStr.strip
              (List.filter (fun item => PyStr.truthy (PyStr.strip item)) value))) 2); [done|].
  destruct (Nat.ltb_spec 20 (List.length (List.map PyStr.strip
              (List.filter (fun item => PyStr.truthy (PyStr.strip item)) value)))); [done|].
  intros [= <-]. split; [lia|apply cleaned_trimmed].
Qed.

Lemma question_field_inv value text :
  question_field value = Valid text ->
  trimmed text /\ (1 <= String.length text <= 500)%nat.
Proof.
  unfold question_field, validate_question. cbn zeta.
  destruct (Nat.ltb_spec (String.length value) 1); [done|].
  destruct (Nat.ltb_spec 500 (String.length value)); [done|].
  destruct (PyStr.strip value) as [|c t] eqn:Es; cbn [PyStr.truthy]; [done|].
  intros [= <-]. pose proof (strip_length value) as Hl.
  pose proof (strip_no_space_at_ends value) as Hn. rewrite Es in Hl, Hn.
  split_and!; [by split|cbn; lia|lia].
Qed.

Lemma CreatePollRequest_new_inv question options payload :
  CreatePollRequest_new question options = inl payload ->
  question_field question = Valid (payload_question payload) /\
  validate_options options = Valid (payload_options payload).
Proof.
  unfold CreatePollRequest_new.
  destruct (question_field question), (validate_options options); try done.
  by intros [= <-].
Qed.

(** X18. A validated body is a fixed point of validation: the question and
    options that CreatePollRequest accepted, sent again as they were
    stored, are accepted unchanged. *)
Theorem validated_body_validates_to_itself question options payload :
  CreatePollRequest_new question options = inl payload ->
  CreatePollRequest_new (payload_question payload) (payload_options payload) = inl payload.
Proof.
  intros H. apply CreatePollRequest_new_inv in H as [Hq Ho].
  apply question_field_inv in Hq as ([Hne Hs] & Hl).
  apply validate_options_inv in Ho as (Hn & Ht).
  unfold CreatePollRequest_new, question_field, validate_question, validate_options. cbn zeta.
  rewrite (cleaned_fixed _ Ht), (strip_trimmed _ Hs).
  apply truthy_iff in Hne. rewrite Hne.
  destruct (Nat.ltb_spec (String.length (payload_question payload)) 1); [lia|].
  destruct (Nat.ltb_spec 500 (String.length (payload_question payload))); [lia|].
  destruct (Nat.ltb_spec (List.length (payload_options payload)) 2); [lia|].
  destruct (Nat.ltb_spec 20 (List.length (payload_options payload))); [lia|].
  by destruct payload.
Qed.

Lemma imap_texts (f : nat -> string) (l : list string) :
  List.map text (imap (fun i t => {| id := f i; text := t; votes := 0 |}) l) = l.
Proof.
  revert f. induction l as [|x l IH]; intros f; [done|].
  cbn. f_equal. apply (IH (fun i => f (S i))).
Qed.

Lemma imap_fresh_options (f : nat -> string) (l : list string) :
  Forall trimmed l ->
  Forall (fun o => trimmed (text o) /\ 0 <= votes o)
         (imap (fun i t => {| id := f i; text := t; votes := 0 |}) l).
Proof.
  intros H. revert f. induction H as [|x l Hx _ IH]; intros f; [constructor|].
  cbn. constructor; [by split|]. apply (IH (fun i => f (S i))).
Qed.

Lemma new_poll_well_formed q os payload otok now :
  CreatePollRequest_new q os = inl payload ->
  well_formed_poll (new_poll payload otok now).
Proof.
  intros H. apply CreatePollRequest_new_inv in H as [Hq Ho].
  apply question_field_inv in Hq as (Ht & Hl).
  apply validate_options_inv in Ho as (Hn & Hos).
  unfold well_formed_poll. cbn [new_poll question options].
  split_and!; [done|lia| | |by apply imap_fresh_options].
  - rewrite <- (imap_texts otok (payload_options payload)) in Hn at 1.
    rewrite List.length_map in Hn. lia.
  - rewrite <- (imap_texts otok (payload_options payload)) in Hn at 2.
    rewrite List.length_map in Hn. lia.
Qed.

Lemma well_formed_grown p p' : well_formed_poll p -> poll_grown p p' -> well_formed_poll p'.
Proof.
  unfold well_formed_poll, poll_grown.
  intros (Hq & Hl & Hn & Ho) (Eq & _ & Hg & _ & _). rewrite Eq.
  split_and!; [done|done| | |].
  - apply Forall2_length in Hg. lia.
  - apply Forall2_length in Hg. lia.
  - clear Hn. induction Hg as [|o o' l l' (_ & Ht & Hv) _ IH]; [constructor|].
    apply Forall_cons in Ho as [[Hto Hvo] Ho]. constructor; [|by apply IH].
    rewrite Ht. split; [done|lia].
Qed.

Lemma handle_well_formed cfg a c :
  validated c ->
  (forall pid p, db_polls (db a) !! pid = Some p -> well_formed_poll p) ->
  forall pid p, db_polls (db (fst (handle cfg a c))) !! pid = Some p -> well_formed_poll p.
Proof.
  intros Hc Ha. destruct (handle cfg a c) as [a' r] eqn:E. cbn [fst].
  destruct (handle_polls _ _ _ _ _ E) as
    [pid oid req vid uuid now resp p _ _ Hp Ho Hd|payload tok otok now resp -> _ Hn Hd|Hd _];
    intros q pq; rewrite Hd.
  - destruct (decide (pid = q)) as [<-|Hne].
    + rewrite lookup_insert_eq. intros [= <-].
      eapply well_formed_grown; [by eapply Ha|apply apply_vote_grown].
    + rewrite lookup_insert_ne by done. apply Ha.
  - destruct (decide (tok = q)) as [<-|Hne].
    + rewrite lookup_insert_eq. intros [= <-]. destruct Hc as (q0 & os0 & Hc).
      by eapply new_poll_well_formed.
    + rewrite lookup_insert_ne by done. apply Ha.
  - apply Ha.
Qed.

(** X19. What validation establishes lasts: in a run from the empty
    service whose polls are all created from bodies CreatePollRequest
    accepted, every poll in the store, after any number of votes, has a
    question that is not empty, has no white space at either end and at most
    500 characters, and between 2 and 20 options, each with such a text and
    a counter that is not negative. *)
Theorem stored_polls_keep_the_validated_shape cfg cs pid p :
  Forall validated cs ->
  db_polls (db (fst (run cfg init_app cs))) !! pid = Some p ->
  trimmed (question p) /\ (String.length (question p) <= 500)%nat /\
  (2 <= List.length (options p) <= 20)%nat /\
  Forall (fun o => trimmed (text o) /\ 0 <= votes o) (options p).
Proof.
  intros Hcs. revert pid p.
  assert (H0 : forall pid p, db_polls (db init_app) !! pid = Some p -> well_formed_poll p).
  { intros pid p. change (db_polls (db init_app)) with (∅ : gmap string Poll).
    by rewrite lookup_empty. }
  revert H0. generalize init_app. induction Hcs as [|c cs Hc _ IH]; intros a Ha; [done|].
  rewrite run_cons. cbn [fst]. apply IH. by apply handle_well_formed.
Qed.

(** ** The list of allowed origins *)

Lemma split_no_char sep s : Forall (PyStr.no_char sep) (PyStr.split sep s).
Proof.
  induction s as [|c s IH]; [by repeat constructor|]. cbn [PyStr.split].
  destruct (Ascii.eqb_spec c sep) as [->|Hne]; [by constructor|].
  destruct (PyStr.split sep s) as [|h t]; [by repeat constructor|].
  apply Forall_cons in IH as [Hh Ht]. by constructor.
Qed.

Lemma strip_no_char sep s : PyStr.no_char sep s -> PyStr.no_char sep (PyStr.strip s).
Proof.
  intros H. destruct (strip_spec s) as (lead & trail & Hs & _).
  rewrite Hs in H. apply no_char_app in H as [_ H]. by apply no_char_app in H as [H _].
Qed.

Lemma split_plain sep s : PyStr.no_char sep s -> PyStr.split sep s = [s].
Proof.
  induction s as [|c s IH]; [done|]. intros [Hc Hs]. cbn [PyStr.split].
  destruct (Ascii.eqb_spec c sep); [done|]. by rewrite (IH Hs).
Qed.

Lemma split_first sep s rest :
  PyStr.no_char sep s ->
  PyStr.split sep (s +:+ String sep rest) = s :: PyStr.split sep rest.
Proof.
  induction s as [|c s IH].
  - intros _. rewrite app_nil. cbn [PyStr.split]. by rewrite Ascii.eqb_refl.
  - intros [Hc Hs]. rewrite app_cons. cbn [PyStr.split].
    destruct (Ascii.eqb_spec c sep); [done|]. by rewrite (IH Hs).
Qed.

Lemma split_join sep l :
  l <> [] -> Forall (PyStr.no_char sep) l -> PyStr.split sep (join sep l) = l.
Proof.
  intros Hne H. induction H as [|x l Hx Hl IH]; [done|].
  destruct l as [|y l]; [by apply split_plain|].
  change (join sep (x :: y :: l)) with (x +:+ String sep (join sep (y :: l))).
  rewrite split_first by done. f_equal. by apply IH.
Qed.

(** X20. allow_origins holds the entries of CORS_ORIGINS between the
    commas, stripped, without the ones that are empty or all white space:
    every origin in the list is non-empty, has no white space at either end
    and no comma. A list of such origins written with commas between them
    is read back as it was. *)
Theorem allow_origins_are_clean_and_round_trip :
  (forall origins,
     Forall (fun o => trimmed o /\ PyStr.no_char "," o) (allow_origins origins)) /\
  (forall l, Forall (fun o => trimmed o /\ PyStr.no_char "," o) l ->
     allow_origins (join "," l) = l).
Proof.
  split.
  - intros origins. unfold allow_origins.
    pose proof (split_no_char "," origins) as H.
    induction H as [|x l Hx _ IH]; [constructor|]. cbn [List.filter].
    destruct (PyStr.truthy (PyStr.strip x)) eqn:E; [|done]. cbn [List.map].
    constructor; [|done]. split; [split|].
    + by apply truthy_iff.
    + apply strip_no_space_at_ends.
    + by apply strip_no_char.
  - intros l Hl. unfold allow_origins. destruct l as [|x l]; [done|].
    rewrite split_join; [|done|].
    + apply cleaned_fixed. eapply Forall_impl; [done|]. by intros o [? _].
    + eapply Forall_impl; [done|]. by intros o [_ ?].
Qed.

(** ** The shape of a fingerprint *)

(** X21. Whatever the salt and the address, the fingerprint hash_ip
    returns is a text of exactly 64 characters, each one of 0-9 a-f. *)
Theorem fingerprint_is_64_hex_digits cfg ip :
  String.length (hash_ip cfg ip) = 64%nat /\
  Forall (fun c => is_hex_digit c = true) (list_ascii_of_string (hash_ip cfg ip)).
Proof. unfold hash_ip. apply hexdigest_shape. Qed.

(** ** The further properties at concrete runs *)

Lemma evening_reachable : reachable default_settings Sample.closed.
Proof. exists Sample.evening. vm_compute. reflexivity. Qed.

Lemma evening_tally : db_polls (db Sample.closed) !! "poll-1" = Some Sample.tally.
Proof. vm_compute. reflexivity. Qed.

Example evening_replies :
  snd (run default_settings init_app Sample.evening) !! 1%nat
  = Some (Voted (Return Sample.first_answer)) /\
  snd (run default_settings init_app Sample.evening) !! 3%nat
  = Some (Voted (Raise DuplicateVote)).
Proof. split; vm_compute; reflexivity. Qed.

Example body_as_sent :
  CreatePollRequest_new Sample.raw_question Sample.raw_options = inl Scenario.pizza /\
  CreatePollRequest_new "   " ["Pizza"; " "] =
    inr [value_error "question cannot be empty";
         value_error "at least 2 non-empty options are required"] /\
  CreatePollRequest_new "" ["Pizza"; "Pasta"] = inr [string_too_short].
Proof. split_and!; vm_compute; reflexivity. Qed.

Example default_origins :
  allow_origins Sample.CORS_ORIGINS
  = ["http://localhost:3000"; "http://127.0.0.1:3000";
     "https://applyo-skite-internship-task.vercel.app"] /\
  allow_origins " https://a.example , ,https://b.example," = ["https://a.example"; "https://b.example"] /\
  allow_origins "" = [].
Proof. split_and!; vm_compute; reflexivity. Qed.

Lemma ledger_holds_one_vote_per_voter_witness :
  reachable default_settings Sample.closed /\
  List.length (db_votes (db Sample.closed)) = 2%nat /\
  NoDup (List.map ledger_key (db_votes (db Sample.closed))).
Proof.
  split; [exact evening_reachable|]. split; [vm_compute; reflexivity|].
  exact (ledger_holds_one_vote_per_voter default_settings Sample.closed evening_reachable).
Defined.

Lemma total_votes_counts_ledger_entries_witness :
  reachable default_settings Sample.closed /\
  db_polls (db Sample.closed) !! "poll-1" = Some Sample.tally /\
  total_votes Sample.tally = Z.of_nat (List.length (ledger_of (db Sample.closed) "poll-1")) /\
  version Sample.tally = 1 + Z.of_nat (List.length (ledger_of (db Sample.closed) "poll-1")).
Proof.
  split; [exact evening_reachable|]. split; [exact evening_tally|].
  exact (total_votes_counts_ledger_entries default_settings Sample.closed "poll-1" Sample.tally
           evening_reachable evening_tally).
Defined.

Lemma option_votes_count_ledger_entries_witness :
  reachable default_settings Sample.closed /\
  db_polls (db Sample.closed) !! "poll-1" = Some Sample.tally /\
  NoDup (List.map id (options Sample.tally)) /\
  forall o, o ∈ options Sample.tally ->
    votes o = Z.of_nat (List.length (ledger_of_option (db Sample.closed) "poll-1" (id o))).
Proof.
  split; [exact evening_reachable|]. split; [exact evening_tally|].
  assert (Hn : NoDup (List.map id (options Sample.tally))).
  { apply NoDup_ListNoDup. repeat constructor; cbn; intros H;
      repeat (destruct H as [H|H]; [discriminate H|]); exact H. }
  split; [exact Hn|].
  exact (proj2 (option_votes_count_ledger_entries default_settings Sample.closed "poll-1"
                  Sample.tally evening_reachable evening_tally) Hn).
Defined.

Lemma ledger_votes_name_existing_options_witness :
  reachable default_settings Sample.closed /\
  Sample.pizza_vote ∈ db_votes (db Sample.closed) /\
  exists p, db_polls (db Sample.closed) !! v_poll_id Sample.pizza_vote = Some p /\
            v_option_id Sample.pizza_vote ∈ List.map id (options p).
Proof.
  assert (Hv : Sample.pizza_vote ∈ db_votes (db Sample.closed))
    by (apply (list_elem_of_lookup_2 _ 0%nat); vm_compute; reflexivity).
  split; [exact evening_reachable|]. split; [exact Hv|].
  exact (ledger_votes_name_existing_options default_settings Sample.closed Sample.pizza_vote
           evening_reachable Hv).
Defined.

Lemma polls_are_never_redefined_witness :
  let p := new_poll Scenario.pizza Scenario.option_token 0 in
  db_polls (db Scenario.created) !! "poll-1" = Some p /\
  exists p',
    db_polls (db (fst (run default_settings Scenario.created
                         [Sample.first_vote; Sample.second_vote; Sample.comes_back])))
      !! "poll-1" = Some p' /\
    question p' = question p /\ created_at p' = created_at p /\
    List.map id (options p') = List.map id (options p) /\
    List.map text (options p') = List.map text (options p) /\
    Forall2 (fun o o' => votes o <= votes o') (options p) (options p') /\
    total_votes p <= total_votes p' /\ version p <= version p'.
Proof.
  intros p.
  assert (Hp : db_polls (db Scenario.created) !! "poll-1" = Some p)
    by (vm_compute; reflexivity).
  split; [exact Hp|].
  exact (polls_are_never_redefined default_settings
           [Sample.first_vote; Sample.second_vote; Sample.comes_back]
           Scenario.created "poll-1" p Hp).
Defined.

Lemma returned_cookie_is_never_admitted_again_witness :
  Sample.evening !! 1%nat
  = Some (VotePoll "poll-1" "opt-pizza" Scenario.browser None "uuid-1" 1000000) /\
  snd (run default_settings init_app Sample.evening) !! 1%nat
  = Some (Voted (Return Sample.first_answer)) /\
  set_cookie_voter_id Sample.first_answer <> "" /\
  Sample.evening !! 3%nat
  = Some (VotePoll "poll-1" "opt-pasta" Scenario.browser
            (Some (set_cookie_voter_id Sample.first_answer)) "uuid-3" 3000000) /\
  exists e, snd (run default_settings init_app Sample.evening) !! 3%nat
            = Some (Voted (Raise e)) /\
    (e = DuplicateVote \/ e = InvalidOption \/ e = RateLimited).
Proof.
  assert (H1 : Sample.evening !! 1%nat
               = Some (VotePoll "poll-1" "opt-pizza" Scenario.browser None "uuid-1" 1000000))
    by reflexivity.
  assert (H2 : snd (run default_settings init_app Sample.evening) !! 1%nat
               = Some (Voted (Return Sample.first_answer)))
    by (vm_compute; reflexivity).
  assert (H3 : set_cookie_voter_id Sample.first_answer <> "") by discriminate.
  assert (H4 : Sample.evening !! 3%nat
               = Some (VotePoll "poll-1" "opt-pasta" Scenario.browser
                         (Some (set_cookie_voter_id Sample.first_answer)) "uuid-3" 3000000))
    by reflexivity.
  split_and!; [exact H1|exact H2|exact H3|exact H4|].
  exact (returned_cookie_is_never_admitted_again default_settings Sample.evening init_app
           1%nat 3%nat "poll-1" "opt-pizza" Scenario.browser None "uuid-1" 1000000
           Sample.first_answer "opt-pasta" Scenario.browser "uuid-3" 3000000
           ltac:(lia) H1 H2 H3 H4).
Defined.

Lemma taken_poll_id_is_never_reused_witness :
  let cs := [Sample.first_vote; CreatePoll Scenario.pizza "poll-1" Scenario.option_token 5000000] in
  is_Some (db_polls (db Scenario.created) !! "poll-1") /\
  snd (run default_settings Scenario.created cs) !! 1%nat
  = Some (PollCreated (Raise DuplicateKeyError)) /\
  fst (run default_settings Scenario.created (take 2 cs))
  = fst (run default_settings Scenario.created (take 1 cs)).
Proof.
  intros cs.
  assert (H1 : is_Some (db_polls (db Scenario.created) !! "poll-1"))
    by (exists (new_poll Scenario.pizza Scenario.option_token 0); vm_compute; reflexivity).
  split; [exact H1|].
  exact (taken_poll_id_is_never_reused default_settings cs Scenario.created 1%nat
           Scenario.pizza "poll-1" Scenario.option_token 5000000 H1 eq_refl).
Defined.

Lemma rate_limit_ignores_other_polls_and_fingerprints_witness :
  db_polls (db Sample.noisy) = db_polls (db Sample.closed) /\
  db_votes (db Sample.noisy) = db_votes (db Sample.closed) /\
  List.length (db_vote_attempts (db Sample.noisy))
  = S (S (List.length (db_vote_attempts (db Sample.closed)))) /\
  List.filter (own_attempt "poll-1" (hash_ip default_settings (get_client_ip Scenario.browser)))
    (db_vote_attempts (db Sample.noisy))
  = List.filter (own_attempt "poll-1" (hash_ip default_settings (get_client_ip Scenario.browser)))
      (db_vote_attempts (db Sample.closed)) /\
  snd (vote_poll default_settings "poll-1" "opt-pizza" Scenario.browser None "uuid-4" 4000000
         Sample.noisy)
  = snd (vote_poll default_settings "poll-1" "opt-pizza" Scenario.browser None "uuid-4" 4000000
           Sample.closed).
Proof.
  assert (H1 : db_polls (db Sample.noisy) = db_polls (db Sample.closed)) by reflexivity.
  assert (H2 : db_votes (db Sample.noisy) = db_votes (db Sample.closed)) by reflexivity.
  assert (H3 : List.filter (own_attempt "poll-1" (hash_ip default_settings (get_client_ip Scenario.browser)))
                 (db_vote_attempts (db Sample.noisy))
               = List.filter (own_attempt "poll-1" (hash_ip default_settings (get_client_ip Scenario.browser)))
                   (db_vote_attempts (db Sample.closed)))
    by (vm_compute; reflexivity).
  split_and!; [exact H1|exact H2|vm_compute; reflexivity|exact H3|].
  exact (rate_limit_ignores_other_polls_and_fingerprints default_settings "poll-1" "opt-pizza"
           Scenario.browser None "uuid-4" 4000000 Sample.noisy Sample.closed H1 H2 H3).
Defined.

Lemma rate_limit_lifts_when_the_window_has_passed_witness :
  let fp := hash_ip default_settings (get_client_ip Scenario.browser) in
  let r := snd (vote_poll default_settings "poll-1" "opt-pizza" Scenario.browser
                  (Some "voter-2") "fresh-uuid" 80000000 Scenario.retried) in
  window_start_defined default_settings 80000000 = true /\
  0 <= RATE_LIMIT_WINDOW_SECONDS default_settings /\
  Mongo.find_poll_option (db Scenario.retried) "poll-1" "opt-pizza" <> None /\
  1 <= RATE_LIMIT_MAX_ATTEMPTS default_settings /\
  List.length (db_vote_attempts (db Scenario.retried)) = 15%nat /\
  (forall x, x ∈ db_vote_attempts (db Scenario.retried) ->
     a_poll_id x = "poll-1" -> a_ip_hash x = fp ->
     attempted_at x <= 80000000 - 60 * 1000000 - 1000) /\
  r <> Raise RateLimited.
Proof.
  intros fp r.
  assert (H0 : window_start_defined default_settings 80000000 = true)
    by (vm_compute; reflexivity).
  assert (H1 : 0 <= RATE_LIMIT_WINDOW_SECONDS default_settings) by (simpl; lia).
  assert (H2 : Mongo.find_poll_option (db Scenario.retried) "poll-1" "opt-pizza" <> None)
    by (vm_compute; discriminate).
  assert (H3 : 1 <= RATE_LIMIT_MAX_ATTEMPTS default_settings) by (simpl; lia).
  assert (H4 : forall x, x ∈ db_vote_attempts (db Scenario.retried) ->
     a_poll_id x = "poll-1" -> a_ip_hash x = fp ->
     attempted_at x <= 80000000 - 60 * 1000000 - 1000).
  { intros x Hx _ _. apply list_elem_of_In in Hx.
    assert (Hall : forallb (fun y => attempted_at y <=? 19999000)
                     (db_vote_attempts (db Scenario.retried)) = true)
      by (vm_compute; reflexivity).
    rewrite forallb_forall in Hall. specialize (Hall x Hx). lia. }
  split_and!; [exact H0|exact H1|exact H2|exact H3|vm_compute; reflexivity|exact H4|].
  exact (proj1 (proj2 (rate_limit_lifts_when_the_window_has_passed default_settings "poll-1"
                  "opt-pizza" Scenario.browser (Some "voter-2") "fresh-uuid" 80000000
                  Scenario.retried H0 H1 H2)) H3 H4).
Defined.

Lemma rate_limit_settings_at_their_edges_witness :
  window_start_defined Sample.no_attempts 1000000 = true /\
  window_start_defined Sample.window_ahead 1000000 = true /\
  Mongo.find_poll_option (db Scenario.created) "poll-1" "opt-pizza" <> None /\
  snd (vote_poll Sample.no_attempts "poll-1" "opt-pizza" Scenario.browser None "uuid-1"
         1000000 Scenario.created) = Raise RateLimited /\
  snd (vote_poll Sample.window_ahead "poll-1" "opt-pizza" Scenario.browser None "uuid-1"
         1000000 Scenario.created) <> Raise RateLimited.
Proof.
  assert (H1 : window_start_defined Sample.no_attempts 1000000 = true)
    by (vm_compute; reflexivity).
  assert (H2 : window_start_defined Sample.window_ahead 1000000 = true)
    by (vm_compute; reflexivity).
  assert (H : Mongo.find_poll_option (db Scenario.created) "poll-1" "opt-pizza" <> None)
    by (vm_compute; discriminate).
  split; [exact H1|]. split; [exact H2|]. split; [exact H|]. split.
  - apply (rate_limit_settings_at_their_edges Sample.no_attempts "poll-1" "opt-pizza"
             Scenario.browser None "uuid-1" 1000000 Scenario.created H1 H); simpl; lia.
  - apply (rate_limit_settings_at_their_edges Sample.window_ahead "poll-1" "opt-pizza"
             Scenario.browser None "uuid-1" 1000000 Scenario.created H2 H); [simpl; lia..|].
    intros x Hx. vm_compute in Hx. inversion Hx.
Defined.

Lemma pending_signal_reaches_only_the_first_stream_witness :
  let a1 := fst (event_generator 0 1000000 Sample.two_streams) in
  streams Sample.two_streams !! 0%nat = Some Sample.at_wait /\
  streams Sample.two_streams !! 1%nat = Some Sample.at_wait /\
  poll_events Sample.two_streams !! "poll-1" = Some Sample.raised /\
  snd (event_generator 0 1000000 Sample.two_streams) = true /\
  snd (event_generator 1 1000001 a1) = false /\
  streams (fst (event_generator 1 1000001 a1)) !! 1%nat
  = Some (set_pc Sample.at_wait (Suspended false)) /\
  emitted (set_pc Sample.at_wait (Suspended false)) = emitted Sample.at_wait.
Proof.
  intros a1.
  assert (H1 : streams Sample.two_streams !! 0%nat = Some Sample.at_wait)
    by (vm_compute; reflexivity).
  assert (H2 : streams Sample.two_streams !! 1%nat = Some Sample.at_wait)
    by (vm_compute; reflexivity).
  assert (H3 : poll_events Sample.two_streams !! stream_poll Sample.at_wait = Some Sample.raised)
    by (vm_compute; reflexivity).
  split_and!; [exact H1|exact H2|exact H3|..];
    apply (pending_signal_reaches_only_the_first_stream Sample.two_streams 0%nat 1%nat
             Sample.at_wait Sample.at_wait Sample.raised 1000000 1000001
             ltac:(discriminate) H1 H2 eq_refl eq_refl eq_refl H3 eq_refl).
Defined.

Lemma signals_between_two_runs_coalesce_witness :
  let a2 := notify_poll_change "poll-1" (notify_poll_change "poll-1" Scenario.watching) in
  reachable default_settings Scenario.watching /\
  streams Scenario.watching !! 0%nat = Some Sample.waiting /\
  a2 = notify_poll_change "poll-1" Scenario.watching /\
  snd (event_generator 0 2000000 a2) = true /\
  emitted <$> streams (fst (event_generator 0 2000000 a2)) !! 0%nat
  = Some (emitted Sample.waiting ++ [2000000]) /\
  snd (event_generator 0 2000001 (fst (event_generator 0 2000000 a2))) = false.
Proof.
  intros a2.
  assert (H1 : reachable default_settings Scenario.watching)
    by (exists [Scenario.create; OpenStream "poll-1"; RunStream 0 1000000; RunStream 0 1000001];
        vm_compute; reflexivity).
  assert (H2 : streams Scenario.watching !! 0%nat = Some Sample.waiting)
    by (vm_compute; reflexivity).
  split; [exact H1|]. split; [exact H2|].
  exact (signals_between_two_runs_coalesce default_settings Scenario.watching "poll-1" 0%nat
           Sample.waiting 2000000 2000001 H1 H2 eq_refl eq_refl).
Defined.

Lemma validated_body_validates_to_itself_witness :
  CreatePollRequest_new Sample.raw_question Sample.raw_options = inl Scenario.pizza /\
  CreatePollRequest_new (payload_question Scenario.pizza) (payload_options Scenario.pizza)
  = inl Scenario.pizza.
Proof.
  assert (H : CreatePollRequest_new Sample.raw_question Sample.raw_options = inl Scenario.pizza)
    by (vm_compute; reflexivity).
  split; [exact H|].
  exact (validated_body_validates_to_itself Sample.raw_question Sample.raw_options
           Scenario.pizza H).
Defined.

Lemma stored_polls_keep_the_validated_shape_witness :
  Forall validated Sample.evening /\
  db_polls (db (fst (run default_settings init_app Sample.evening))) !! "poll-1"
  = Some Sample.tally /\
  trimmed (question Sample.tally) /\ (String.length (question Sample.tally) <= 500)%nat /\
  (2 <= List.length (options Sample.tally) <= 20)%nat /\
  Forall (fun o => trimmed (text o) /\ 0 <= votes o) (options Sample.tally).
Proof.
  assert (H1 : Forall validated Sample.evening).
  { repeat constructor.
    exists Sample.raw_question, Sample.raw_options. vm_compute. reflexivity. }
  assert (H2 : db_polls (db (fst (run default_settings init_app Sample.evening))) !! "poll-1"
               = Some Sample.tally) by (vm_compute; reflexivity).
  split; [exact H1|]. split; [exact H2|].
  exact (stored_polls_keep_the_validated_shape default_settings Sample.evening "poll-1"
           Sample.tally H1 H2).
Defined.
